(** * excel-number-format: tokenizer, parser and renderer

    A shallow embedding of [src/tokenizer.ts], [src/parser.ts] and
    [src/renderer.ts], followed by the properties stated about them.

    Conventions of the embedding.
    - A JavaScript string is a [string]; a one-character string such as
      [format[i]] is a [string] of length one, and [undefined] is [None].
    - A JavaScript number is modelled by the exact decimal it prints as
      (module [JsNumber]): [mant / 10 ^ decimals].  The values given to
      [render] are finite, and [-0] is identified with [0] (the renderer
      cannot tell them apart: [-0 < 0] is false and [String(-0)] is
      ["0"]).  What the code computes from them -- [Number(text)] for the
      threshold of a condition, [x * Math.pow(100, percentCount)] for a
      percentage -- is rounded as binary64 arithmetic rounds it, to the
      nearest number with ties to even, and can be an infinity or [NaN]
      (type [extended]); [Math.pow(100, k)] is taken correctly rounded.
    - Objects are records, optional fields are [option]s and arrays are
      lists.  The cursor of the tokenizer ([this.pos]) is the suffix of
      the format that is still to be read. *)

From Stdlib Require Import ZArith List String Ascii Bool Lia DecimalString.
From Stdlib Require DecimalFacts DecimalPos DecimalN.
Import ListNotations.
Open Scope string_scope.

(** ** Strings *)

Module Str.

Definition chr (c : ascii) : string := String c EmptyString.

(** [s[i]] for an integer index: [undefined] outside the string. *)
Definition charAt (s : string) (i : Z) : option string :=
  if (i <? 0)%Z then None else option_map chr (String.get (Z.to_nat i) s).

Fixpoint drop (n : nat) (s : string) : string :=
  match n, s with
  | O, _ => s
  | S n', String _ s' => drop n' s'
  | S _, EmptyString => EmptyString
  end.

Fixpoint take (n : nat) (s : string) : string :=
  match n, s with
  | S n', String c s' => String c (take n' s')
  | _, _ => EmptyString
  end.

Fixpoint rev (s : string) : string :=
  match s with
  | EmptyString => EmptyString
  | String c s' => rev s' ++ chr c
  end.

Fixpoint repeat (c : ascii) (n : nat) : string :=
  match n with
  | O => EmptyString
  | S n' => String c (repeat c n')
  end.

Fixpoint forallb (p : ascii -> bool) (s : string) : bool :=
  match s with
  | EmptyString => true
  | String c s' => p c && forallb p s'
  end.

(** [s.split(sep)] for a one-character separator: the pieces between the
    occurrences of [sep], at least one piece. *)
Fixpoint split_acc (sep : ascii) (cur : string) (s : string) : list string :=
  match s with
  | EmptyString => [cur]
  | String c s' =>
      if Ascii.eqb c sep then cur :: split_acc sep EmptyString s'
      else split_acc sep (cur ++ chr c) s'
  end.

Definition split (sep : ascii) (s : string) : list string :=
  split_acc sep EmptyString s.

(** [arr.join('')]. *)
Definition join (l : list string) : string := String.concat EmptyString l.

Definition isDigit (c : ascii) : bool :=
  (48 <=? nat_of_ascii c)%nat && (nat_of_ascii c <=? 57)%nat.

Definition dquote : ascii := "034"%char.
Definition backslash : ascii := "092"%char.

End Str.

(** ** Numbers *)

Module JsNumber.

(** The number [mant / 10 ^ decimals]. *)
Record number : Set := mkNumber { mant : Z; decimals : nat }.

Definition pow10 (n : nat) : Z := (10 ^ Z.of_nat n)%Z.

Definition of_Z (z : Z) : number := mkNumber z 0.

Definition compare (a b : number) : comparison :=
  (mant a * pow10 (decimals b) ?= mant b * pow10 (decimals a))%Z.

Definition ltb (a b : number) : bool :=
  match compare a b with Lt => true | _ => false end.
Definition gtb (a b : number) : bool :=
  match compare a b with Gt => true | _ => false end.
Definition leb (a b : number) : bool := negb (gtb a b).
Definition geb (a b : number) : bool := negb (ltb a b).
Definition eqb (a b : number) : bool :=
  match compare a b with Eq => true | _ => false end.

Definition zero : number := of_Z 0.

(** [Math.abs]. *)
Definition abs (a : number) : number := mkNumber (Z.abs (mant a)) (decimals a).

(** *** Binary64 arithmetic *)

(** A number, an infinity or [NaN]. *)
Inductive extended : Set :=
| Finite (a : number)
| Infinite (negative : bool)
| NaN.

Definition opposite (x : extended) : extended :=
  match x with
  | Finite a => Finite (mkNumber (- mant a) (decimals a))
  | Infinite negative => Infinite (negb negative)
  | NaN => NaN
  end.

(** The integer nearest to [n / d], the even one of the two when [n / d]
    is half-way. *)
Definition roundHalfEven (n d : Z) : Z :=
  let q := (n / d)%Z in
  match (2 * (n mod d) ?= d)%Z with
  | Lt => q
  | Gt => (q + 1)%Z
  | Eq => if Z.even q then q else (q + 1)%Z
  end.

(** The integer part of the binary logarithm of [n / d], for positive
    [n] and [d]. *)
Definition floorLog2 (n d : Z) : Z :=
  let t := (Z.log2 n - Z.log2 d)%Z in
  if (d * 2 ^ Z.max 0 t <=? n * 2 ^ Z.max 0 (- t))%Z then t else (t - 1)%Z.

(** The binary64 number nearest to [n / d], for [n >= 0] and [d > 0], as
    a significand [m < 2^53] and an exponent [e >= -1074]: the number
    [m * 2^e].  Ties go to the even significand.  An exponent above 971
    stands for an overflow. *)
Definition round64 (n d : Z) : Z * Z :=
  if (n =? 0)%Z then (0, -1074)%Z
  else
    let e := Z.max (-1074) (floorLog2 n d - 52) in
    let m := roundHalfEven (n * 2 ^ Z.max 0 (- e)) (d * 2 ^ Z.max 0 e) in
    if (m =? 2 ^ 53)%Z then (2 ^ 52, e + 1)%Z else (m, e).

Definition same64 (a b : Z * Z) : bool :=
  ((fst a =? fst b) && (snd a =? snd b))%Z.

(** The integer part of the decimal logarithm of [w >= 1]. *)
Fixpoint log10_from (fuel : nat) (w : Z) : Z :=
  match fuel with
  | O => 0%Z
  | S fuel' => if (w <? 10)%Z then 0%Z else (1 + log10_from fuel' (w / 10))%Z
  end.

(** The [k] with [10^(k-1) <= xn / xd < 10^k], for a positive binary64
    number [xn / xd]. *)
Definition decimalExponent (xn xd : Z) : Z :=
  let p := Z.max 0 (Z.log2 xd - Z.log2 xn + 1) in
  (log10_from 800 (xn * 10 ^ p / xd) + 1 - p)%Z.

(** [10^z] as a fraction. *)
Definition pow10Q (z : Z) : Z * Z :=
  if (0 <=? z)%Z then (10 ^ z, 1)%Z else (1, 10 ^ (- z))%Z.

(** The number [s * 10^e10]. *)
Definition decimal (s e10 : Z) : number :=
  let (s, e10) :=
    if ((e10 <? 0) && (s mod 10 =? 0))%Z then (s / 10, e10 + 1)%Z
    else (s, e10) in
  if (0 <=? e10)%Z then mkNumber (s * 10 ^ e10) 0
  else mkNumber s (Z.to_nat (- e10)).

(** The binary64 number nearest to [s * 10^e10] is [b]. *)
Definition roundsTo (b : Z * Z) (s e10 : Z) : bool :=
  let (un, ud) := pow10Q e10 in same64 (round64 (s * un) ud) b.

(** Of the two multiples of [10^e10] around [xn / xd], the one that is
    read back as [b]; the nearer one when both are, and the even one
    when they are as near. *)
Definition tryDigits (b : Z * Z) (xn xd e10 : Z) : option number :=
  let (un, ud) := pow10Q e10 in
  let s := (xn * ud / (xd * un))%Z in
  let upper :=
    match (2 * xn * ud ?= (2 * s + 1) * un * xd)%Z with
    | Gt => true
    | Lt => false
    | Eq => Z.odd s
    end in
  match roundsTo b s e10, roundsTo b (s + 1) e10 with
  | true, true => Some (decimal (if upper then s + 1 else s)%Z e10)
  | true, false => Some (decimal s e10)
  | false, true => Some (decimal (s + 1) e10)
  | false, false => None
  end.

(** The digits of [Number::toString]: the decimal with the fewest
    significant digits, [n] of them, that is read back as [b]; 17 digits
    are always enough. *)
Fixpoint shortest_from (fuel : nat) (n : Z) (b : Z * Z) (xn xd k : Z)
  : number :=
  match tryDigits b xn xd (k - n) with
  | Some r => r
  | None =>
      match fuel with
      | O => mkNumber (xn * 5 ^ 1074) 1074
      | S fuel' => shortest_from fuel' (n + 1) b xn xd k
      end
  end.

(** The binary64 number [b], not negative, as the decimal it prints
    as. *)
Definition ofBinary64 (b : Z * Z) : extended :=
  let (m, e) := b in
  if (m =? 0)%Z then Finite zero
  else if (971 <? e)%Z then Infinite false
  else
    let xn := (m * 2 ^ Z.max 0 e)%Z in
    let xd := (2 ^ Z.max 0 (- e))%Z in
    Finite (shortest_from 16 1 b xn xd (decimalExponent xn xd)).

(** The binary64 number nearest to the magnitude of a decimal. *)
Definition toBinary64 (a : number) : Z * Z :=
  round64 (Z.abs (mant a)) (pow10 (decimals a)).

(** The decimal [a] read as a binary64 number: [Number(text)]. *)
Definition toNumber (a : number) : extended :=
  let r := ofBinary64 (toBinary64 a) in
  if (mant a <? 0)%Z then opposite r else r.

(** [x * Math.pow(100, k)]: the binary64 product of the number that
    prints as [a] and of [100^k]. *)
Definition mul_pow100 (a : number) (k : nat) : extended :=
  let '(mp, ep) := round64 (100 ^ Z.of_nat k) 1 in
  let '(mx, ex) := toBinary64 a in
  let r :=
    if (mx =? 0)%Z then if (971 <? ep)%Z then NaN else Finite zero
    else if ((971 <? ep) || (971 <? ex))%Z then Infinite false
    else
      ofBinary64
        (round64 (mx * mp * 2 ^ Z.max 0 (ex + ep))
                 (2 ^ Z.max 0 (- (ex + ep)))) in
  if (mant a <? 0)%Z then opposite r else r.

(** [a < b] and the like for a number [a] and a [b] that may be an
    infinity or [NaN]; every comparison with [NaN] is false but [!==]. *)
Definition compare_ext (a : number) (b : extended) : option comparison :=
  match b with
  | Finite b' => Some (compare a b')
  | Infinite negative => Some (if negative then Gt else Lt)
  | NaN => None
  end.

Definition lt_ext (a : number) (b : extended) : bool :=
  match compare_ext a b with Some Lt => true | _ => false end.
Definition gt_ext (a : number) (b : extended) : bool :=
  match compare_ext a b with Some Gt => true | _ => false end.
Definition le_ext (a : number) (b : extended) : bool :=
  match compare_ext a b with Some Lt | Some Eq => true | _ => false end.
Definition ge_ext (a : number) (b : extended) : bool :=
  match compare_ext a b with Some Gt | Some Eq => true | _ => false end.
Definition eq_ext (a : number) (b : extended) : bool :=
  match compare_ext a b with Some Eq => true | _ => false end.

(** *** Numbers as strings *)

(** Decimal digits of a natural number, most significant first. *)
Definition digits (n : N) : string := NilZero.string_of_uint (N.to_uint n).

Fixpoint strip_leading_zeros (s : string) : string :=
  match s with
  | String c s' => if Ascii.eqb c "0" then strip_leading_zeros s' else s
  | EmptyString => EmptyString
  end.

Definition strip_trailing_zeros (s : string) : string :=
  Str.rev (strip_leading_zeros (Str.rev s)).

Definition pad_left (width : nat) (s : string) : string :=
  Str.repeat "0" (width - String.length s) ++ s.

(** [Number::toString] of a positive number in positional notation,
    used for [10^-6 <= x < 10^21]. *)
Definition toString_plain (m : Z) (sc : nat) : string :=
  let ip := digits (Z.to_N (m / pow10 sc)) in
  let fr := strip_trailing_zeros
              (pad_left sc (digits (Z.to_N (m mod pow10 sc)))) in
  match fr with
  | EmptyString => ip
  | _ => ip ++ "." ++ fr
  end.

(** [Number::toString] of a positive number in exponent notation, used
    for [x >= 10^21] and [x < 10^-6]: the significant digits [s], a point
    after the first of them when there are several, and the exponent. *)
Definition toString_exp (m : Z) (sc : nat) : string :=
  let all := digits (Z.to_N m) in
  let s := strip_trailing_zeros all in
  let e := (Z.of_nat (String.length all) - Z.of_nat sc - 1)%Z in
  let ex := "e" ++ (if (e <? 0)%Z then "-" else "+")
                ++ digits (Z.to_N (Z.abs e)) in
  match s with
  | String d EmptyString => Str.chr d ++ ex
  | String d ds => Str.chr d ++ "." ++ ds ++ ex
  | EmptyString => ex
  end.

Definition toString_pos (m : Z) (sc : nat) : string :=
  if ((m <? 10 ^ 21 * pow10 sc) && (pow10 sc <=? m * 10 ^ 6))%Z
  then toString_plain m sc
  else toString_exp m sc.

(** [String(x)] for a number [x]. *)
Definition toString (a : number) : string :=
  match mant a with
  | Z0 => "0"
  | Zpos _ => toString_pos (mant a) (decimals a)
  | Zneg _ => "-" ++ toString_pos (Z.abs (mant a)) (decimals a)
  end.

(** The value of a string of decimal digits. *)
Fixpoint digits_value (acc : Z) (s : string) : Z :=
  match s with
  | EmptyString => acc
  | String c s' =>
      digits_value (10 * acc + (Z.of_nat (nat_of_ascii c) - 48))%Z s'
  end.

(** The decimal written by a string matched by [-?\d+(\.\d+)?]. *)
Definition written (s : string) : number :=
  let (neg, body) :=
    match s with
    | String "-" r => (true, r)
    | _ => (false, s)
    end in
  let pieces := Str.split "." body in
  let ip := nth 0 pieces EmptyString in
  let fp := nth 1 pieces EmptyString in
  let m := digits_value 0 (ip ++ fp) in
  mkNumber (if neg then (- m)%Z else m) (String.length fp).

(** [Number(s)] for a string matched by [-?\d+(\.\d+)?]. *)
Definition ofString (s : string) : extended := toNumber (written s).

(** [String(x)] for the result of a computation. *)
Definition toString_ext (x : extended) : string :=
  match x with
  | Finite a => toString a
  | Infinite negative => if negative then "-Infinity" else "Infinity"
  | NaN => "NaN"
  end.

End JsNumber.

Import JsNumber.

(** ** Tokenizer ([src/tokenizer.ts]) *)

Module Tokenizer.

Inductive Token : Set :=
| DateToken (token : string)
| SectionSeparator
| DecimalPoint
| ThousandSep
| Percent
| TextPlaceholder
| Placeholder (char : string)
| Literal (char : string)
| Escape (char : string)
| Fill (char : string)
| Space (char : string)
| Color (name : string)
| ScientificSymbol (sign : option string)
| Quoted (text : string)
| Locale (raw : string)
| Condition (op : string) (value : extended).

(** The [type] field of a token. *)
Definition type (tk : Token) : string :=
  match tk with
  | DateToken _ => "DateToken"
  | SectionSeparator => "SectionSeparator"
  | DecimalPoint => "DecimalPoint"
  | ThousandSep => "ThousandSep"
  | Percent => "Percent"
  | TextPlaceholder => "TextPlaceholder"
  | Placeholder _ => "Placeholder"
  | Literal _ => "Literal"
  | Escape _ => "Escape"
  | Fill _ => "Fill"
  | Space _ => "Space"
  | Color _ => "Color"
  | ScientificSymbol _ => "ScientificSymbol"
  | Quoted _ => "Quoted"
  | Locale _ => "Locale"
  | Condition _ _ => "Condition"
  end.

(** The other fields, [undefined] on the tokens that lack them. *)
Definition char (tk : Token) : option string :=
  match tk with
  | Placeholder c | Literal c | Escape c | Fill c | Space c => Some c
  | _ => None
  end.
Definition name (tk : Token) : option string :=
  match tk with Color n => Some n | _ => None end.
Definition sign (tk : Token) : option string :=
  match tk with ScientificSymbol s => s | _ => None end.
Definition text (tk : Token) : option string :=
  match tk with Quoted t => Some t | _ => None end.
Definition op (tk : Token) : option string :=
  match tk with Condition o _ => Some o | _ => None end.
Definition value (tk : Token) : option extended :=
  match tk with Condition _ v => Some v | _ => None end.

(** [readQuoted], after the opening quote has been consumed: the text
    read and the input left. *)
Fixpoint readQuoted_loop (rest : string) (text : string) : string * string :=
  match rest with
  | EmptyString => (text, EmptyString)
  | String ch r =>
      if Ascii.eqb ch Str.dquote then
        match r with
        | String ch2 r2 =>
            if Ascii.eqb ch2 Str.dquote
            then readQuoted_loop r2 (text ++ Str.chr Str.dquote)
            else (text, r)
        | EmptyString => (text, r)
        end
      else readQuoted_loop r (text ++ Str.chr ch)
  end.

Definition readQuoted (rest : string) : Token * string :=
  let (text, r) := readQuoted_loop (Str.drop 1 rest) EmptyString in
  (Quoted text, r).

(** [this.next() ?? ''] together with the input left. *)
Definition nextOrEmpty (rest : string) : string * string :=
  match rest with
  | String c r => (Str.chr c, r)
  | EmptyString => (EmptyString, EmptyString)
  end.

Definition readEscape (rest : string) : Token * string :=
  let (ch, r) := nextOrEmpty (Str.drop 1 rest) in (Escape ch, r).

Definition readFill (rest : string) : Token * string :=
  let (ch, r) := nextOrEmpty (Str.drop 1 rest) in (Fill ch, r).

Definition readSpace (rest : string) : Token * string :=
  let (ch, r) := nextOrEmpty (Str.drop 1 rest) in (Space ch, r).

(** The loop of [readBracket]: the content up to the closing bracket and
    the input from that bracket on. *)
Fixpoint readBracket_loop (rest : string) (content : string)
  : string * string :=
  match rest with
  | EmptyString => (content, EmptyString)
  | String ch r =>
      if Ascii.eqb ch "]" then (content, rest)
      else readBracket_loop r (content ++ Str.chr ch)
  end.

(** [\d+] at the start of [s]: the input after the longest run of
    digits, when the run is not empty. *)
Fixpoint skipDigits (s : string) : string :=
  match s with
  | String c s' => if Str.isDigit c then skipDigits s' else s
  | EmptyString => EmptyString
  end.

Definition digits1 (s : string) : option string :=
  match s with
  | String c s' => if Str.isDigit c then Some (skipDigits s') else None
  | EmptyString => None
  end.

(** [^-?\d+(\.\d+)?$]. *)
Definition matchNumber (s : string) : bool :=
  let body := match s with String "-" r => r | _ => s end in
  match digits1 body with
  | Some EmptyString => true
  | Some (String "." r) =>
      match digits1 r with
      | Some EmptyString => true
      | _ => false
      end
  | _ => false
  end.

Definition condOps : list string := ["<="; ">="; "<>"; "<"; ">"; "="].

(** [content.match(/^(<=|>=|<>|<|>|=)(-?\d+(\.\d+)?)$/)]: the
    alternatives are tried in order. *)
Fixpoint condMatch (ops : list string) (content : string)
  : option (string * string) :=
  match ops with
  | [] => None
  | o :: ops' =>
      let r := Str.drop (String.length o) content in
      if String.prefix o content && matchNumber r then Some (o, r)
      else condMatch ops' content
  end.

Definition colors : list string :=
  ["Black"; "Blue"; "Cyan"; "Green"; "Magenta"; "Red"; "White"; "Yellow"].

Definition readBracket (rest : string) : Token * string :=
  let (content, r) := readBracket_loop (Str.drop 1 rest) EmptyString in
  let r' := Str.drop 1 r in
  match condMatch condOps content with
  | Some (o, num) => (Condition o (ofString num), r')
  | None =>
      if existsb (String.eqb content) colors then (Color content, r')
      else (Locale content, r')
  end.

Definition tryScientific (rest : string) : option (Token * string) :=
  match rest with
  | String ch (String sg r) =>
      if (Ascii.eqb ch "E" || Ascii.eqb ch "e")
         && (Ascii.eqb sg "+" || Ascii.eqb sg "-")
      then Some (ScientificSymbol (Some (Str.chr sg)), r)
      else None
  | _ => None
  end.

Definition patterns : list string :=
  ["yyyy"; "yyy"; "yy"; "y"; "mmmmm"; "mmmm"; "mmm"; "mm"; "m";
   "dddd"; "ddd"; "dd"; "d"; "hh"; "h"; "ss"; "s"; "AM/PM"; "am/pm"].

Fixpoint tryDateToken_loop (ps : list string) (rest : string)
  : option (Token * string) :=
  match ps with
  | [] => None
  | p :: ps' =>
      if String.prefix p rest
      then Some (DateToken p, Str.drop (String.length p) rest)
      else tryDateToken_loop ps' rest
  end.

Definition tryDateToken (rest : string) : option (Token * string) :=
  tryDateToken_loop patterns rest.

(** One turn of the loop of [tokenize] on a non-empty input [String ch r]:
    the token pushed and the input left. *)
Definition tokenize_step (ch : ascii) (r : string) : Token * string :=
  let rest := String ch r in
  if Ascii.eqb ch ";" then (SectionSeparator, r)
  else if Ascii.eqb ch Str.dquote then readQuoted rest
  else if Ascii.eqb ch Str.backslash then readEscape rest
  else if Ascii.eqb ch "*" then readFill rest
  else if Ascii.eqb ch "_" then readSpace rest
  else if Ascii.eqb ch "[" then readBracket rest
  else if Ascii.eqb ch "0" || Ascii.eqb ch "#" || Ascii.eqb ch "?"
       then (Placeholder (Str.chr ch), r)
  else if Ascii.eqb ch "." then (DecimalPoint, r)
  else if Ascii.eqb ch "," then (ThousandSep, r)
  else if Ascii.eqb ch "%" then (Percent, r)
  else
    match (if Ascii.eqb ch "E" || Ascii.eqb ch "e"
           then tryScientific rest else None) with
    | Some res => res
    | None =>
        if Ascii.eqb ch "@" then (TextPlaceholder, r)
        else
          match tryDateToken rest with
          | Some res => res
          | None => (Literal (Str.chr ch), r)
          end
    end.

(** The loop [while (!this.eof())], with a bound on the number of turns;
    [None] when the bound is reached before the end of the input. *)
Fixpoint tokenize_loop (fuel : nat) (rest : string) : option (list Token) :=
  match rest with
  | EmptyString => Some []
  | String ch r =>
      match fuel with
      | O => None
      | S fuel' =>
          let (tk, rest') := tokenize_step ch r in
          option_map (cons tk) (tokenize_loop fuel' rest')
      end
  end.

(** [new Tokenizer(format).tokenize()].  Every turn consumes a character,
    so [format.length] turns are enough (lemma [tokenize_loop_total]). *)
Definition tokenize (format : string) : list Token :=
  match tokenize_loop (String.length format) format with
  | Some tokens => tokens
  | None => []
  end.

End Tokenizer.

(** ** Parser ([src/parser.ts]) *)

Module Parser.

Inductive FormatPartKind : Set :=
| Digit
| ZeroDigit
| SpaceDigit
| Percent
| Literal
| Dot.

Definition FormatPartKind_eqb (a b : FormatPartKind) : bool :=
  match a, b with
  | Digit, Digit | ZeroDigit, ZeroDigit | SpaceDigit, SpaceDigit
  | Percent, Percent | Literal, Literal | Dot, Dot => true
  | _, _ => false
  end.

(** [kind] is [None] when the table of the [Placeholder] case has no
    entry for the character of the token. *)
Record FormatPart : Set := mkPart {
  kind : option FormatPartKind;
  char : option string
}.

Record Condition : Set := mkCondition {
  op : string;
  value : extended
}.

Record FormatSection : Set := mkSection {
  condition : option Condition;
  color : option string;
  parts : list FormatPart;
  scientific : option string;
  percentCount : option nat;
  thousandSeparator : option bool;
  scale : option Z
}.

Record FormatAST : Set := mkAST { sections : list FormatSection }.

(** [{ parts: [] }] *)
Definition emptySection : FormatSection :=
  mkSection None None [] None None None None.

Definition set_condition (s : FormatSection) (c : option Condition) :=
  mkSection c (color s) (parts s) (scientific s) (percentCount s)
            (thousandSeparator s) (scale s).
Definition set_color (s : FormatSection) (c : option string) :=
  mkSection (condition s) c (parts s) (scientific s) (percentCount s)
            (thousandSeparator s) (scale s).
Definition set_scientific (s : FormatSection) (c : option string) :=
  mkSection (condition s) (color s) (parts s) c (percentCount s)
            (thousandSeparator s) (scale s).
Definition set_percentCount (s : FormatSection) (c : option nat) :=
  mkSection (condition s) (color s) (parts s) (scientific s) c
            (thousandSeparator s) (scale s).
Definition set_thousandSeparator (s : FormatSection) (c : option bool) :=
  mkSection (condition s) (color s) (parts s) (scientific s)
            (percentCount s) c (scale s).
Definition set_scale (s : FormatSection) (c : option Z) :=
  mkSection (condition s) (color s) (parts s) (scientific s)
            (percentCount s) (thousandSeparator s) c.

(** [section.parts.push(...ps)] *)
Definition push_parts (s : FormatSection) (ps : list FormatPart) :=
  mkSection (condition s) (color s) (parts s ++ ps)%list (scientific s)
            (percentCount s) (thousandSeparator s) (scale s).

(** [tk?.type === ty] *)
Definition hasType (tk : option Tokenizer.Token) (ty : string) : bool :=
  match tk with
  | Some t => String.eqb (Tokenizer.type t) ty
  | None => false
  end.

(** The table [{ '0': ZeroDigit, '#': Digit, '?': SpaceDigit }[c]] *)
Definition placeholderKind (c : option string) : option FormatPartKind :=
  match c with
  | Some c =>
      if String.eqb c "0" then Some ZeroDigit
      else if String.eqb c "#" then Some Digit
      else if String.eqb c "?" then Some SpaceDigit
      else None
  | None => None
  end.

Fixpoint chars (s : string) : list string :=
  match s with
  | EmptyString => []
  | String c s' => Str.chr c :: chars s'
  end.

(** The body of the loop of [parse] for the token [tk], with [prevTk] the
    token before it and [after] the tokens after it
    ([this.tokens.slice(index + 1)]). *)
Definition parse_token (prevTk : option Tokenizer.Token)
    (tk : Tokenizer.Token) (after : list Tokenizer.Token)
    (st : list FormatSection * FormatSection)
  : list FormatSection * FormatSection :=
  let (sections, section) := st in
  let nextTk := hd_error after in
  let ty := Tokenizer.type tk in
  if String.eqb ty "Color" then
    (sections, set_color section (Tokenizer.name tk))
  else if String.eqb ty "Condition" then
    match Tokenizer.op tk, Tokenizer.value tk with
    | Some o, Some v => (sections, set_condition section (Some (mkCondition o v)))
    | _, _ => (sections, section)
    end
  else if String.eqb ty "SectionSeparator" then
    ((sections ++ [section])%list, emptySection)
  else if String.eqb ty "Dot" then
    (sections, push_parts section [mkPart (Some Dot) None])
  else if String.eqb ty "ThousandSep" then
    if hasType prevTk "Placeholder" then
      if hasType nextTk "Placeholder" then
        (sections, set_thousandSeparator section (Some true))
      else if negb (existsb (fun t => String.eqb (Tokenizer.type t) "Placeholder")
                            after) then
        (sections,
         set_scale section
           (Some (match scale section with Some x => x | None => 1 end
                  * 1000)%Z))
      else (sections, section)
    else if hasType prevTk "Literal" then
      (sections, push_parts section [mkPart (Some Literal) (Some ",")])
    else (sections, section)
  else if String.eqb ty "Percent" then
    (sections,
     push_parts
       (set_percentCount section
          (Some (match percentCount section with Some x => x | None => 0 end
                 + 1)))
       [mkPart (Some Percent) None])
  else if String.eqb ty "ScientificSymbol" then
    (sections, set_scientific section (Tokenizer.sign tk))
  else if String.eqb ty "Literal" then
    (sections, push_parts section [mkPart (Some Literal) (Tokenizer.char tk)])
  else if String.eqb ty "Quoted" then
    (sections,
     push_parts section
       (map (fun c => mkPart (Some Literal) (Some c))
            (match Tokenizer.text tk with Some t => chars t | None => [] end)))
  else if String.eqb ty "Placeholder" then
    (sections,
     push_parts section [mkPart (placeholderKind (Tokenizer.char tk)) None])
  else (sections, section).

Fixpoint parse_loop (prevTk : option Tokenizer.Token)
    (tokens : list Tokenizer.Token)
    (st : list FormatSection * FormatSection)
  : list FormatSection * FormatSection :=
  match tokens with
  | [] => st
  | tk :: after => parse_loop (Some tk) after (parse_token prevTk tk after st)
  end.

(** [new Parser(tokens).parse()] *)
Definition parse (tokens : list Tokenizer.Token) : FormatAST :=
  let (sections, section) := parse_loop None tokens ([], emptySection) in
  mkAST (match parts section with
         | [] => sections
         | _ :: _ => (sections ++ [section])%list
         end).

End Parser.

(** ** Renderer ([src/renderer.ts]) *)

Module Renderer.

Import Parser.

Inductive Value : Set :=
| VString (s : string)
| VNumber (n : number).

Record RenderResult : Set := mkResult {
  text : string;
  color : option string
}.

(** [String(value)] *)
Definition String_ (value : Value) : string :=
  match value with
  | VString s => s
  | VNumber n => toString n
  end.

Definition evaluateCondition (condition : Condition) (numValue : number)
  : bool :=
  let o := Parser.op condition in
  let v := Parser.value condition in
  if String.eqb o ">" then gt_ext numValue v
  else if String.eqb o ">=" then ge_ext numValue v
  else if String.eqb o "<" then lt_ext numValue v
  else if String.eqb o "<=" then le_ext numValue v
  else if String.eqb o "=" || String.eqb o "==" then eq_ext numValue v
  else if String.eqb o "<>" || String.eqb o "!=" then
    negb (eq_ext numValue v)
  else true.

(** [s.condition] as a truth value. *)
Definition hasCondition (s : FormatSection) : bool :=
  match condition s with Some _ => true | None => false end.

(** The loop over [conditionalSections] in [selectSection]. *)
Fixpoint firstMatching (l : list FormatSection) (numValue : number)
  : option FormatSection :=
  match l with
  | [] => None
  | section :: l' =>
      match condition section with
      | Some c =>
          if evaluateCondition c numValue then Some section
          else firstMatching l' numValue
      | None => firstMatching l' numValue
      end
  end.

Definition selectSection (ast : FormatAST) (value : Value)
  : option FormatSection :=
  let sections := Parser.sections ast in
  let len := List.length sections in
  if (len =? 1)%nat then nth_error sections 0
  else
    let conditionalSections := filter hasCondition sections in
    match (0 <? List.length conditionalSections)%nat, value with
    | true, VNumber numValue =>
        match firstMatching conditionalSections numValue with
        | Some section => Some section
        | None =>
            let nonConditionalSections :=
              filter (fun s => negb (hasCondition s)) sections in
            if (0 <? List.length nonConditionalSections)%nat
            then nth_error nonConditionalSections 0
            else None
        end
    | _, VString _ =>
        if (len =? 4)%nat then nth_error sections 3
        else nth_error sections 0
    | false, VNumber numValue =>
        if (len =? 2)%nat then
          if ltb numValue zero then nth_error sections 1
          else nth_error sections 0
        else if ((len =? 3) || (len =? 4))%nat then
          if gtb numValue zero then nth_error sections 0
          else if ltb numValue zero then nth_error sections 1
          else nth_error sections 2
        else nth_error sections 0
    end.

Definition kindIs (p : FormatPart) (k : FormatPartKind) : bool :=
  match kind p with
  | Some k' => FormatPartKind_eqb k' k
  | None => false
  end.

Definition isPlaceholder (p : FormatPart) : bool :=
  kindIs p Digit || kindIs p ZeroDigit || kindIs p SpaceDigit.

(** [arr.findIndex(p)], [-1] when no element satisfies [p]. *)
Fixpoint findIndex_from {A : Type} (p : A -> bool) (l : list A) (i : Z) : Z :=
  match l with
  | [] => (-1)%Z
  | x :: l' => if p x then i else findIndex_from p l' (i + 1)%Z
  end.

Definition findIndex {A : Type} (p : A -> bool) (l : list A) : Z :=
  findIndex_from p l 0%Z.

(** [arr.findLastIndex(p)] *)
Fixpoint findLastIndex_from {A : Type} (p : A -> bool) (l : list A) (i : Z)
  : Z :=
  match l with
  | [] => (-1)%Z
  | x :: l' =>
      let r := findLastIndex_from p l' (i + 1)%Z in
      if (0 <=? r)%Z then r else if p x then i else (-1)%Z
  end.

Definition findLastIndex {A : Type} (p : A -> bool) (l : list A) : Z :=
  findLastIndex_from p l 0%Z.

Definition formatTextSection (text : string) (section : FormatSection)
  : string :=
  fold_left
    (fun result part =>
       if kindIs part Literal
       then result ++ match Parser.char part with
                      | Some c => c
                      | None => "undefined"
                      end
       else result)
    (parts section) EmptyString.

(** *** The integer side *)

(** The variables of [formatIntegerPart] that its closures update. *)
Record IntState : Set := mkIntState {
  digitIndex : Z;
  result : list string;
  digits : nat
}.

Definition truthy (b : option bool) : bool :=
  match b with Some true => true | _ => false end.

Definition push (c : string) (st : IntState) : IntState :=
  mkIntState (digitIndex st) (result st ++ [c])%list (digits st).

Definition pushDigit (section : FormatSection) (c : string) (st : IntState)
  : IntState :=
  let st1 :=
    if truthy (thousandSeparator section)
       && (0 <? digits st)%nat && (digits st mod 3 =? 0)%nat
    then push "," st else st in
  mkIntState (digitIndex st1) (result st1 ++ [c])%list (S (digits st1)).

(** [nextInt()]: the character read and the state after [digitIndex--]. *)
Definition nextInt (integerStr : string) (st : IntState)
  : option string * IntState :=
  (Str.charAt integerStr (digitIndex st),
   mkIntState (digitIndex st - 1)%Z (result st) (digits st)).

Definition hasMoreInt (st : IntState) : bool := (0 <=? digitIndex st)%Z.

(** [while (hasMoreInt()) pushDigit(nextInt())], at most [n] turns. *)
Fixpoint flushInt (n : nat) (integerStr : string) (section : FormatSection)
    (st : IntState) : IntState :=
  match n with
  | O => st
  | S n' =>
      if hasMoreInt st then
        let (d, st1) := nextInt integerStr st in
        flushInt n' integerStr section
          (pushDigit section
             (match d with Some c => c | None => EmptyString end) st1)
      else st
  end.

(** The body of the loop of [formatIntegerPart] for the part at position
    [index] of the reversed list. *)
Definition formatIntegerPart_step (integerStr : string)
    (section : FormatSection) (lastDigitIndex : Z) (index : Z)
    (part : FormatPart) (st : IntState) : IntState :=
  if isPlaceholder part then
    let (digit, st1) := nextInt integerStr st in
    let st2 :=
      match digit with
      | None =>
          if kindIs part ZeroDigit then pushDigit section "0" st1
          else if kindIs part SpaceDigit then push " " st1
          else st1
      | Some d => pushDigit section d st1
      end in
    if (index =? lastDigitIndex)%Z
    then flushInt (Z.to_nat (digitIndex st2 + 1)) integerStr section st2
    else st2
  else if kindIs part Literal then
    push (match Parser.char part with Some c => c | None => EmptyString end) st
  else if kindIs part Percent then push "%" st
  else st.

Fixpoint formatIntegerPart_loop (integerStr : string)
    (section : FormatSection) (lastDigitIndex : Z) (index : Z)
    (reversed : list FormatPart) (st : IntState) : IntState :=
  match reversed with
  | [] => st
  | part :: l =>
      formatIntegerPart_loop integerStr section lastDigitIndex (index + 1)%Z l
        (formatIntegerPart_step integerStr section lastDigitIndex index
           part st)
  end.

(** [parts.reverse()] reverses the array in place; no caller reads the
    array again within the same call of [render], so the loop is given
    the reversed list. *)
Definition formatIntegerPart (integerStr : string) (section : FormatSection)
    (parts : list FormatPart) : string :=
  let firstDigitIndex := findIndex isPlaceholder parts in
  let lastDigitIndex :=
    if (-1 <? firstDigitIndex)%Z
    then (Z.of_nat (List.length parts) - firstDigitIndex - 1)%Z
    else (-1)%Z in
  let st :=
    formatIntegerPart_loop integerStr section lastDigitIndex 0%Z (List.rev parts)
      (mkIntState (Z.of_nat (String.length integerStr) - 1)%Z [] 0) in
  Str.join (List.rev (result st)).

(** *** The decimal side *)

Record DecState : Set := mkDecState {
  dresult : string;
  ddigitIndex : nat;
  ddigits : Z
}.

(** [next >= '5' && next <= '9'] for a one-character string. *)
Definition isFiveToNine (next : string) : bool :=
  match next with
  | String a EmptyString =>
      (53 <=? nat_of_ascii a)%nat && (nat_of_ascii a <=? 57)%nat
  | _ => false
  end.

(** [String(Number(c) + 1)] for a one-character string [c]: a digit, the
    space that pads a [?], or a character that is not numeric. *)
Definition increment (c : string) : string :=
  match c with
  | String a EmptyString =>
      if Str.isDigit a
      then JsNumber.digits (N.of_nat (nat_of_ascii a - 48 + 1))
      else if Ascii.eqb a " " then "1"
      else "NaN"
  | _ => "NaN"
  end.

Definition pushDecDigit (decimalStr : string) (lastPlaceholderIndex : Z)
    (c : string) (st : DecState) : DecState :=
  let c' :=
    if (ddigits st =? lastPlaceholderIndex)%Z then
      match Str.charAt decimalStr (ddigits st + 1)%Z with
      | Some next => if isFiveToNine next then increment c else c
      | None => c
      end
    else c in
  mkDecState (dresult st ++ c') (ddigitIndex st) (ddigits st + 1)%Z.

(** [nextDigit()]: the character read and the state after
    [digitIndex++]. *)
Definition nextDigit (decimalStr : string) (st : DecState)
  : option string * DecState :=
  (Str.charAt decimalStr (Z.of_nat (ddigitIndex st)),
   mkDecState (dresult st) (S (ddigitIndex st)) (ddigits st)).

Definition appendDec (c : string) (st : DecState) : DecState :=
  mkDecState (dresult st ++ c) (ddigitIndex st) (ddigits st).

Definition orElse (d : option string) (c : string) : string :=
  match d with Some x => x | None => c end.

Definition formatDecimalPart_step (decimalStr : string)
    (lastPlaceholderIndex : Z) (part : FormatPart) (st : DecState)
  : DecState :=
  if kindIs part ZeroDigit then
    let (d, st1) := nextDigit decimalStr st in
    pushDecDigit decimalStr lastPlaceholderIndex (orElse d "0") st1
  else if kindIs part Digit then
    let (d, st1) := nextDigit decimalStr st in
    match d with
    | Some digit => pushDecDigit decimalStr lastPlaceholderIndex digit st1
    | None => st1
    end
  else if kindIs part SpaceDigit then
    let (d, st1) := nextDigit decimalStr st in
    pushDecDigit decimalStr lastPlaceholderIndex (orElse d " ") st1
  else if kindIs part Percent then appendDec "%" st
  else if kindIs part Literal then
    appendDec (orElse (Parser.char part) "undefined") st
  else st.

Definition formatDecimalPart (decimalStr : string) (section : FormatSection)
    (parts : list FormatPart) : string :=
  let lastPlaceholderIndex := findLastIndex isPlaceholder parts in
  dresult
    (fold_left
       (fun st part =>
          formatDecimalPart_step decimalStr lastPlaceholderIndex part st)
       parts (mkDecState EmptyString 0 0%Z)).

(** *** Sections and formats *)

(** [arr.slice(0, i)] and [arr.slice(i)] for [i >= 0]. *)
Definition slice_to {A : Type} (l : list A) (i : Z) : list A :=
  firstn (Z.to_nat i) l.
Definition slice_from {A : Type} (l : list A) (i : Z) : list A :=
  skipn (Z.to_nat i) l.

(** The numeric branch of [renderSection]. *)
Definition renderNumber (section : FormatSection) (value : number) : string :=
  let isNegative := ltb value zero in
  let numValue := JsNumber.abs value in
  let numValue :=
    match percentCount section with
    | Some pc =>
        if (0 <? pc)%nat then mul_pow100 numValue pc else Finite numValue
    | None => Finite numValue
    end in
  let numStr := toString_ext numValue in
  let pieces := Str.split "." numStr in
  let integerStr := nth 0 pieces EmptyString in
  let decimalStr := nth 1 pieces EmptyString in
  let dotIndex := findIndex (fun p => kindIs p Dot) (parts section) in
  let integerParts :=
    if (-1 <? dotIndex)%Z then slice_to (parts section) dotIndex
    else parts section in
  let decimalParts :=
    if (-1 <? dotIndex)%Z then slice_from (parts section) (dotIndex + 1)
    else [] in
  let formatedInt := formatIntegerPart integerStr section integerParts in
  let formatedInt :=
    if isNegative then "-" ++ formatedInt else formatedInt in
  if (dotIndex =? -1)%Z then formatedInt
  else
    let formatedDec := formatDecimalPart decimalStr section decimalParts in
    formatedInt ++ "." ++ formatedDec.

Definition renderSection (section : FormatSection) (value : Value) : string :=
  match value with
  | VString s => formatTextSection s section
  | VNumber n => renderNumber section n
  end.

(** The part of [render] that follows the parsing of the format. *)
Definition renderAST (ast : FormatAST) (value : Value) : RenderResult :=
  match selectSection ast value with
  | None => mkResult (String_ value) None
  | Some section =>
      let rejected :=
        match condition section, value with
        | Some c, VNumber n => negb (evaluateCondition c n)
        | Some _, VString _ => true
        | None, _ => false
        end in
      if rejected then mkResult (String_ value) None
      else mkResult (renderSection section value) (Parser.color section)
  end.

Definition render (value : Value) (format : string) : RenderResult :=
  let tokens := Tokenizer.tokenize format in
  let ast := Parser.parse tokens in
  renderAST ast value.

End Renderer.

(** ** Sample inputs *)

Definition n123_456 : number := mkNumber 123456 3.
Definition n1_456 : number := mkNumber 1456 3.
Definition n1_5e21 : number := of_Z (15 * 10 ^ 20).

Definition placeholderPart (k : Parser.FormatPartKind) : Parser.FormatPart :=
  Parser.mkPart (Some k) None.
Definition literalPart (c : string) : Parser.FormatPart :=
  Parser.mkPart (Some Parser.Literal) (Some c).
Definition dotPart : Parser.FormatPart := Parser.mkPart (Some Parser.Dot) None.

(** A section with the given parts and no other field set. *)
Definition sectionOf (ps : list Parser.FormatPart) : Parser.FormatSection :=
  Parser.mkSection None None ps None None None None.

Definition n123_999 : number := mkNumber 123999 3.
Definition n1_5e_7 : number := mkNumber 15 8.
Definition n0_29 : number := mkNumber 29 2.

(** The section of the format [0%]. *)
Definition section_percent : Parser.FormatSection :=
  Parser.mkSection None None
    [placeholderPart Parser.ZeroDigit; placeholderPart Parser.Percent]
    None (Some 1) None None.

Definition ast_three_conditional : Parser.FormatAST :=
  Parser.parse (Tokenizer.tokenize "[>100][Red]0;[<0][Blue]0;0").

Definition ast_four_plain : Parser.FormatAST :=
  Parser.parse (Tokenizer.tokenize "0;00;000;txt").


(** ** Notions used in the statements *)

Module Notions.

Import Parser.

(** No part of the section is a [Dot]. *)
Definition noDot (s : FormatSection) : bool :=
  forallb (fun p => negb (Renderer.kindIs p Dot)) (parts s).

(** The number of section separators among the tokens. *)
Definition separators (tokens : list Tokenizer.Token) : nat :=
  List.length
    (filter (fun t => String.eqb (Tokenizer.type t) "SectionSeparator") tokens).

(** The token adds a part to the section in progress: a placeholder,
    a literal or a percent sign always does, a quoted text when it is
    not empty, and a comma when the token before it is a literal. *)
Definition addsPart (afterLiteral : bool) (tk : Tokenizer.Token) : bool :=
  match tk with
  | Tokenizer.Placeholder _ | Tokenizer.Literal _ | Tokenizer.Percent => true
  | Tokenizer.Quoted t =>
      match t with EmptyString => false | String _ _ => true end
  | Tokenizer.ThousandSep => afterLiteral
  | _ => false
  end.

Definition isLiteral (tk : Tokenizer.Token) : bool :=
  match tk with Tokenizer.Literal _ => true | _ => false end.

Definition isSeparator (tk : Tokenizer.Token) : bool :=
  match tk with Tokenizer.SectionSeparator => true | _ => false end.

(** One of the tokens adds a part; [afterLiteral] says whether a
    literal comes just before the first of them. *)
Fixpoint anyPart (afterLiteral : bool) (tokens : list Tokenizer.Token)
  : bool :=
  match tokens with
  | [] => false
  | tk :: rest => addsPart afterLiteral tk || anyPart (isLiteral tk) rest
  end.

(** The last of the tokens [seg] is a literal; [afterLiteral] when there
    is no token. *)
Definition lastIsLiteral (afterLiteral : bool) (seg : list Tokenizer.Token)
  : bool :=
  match List.rev seg with
  | [] => afterLiteral
  | tk :: _ => isLiteral tk
  end.

(** The list has an element. *)
Definition nonempty {A : Type} (l : list A) : bool :=
  match l with [] => false | _ :: _ => true end.

(** The tokens that follow the last section separator, after the tokens
    [seg] that are already known to follow it. *)
Fixpoint lastSegment_from (seg tokens : list Tokenizer.Token)
  : list Tokenizer.Token :=
  match tokens with
  | [] => seg
  | tk :: rest =>
      lastSegment_from (if isSeparator tk then [] else seg ++ [tk])%list rest
  end.

(** The tokens after the last section separator; all the tokens when
    there is no separator. *)
Definition lastSegment (tokens : list Tokenizer.Token)
  : list Tokenizer.Token :=
  lastSegment_from [] tokens.

(** The six operators of the type [Condition]. *)
Definition operators : list string := ["<="; ">="; "<>"; "<"; ">"; "="].

(** The operator of the condition, if any, is one of the six. *)
Definition typedCondition (s : FormatSection) : bool :=
  match condition s with
  | Some c => existsb (String.eqb (op c)) operators
  | None => true
  end.

(** What a condition says, as the specification reads it: the numeric
    comparison of [v] with the threshold that the operator names.  [v]
    is below, at or above the threshold, and each operator holds in the
    cases listed; only [<>] holds against a threshold that is not a
    number. *)
Definition holds (v : number) (c : Condition) : bool :=
  match compare_ext v (value c) with
  | Some Lt => existsb (String.eqb (op c)) ["<"; "<="; "<>"]
  | Some Eq => existsb (String.eqb (op c)) ["="; "<="; ">="]
  | Some Gt => existsb (String.eqb (op c)) [">"; ">="; "<>"]
  | None => String.eqb (op c) "<>"
  end.

(** The section has a condition, and it holds for [v]. *)
Definition conditionHolds (v : number) (s : FormatSection) : bool :=
  match condition s with
  | Some c => holds v c
  | None => false
  end.

Definition noCondition (s : FormatSection) : bool :=
  negb (Renderer.hasCondition s).

(** The two sections agree on every field but [scale]. *)
Definition sameExceptScale (s1 s2 : FormatSection) : Prop :=
  condition s1 = condition s2 /\ color s1 = color s2 /\
  parts s1 = parts s2 /\ scientific s1 = scientific s2 /\
  percentCount s1 = percentCount s2 /\
  thousandSeparator s1 = thousandSeparator s2.

(** The character [sep] does not occur in [s]. *)
Definition noChar (sep : ascii) (s : string) : bool :=
  Str.forallb (fun c => negb (Ascii.eqb c sep)) s.

(** The magnitude that [renderNumber] prints: the absolute value, scaled
    by the percent signs of the section. *)
Definition scaledMagnitude (section : FormatSection) (v : number)
  : extended :=
  match percentCount section with
  | Some pc => if (0 <? pc)%nat then mul_pow100 (JsNumber.abs v) pc
               else Finite (JsNumber.abs v)
  | None => Finite (JsNumber.abs v)
  end.

(** The text before the first point of [String(x)]: the integer digits
    that [renderNumber] hands to [formatIntegerPart]. *)
Definition integerStrOf (x : extended) : string :=
  nth 0 (Str.split "." (toString_ext x)) EmptyString.

(** [x] is zero or lies in [10^-6, 10^21), where [String(x)] is written
    without exponent. *)
Definition positional (x : number) : bool :=
  (mant x =? 0)%Z
  || ((0 <? mant x) && (mant x <? 10 ^ 21 * pow10 (decimals x))
      && (pow10 (decimals x) <=? mant x * 10 ^ 6))%Z.

(** The integer part of a non-negative number. *)
Definition truncate (x : number) : Z := (mant x / pow10 (decimals x))%Z.

(** The state of [formatIntegerPart] after [j] digits of [integerStr]
    have been read from its right end. *)
Definition readFromRight (integerStr : string) (j : nat)
    (st : Renderer.IntState) : Prop :=
  Renderer.digitIndex st
  = (Z.of_nat (String.length integerStr) - 1 - Z.of_nat j)%Z
  /\ Renderer.result st = firstn j (List.rev (chars integerStr)).

(** The plain decimal string of an integer. *)
Definition decimalString (v : Z) : string :=
  ((if (v <? 0)%Z then "-" else EmptyString)
   ++ digits (Z.to_N (Z.abs v)))%string.

(** The fraction digit number [i] of [decimalStr], or the ["0"] that a
    [0] placeholder writes when the digits are exhausted. *)
Definition fractionDigit (decimalStr : string) (i : nat) : string :=
  Renderer.orElse (Str.charAt decimalStr (Z.of_nat i)) "0".

(** The first [k] fraction digits, padded with zeros. *)
Definition zeroPadded (decimalStr : string) (k : nat) : string :=
  Str.join (map (fractionDigit decimalStr) (seq 0 k)).

(** The digit number [k], incremented when the digit after it is one of
    5 to 9. *)
Definition roundedDigit (decimalStr : string) (k : nat) : string :=
  match Str.charAt decimalStr (Z.of_nat k + 1)%Z with
  | Some next =>
      if Renderer.isFiveToNine next
      then Renderer.increment (fractionDigit decimalStr k)
      else fractionDigit decimalStr k
  | None => fractionDigit decimalStr k
  end.







(** The state of [formatDecimalPart] before the placeholder number [j]:
    [j] digits read and [j] digits written. *)
Definition atDigit (j : nat) (st : Renderer.DecState) : Prop :=
  Renderer.ddigitIndex st = j /\ Renderer.ddigits st = Z.of_nat j.

(** The part that the parser makes of a ['0']. *)
Definition zeroPart : FormatPart := mkPart (Some ZeroDigit) None.

(** The part that the parser makes of a ['#']. *)
Definition digitPart : FormatPart := mkPart (Some Digit) None.

End Notions.

(** ** Further notions *)

Module MoreNotions.

Import Parser.

(** [parse(v)], the function that [parser.ts] exports. *)
Definition parseFormat (v : string) : FormatAST :=
  parse (Tokenizer.tokenize v).

(** The characters that the tokenizer never leaves as a plain literal. *)
Definition reservedChars : list ascii :=
  [";"%char; Str.dquote; Str.backslash; "*"%char; "_"%char; "["%char;
   "0"%char; "#"%char; "?"%char; "."%char; ","%char; "%"%char; "@"%char;
   "y"%char; "m"%char; "d"%char; "h"%char; "s"%char].

(** What a token of the tokenizer looks like: a placeholder is one of
    [0 # ?], a literal is one character that is not reserved, a color is
    one of the eight names, the operator of a condition one of the six,
    the sign of a scientific marker [+] or [-], a date token one of the
    patterns. *)
Definition wellFormedToken (tk : Tokenizer.Token) : bool :=
  match tk with
  | Tokenizer.Placeholder c => existsb (String.eqb c) ["0"; "#"; "?"]
  | Tokenizer.Literal c =>
      match c with
      | String a EmptyString => negb (existsb (Ascii.eqb a) reservedChars)
      | _ => false
      end
  | Tokenizer.Color n => existsb (String.eqb n) Tokenizer.colors
  | Tokenizer.Condition o _ => existsb (String.eqb o) Tokenizer.condOps
  | Tokenizer.ScientificSymbol sg =>
      match sg with
      | Some c => String.eqb c "+" || String.eqb c "-"
      | None => false
      end
  | Tokenizer.DateToken p => existsb (String.eqb p) Tokenizer.patterns
  | _ => true
  end.

(** A text with its quotes doubled, and the same between quotes. *)
Fixpoint doubleQuotes (t : string) : string :=
  match t with
  | EmptyString => EmptyString
  | String c t' =>
      if Ascii.eqb c Str.dquote
      then String Str.dquote (String Str.dquote (doubleQuotes t'))
      else String c (doubleQuotes t')
  end.

Definition quoted (t : string) : string :=
  String Str.dquote (doubleQuotes t ++ Str.chr Str.dquote).

(** The input does not go on with a quote. *)
Definition noQuoteAhead (rest : string) : bool :=
  match rest with
  | String c _ => negb (Ascii.eqb c Str.dquote)
  | EmptyString => true
  end.

(** The number of parts of kind [k]. *)
Definition countKind (k : FormatPartKind) (ps : list FormatPart) : nat :=
  List.length (filter (fun p => Renderer.kindIs p k) ps).

(** [percentCount] is the number of [Percent] parts, and is absent when
    there is none. *)
Definition percentCounted (s : FormatSection) : Prop :=
  percentCount s
  = match countKind Percent (parts s) with
    | O => None
    | S n => Some (S n)
    end.

(** A literal part carries one character; any other part has a kind and
    carries none. *)
Definition wellFormedPart (p : FormatPart) : bool :=
  match kind p, char p with
  | Some Literal, Some (String _ EmptyString) => true
  | Some Literal, _ => false
  | Some _, None => true
  | _, _ => false
  end.

Definition wellFormedParts (s : FormatSection) : bool :=
  forallb wellFormedPart (parts s).

(** The color of the section, if any, is one of the eight names. *)
Definition knownColor (c : option string) : bool :=
  match c with
  | Some n => existsb (String.eqb n) Tokenizer.colors
  | None => true
  end.

(** The operator of the condition, if any, is one of the six. *)
Definition knownOperator (s : FormatSection) : bool :=
  match condition s with
  | Some c => existsb (String.eqb (op c)) Tokenizer.condOps
  | None => true
  end.

(** What [pushDigit] writes for the digit number [j] from the right: a
    comma first when grouping is on and [j] is a positive multiple of 3. *)
Definition emit (grouping : bool) (j : nat) (c : string) : list string :=
  ((if grouping && (0 <? j)%nat && (j mod 3 =? 0)%nat then [","] else [])
   ++ [c])%list.

(** The digits [l], given from the right and numbered from [j], with the
    commas of the grouping. *)
Fixpoint grouped (grouping : bool) (j : nat) (l : list string) : list string :=
  match l with
  | [] => []
  | c :: l' => (emit grouping j c ++ grouped grouping (S j) l')%list
  end.

(** The digits of [integerStr] from the right, then [pad] zeros. *)
Definition paddedFromRight (integerStr : string) (pad : nat) : list string :=
  (List.rev (chars integerStr) ++ List.repeat "0" pad)%list.

(** The state of [formatIntegerPart] after [j] digits, of the string or
    of the padding, have been written. *)
Definition afterDigits (integerStr : string) (grouping : bool) (pad j : nat)
    (st : Renderer.IntState) : Prop :=
  Renderer.digitIndex st
  = (Z.of_nat (String.length integerStr) - 1 - Z.of_nat j)%Z
  /\ Renderer.digits st = j
  /\ Renderer.result st
     = grouped grouping 0 (firstn j (paddedFromRight integerStr pad)).

(** What a part that is not a placeholder adds to the integer side: the
    character of a literal, the sign of a percent, nothing otherwise. *)
Definition partText (part : FormatPart) : list string :=
  if Renderer.kindIs part Literal
  then [match char part with Some c => c | None => EmptyString end]
  else if Renderer.kindIs part Percent then ["%"]
  else [].

(** The literal characters of the parts, as [formatTextSection] writes
    them. *)
Definition literalText (part : FormatPart) : string :=
  if Renderer.kindIs part Literal
  then match char part with Some c => c | None => "undefined" end
  else EmptyString.

Definition noPlaceholder (parts : list FormatPart) : bool :=
  forallb (fun part => negb (Renderer.isPlaceholder part)) parts.

(** The tokens that can add no part to a section. *)
Definition partless (tk : Tokenizer.Token) : bool :=
  match tk with
  | Tokenizer.SectionSeparator | Tokenizer.Percent | Tokenizer.Literal _
  | Tokenizer.Quoted _ | Tokenizer.Placeholder _ => false
  | _ => true
  end.

Definition partlessBefore (prevTk : option Tokenizer.Token) : bool :=
  match prevTk with
  | Some tk => partless tk
  | None => true
  end.

(** The state of [formatIntegerPart] with [before] written first. *)
Definition prepend (before : list string) (st : Renderer.IntState)
  : Renderer.IntState :=
  Renderer.mkIntState (Renderer.digitIndex st)
                      (before ++ Renderer.result st)%list
                      (Renderer.digits st).

(** The opposite of a number. *)
Definition negate (v : number) : number := mkNumber (- mant v) (decimals v).

(** In the list, a pattern never comes before a longer pattern that it
    starts. *)
Fixpoint longestFirst (ps : list string) : bool :=
  match ps with
  | [] => true
  | p :: ps' =>
      forallb (fun q => (String.length q <=? String.length p)%nat
                        || negb (String.prefix p q)) ps'
      && longestFirst ps'
  end.

End MoreNotions.

(** * Properties *)

(** ** The tokenizer terminates *)

Module TokenizerFacts.

Import Tokenizer.

Lemma drop_length (n : nat) (s : string) :
  String.length (Str.drop n s) = String.length s - n.
Proof.
  revert s; induction n as [|n IH]; intros [|c s]; simpl; auto.
Qed.

Lemma readQuoted_loop_length (rest : string) :
  forall text, String.length (snd (readQuoted_loop rest text))
               <= String.length rest.
Proof.
  remember (String.length rest) as n eqn:Hn.
  revert rest Hn; induction n as [n IH] using lt_wf_ind; intros rest Hn text.
  destruct rest as [|ch r]; simpl in *; [lia|].
  destruct (Ascii.eqb ch Str.dquote).
  - destruct r as [|ch2 r2]; simpl in *; [lia|].
    destruct (Ascii.eqb ch2 Str.dquote); simpl in *; [|lia].
    specialize (IH (String.length r2) ltac:(lia) r2 eq_refl
                  (text ++ Str.chr Str.dquote)).
    lia.
  - specialize (IH (String.length r) ltac:(lia) r eq_refl (text ++ Str.chr ch)).
    lia.
Qed.

Lemma readBracket_loop_length (rest : string) :
  forall content, String.length (snd (readBracket_loop rest content))
                  <= String.length rest.
Proof.
  induction rest as [|ch r IH]; intros content; simpl; [lia|].
  destruct (Ascii.eqb ch "]"); simpl; [lia|].
  specialize (IH (content ++ Str.chr ch)); lia.
Qed.

Lemma readBracket_length (ch : ascii) (r : string) :
  String.length (snd (readBracket (String ch r))) <= String.length r.
Proof.
  unfold readBracket. cbn [Str.drop].
  pose proof (readBracket_loop_length r EmptyString) as H.
  destruct (readBracket_loop r EmptyString) as [content r0]. cbn [snd] in H.
  assert (String.length (Str.drop 1 r0) <= String.length r)
    by (rewrite drop_length; lia).
  destruct (condMatch condOps content) as [[o num]|]; [exact H0|].
  destruct (existsb (String.eqb content) colors); exact H0.
Qed.

Lemma nextOrEmpty_length (rest : string) :
  String.length (snd (nextOrEmpty rest)) <= String.length rest.
Proof. destruct rest; simpl; lia. Qed.

Lemma tryDateToken_loop_length (ps : list string) (rest : string) tk rest' :
  Forall (fun p => 1 <= String.length p) ps ->
  tryDateToken_loop ps rest = Some (tk, rest') ->
  String.length rest' < String.length rest \/ rest = EmptyString.
Proof.
  induction 1 as [|p ps Hp _ IH]; simpl; [discriminate|].
  destruct (String.prefix p rest) eqn:Hpre; [|exact IH].
  intros [= _ <-]. rewrite drop_length.
  destruct rest; [now right|left; cbn [String.length]; lia].
Qed.

Lemma patterns_nonempty : Forall (fun p => 1 <= String.length p) patterns.
Proof. repeat constructor. Qed.

(** Every turn of the loop consumes at least one character. *)
Lemma tokenize_step_length (ch : ascii) (r : string) :
  String.length (snd (tokenize_step ch r)) <= String.length r.
Proof.
  unfold tokenize_step.
  repeat match goal with
         | |- context [if ?b then _ else _] =>
             lazymatch b with
             | Ascii.eqb _ _ => destruct b
             | (_ || _)%bool => destruct b
             end
         end; simpl; try lia.
  - unfold readQuoted; simpl.
    pose proof (readQuoted_loop_length r EmptyString) as H.
    destruct (readQuoted_loop r EmptyString); simpl in *; lia.
  - unfold readEscape; destruct r; simpl; lia.
  - unfold readFill; destruct r; simpl; lia.
  - unfold readSpace; destruct r; simpl; lia.
  - apply readBracket_length.
  - destruct r as [|sg r0]; simpl; [lia|].
    destruct ((Ascii.eqb ch "E" || Ascii.eqb ch "e")
              && (Ascii.eqb sg "+" || Ascii.eqb sg "-"))%bool; simpl; lia.
  - destruct r as [|sg r0]; simpl.
    + destruct (tryDateToken (String ch EmptyString)) as [[tk r']|] eqn:Hd;
        simpl; [|lia].
      apply tryDateToken_loop_length in Hd; [|exact patterns_nonempty].
      destruct Hd as [Hd|Hd]; [simpl in Hd; lia|discriminate].
    + destruct ((Ascii.eqb ch "E" || Ascii.eqb ch "e")
                && (Ascii.eqb sg "+" || Ascii.eqb sg "-"))%bool; simpl; [lia|].
      destruct (tryDateToken (String ch (String sg r0))) as [[tk r']|] eqn:Hd;
        simpl; [|lia].
      apply tryDateToken_loop_length in Hd; [|exact patterns_nonempty].
      destruct Hd as [Hd|Hd]; [simpl in Hd; lia|discriminate].
  - destruct (tryDateToken (String ch r)) as [[tk r']|] eqn:Hd; simpl; [|lia].
    apply tryDateToken_loop_length in Hd; [|exact patterns_nonempty].
    destruct Hd as [Hd|Hd]; [simpl in Hd; lia|discriminate].
Qed.

(** [format.length] turns are enough: the bound of [tokenize_loop] is
    never reached. *)
Lemma tokenize_loop_total (fuel : nat) (rest : string) :
  String.length rest <= fuel ->
  exists tokens, tokenize_loop fuel rest = Some tokens.
Proof.
  revert rest; induction fuel as [|fuel IH]; intros [|ch r] Hlen.
  - exists []; reflexivity.
  - simpl in Hlen; lia.
  - exists []; reflexivity.
  - simpl in Hlen. cbn [tokenize_loop].
    pose proof (tokenize_step_length ch r) as Hstep.
    destruct (tokenize_step ch r) as [tk rest']; cbn [snd] in Hstep.
    destruct (IH rest' ltac:(lia)) as [tokens ->].
    exists (tk :: tokens); reflexivity.
Qed.

Lemma tokenize_spec (format : string) :
  tokenize_loop (String.length format) format = Some (tokenize format).
Proof.
  unfold tokenize.
  destruct (tokenize_loop_total (String.length format) format (le_n _))
    as [tokens ->].
  reflexivity.
Qed.

End TokenizerFacts.

(** ** The parser *)

Module ParserFacts.

Import Parser Notions.

Lemma placeholderKind_not_Dot (c : option string) :
  Renderer.kindIs (mkPart (placeholderKind c) None) Dot = false.
Proof.
  destruct c as [c|]; [|reflexivity]. unfold placeholderKind.
  repeat match goal with
         | |- context [String.eqb ?a ?b] => destruct (String.eqb a b)
         end; reflexivity.
Qed.

Lemma noDot_push (s : FormatSection) (ps : list FormatPart) :
  noDot s = true ->
  forallb (fun p => negb (Renderer.kindIs p Dot)) ps = true ->
  noDot (push_parts s ps) = true.
Proof.
  unfold noDot, push_parts; cbn [parts]. intros H1 H2.
  now rewrite forallb_app, H1, H2.
Qed.

Lemma literals_not_Dot (cs : list string) :
  forallb (fun p => negb (Renderer.kindIs p Dot))
          (map (fun c => mkPart (Some Literal) (Some c)) cs) = true.
Proof. induction cs; simpl; auto. Qed.

(** One turn of the loop of [parse] adds no [Dot] part, whatever the
    token: no token has the type ["Dot"] that the parser waits for. *)
Lemma parse_token_noDot prevTk tk after sections section :
  forallb noDot sections = true ->
  noDot section = true ->
  forallb noDot (fst (parse_token prevTk tk after (sections, section))) = true
  /\ noDot (snd (parse_token prevTk tk after (sections, section))) = true.
Proof.
  intros Hs Hc.
  assert (Hpush : forallb noDot (sections ++ [section]) = true).
  { rewrite forallb_app, Hs; simpl; now rewrite Hc. }
  destruct tk; cbn -[noDot push_parts placeholderKind]; auto.
  - (* ThousandSep *)
    destruct (hasType prevTk "Placeholder").
    + destruct (hasType (hd_error after) "Placeholder"); cbn -[noDot]; auto.
      destruct (negb _); cbn -[noDot]; auto.
    + destruct (hasType prevTk "Literal"); cbn -[noDot push_parts]; auto.
      split; auto. now apply noDot_push.
  - (* Percent *)
    split; auto. now apply noDot_push.
  - (* Placeholder *)
    split; auto. apply noDot_push; auto.
    cbn [forallb]. now rewrite placeholderKind_not_Dot.
  - (* Literal *)
    split; auto. now apply noDot_push.
  - (* Quoted *)
    split; auto. apply noDot_push; auto. apply literals_not_Dot.
Qed.

Lemma parse_loop_noDot tokens :
  forall prevTk sections section,
    forallb noDot sections = true ->
    noDot section = true ->
    forallb noDot (fst (parse_loop prevTk tokens (sections, section))) = true
    /\ noDot (snd (parse_loop prevTk tokens (sections, section))) = true.
Proof.
  induction tokens as [|tk after IH]; intros prevTk sections section Hs Hc.
  - now split.
  - cbn [parse_loop].
    destruct (parse_token_noDot prevTk tk after sections section Hs Hc)
      as [H1 H2].
    destruct (parse_token prevTk tk after (sections, section)) as [ss s].
    now apply IH.
Qed.

(** One turn of the loop pushes a section exactly on a separator. *)
Lemma parse_token_length prevTk tk after sections section :
  List.length (fst (parse_token prevTk tk after (sections, section)))
  = List.length sections + separators [tk].
Proof.
  destruct tk; cbn; try lia.
  - rewrite length_app; simpl; lia.
  - destruct (hasType prevTk "Placeholder").
    + destruct (hasType (hd_error after) "Placeholder"); cbn; try lia.
      destruct (negb _); cbn; lia.
    + destruct (hasType prevTk "Literal"); cbn; lia.
Qed.

Lemma separators_cons tk tokens :
  separators (tk :: tokens) = separators [tk] + separators tokens.
Proof.
  unfold separators; simpl.
  destruct (String.eqb (Tokenizer.type tk) "SectionSeparator"); reflexivity.
Qed.

Lemma parse_loop_length tokens :
  forall prevTk sections section,
    List.length (fst (parse_loop prevTk tokens (sections, section)))
    = List.length sections + separators tokens.
Proof.
  induction tokens as [|tk after IH]; intros prevTk sections section.
  - cbn. unfold separators; simpl; lia.
  - cbn [parse_loop]. rewrite separators_cons.
    pose proof (parse_token_length prevTk tk after sections section) as H.
    destruct (parse_token prevTk tk after (sections, section)) as [ss s].
    rewrite IH. cbn [fst] in H. lia.
Qed.

(** *** The last section *)

Lemma nonempty_app {A : Type} (l1 l2 : list A) :
  nonempty (l1 ++ l2) = nonempty l1 || nonempty l2.
Proof. destruct l1; [reflexivity|reflexivity]. Qed.

Lemma lastIsLiteral_cons a tk seg :
  lastIsLiteral a (tk :: seg) = lastIsLiteral (isLiteral tk) seg.
Proof.
  unfold lastIsLiteral. cbn [List.rev].
  destruct (List.rev seg) as [|x l]; reflexivity.
Qed.

Lemma anyPart_snoc seg :
  forall a tk,
    anyPart a (seg ++ [tk])
    = anyPart a seg || addsPart (lastIsLiteral a seg) tk.
Proof.
  induction seg as [|x seg IH]; intros a tk.
  - cbn. now rewrite orb_false_r.
  - cbn [app anyPart]. rewrite IH, lastIsLiteral_cons. now rewrite orb_assoc.
Qed.

Lemma lastIsLiteral_snoc a seg tk :
  lastIsLiteral a (seg ++ [tk]) = isLiteral tk.
Proof. unfold lastIsLiteral. now rewrite rev_app_distr. Qed.

(** A token that is no separator keeps the parts of the section and
    adds some exactly when [addsPart] says so. *)
Lemma parse_token_adds prevTk tk after sections section :
  isSeparator tk = false ->
  nonempty (parts (snd (parse_token prevTk tk after (sections, section))))
  = nonempty (parts section) || addsPart (hasType prevTk "Literal") tk.
Proof.
  intros Hsep.
  destruct tk; try discriminate Hsep;
    cbn -[push_parts placeholderKind];
    rewrite ?orb_false_r; try reflexivity;
    try (cbn [push_parts parts]; rewrite nonempty_app; reflexivity).
  - (* ThousandSep *)
    destruct prevTk as [[]|]; cbn; rewrite ?orb_false_r; try reflexivity.
    + destruct (hasType (hd_error after) "Placeholder"); cbn; [reflexivity|].
      destruct (negb _); reflexivity.
    + now rewrite nonempty_app.
  - (* Quoted *)
    cbn [push_parts parts]. rewrite nonempty_app.
    destruct text; reflexivity.
Qed.

Lemma parse_token_separator prevTk tk after sections section :
  isSeparator tk = true ->
  parts (snd (parse_token prevTk tk after (sections, section))) = [].
Proof. destruct tk; try discriminate; reflexivity. Qed.

Lemma hasType_Literal (tk : Tokenizer.Token) :
  hasType (Some tk) "Literal" = isLiteral tk.
Proof. destruct tk; reflexivity. Qed.

(** After the loop the section in progress has parts exactly when a
    token after the last separator adds one. *)
Lemma parse_loop_last tokens :
  forall prevTk sections section seg,
    lastIsLiteral false seg = hasType prevTk "Literal" ->
    nonempty (parts section) = anyPart false seg ->
    nonempty (parts (snd (parse_loop prevTk tokens (sections, section))))
    = anyPart false (lastSegment_from seg tokens).
Proof.
  induction tokens as [|tk after IH]; intros prevTk sections section seg Hl Hp.
  - exact Hp.
  - cbn [parse_loop lastSegment_from].
    destruct (isSeparator tk) eqn:Hsep.
    + pose proof (parse_token_separator prevTk tk after sections section Hsep)
        as H.
      destruct (parse_token prevTk tk after (sections, section)) as [ss s].
      cbn [snd] in H. apply IH.
      * rewrite hasType_Literal. now destruct tk.
      * now rewrite H.
    + pose proof (parse_token_adds prevTk tk after sections section Hsep) as H.
      destruct (parse_token prevTk tk after (sections, section)) as [ss s].
      cbn [snd] in H. apply IH.
      * now rewrite lastIsLiteral_snoc, hasType_Literal.
      * now rewrite H, anyPart_snoc, Hp, Hl.
Qed.

End ParserFacts.

(** ** Section selection *)

Module SelectFacts.

Import Parser Renderer Notions.

(** For the six operators [evaluateCondition] computes what the
    condition says. *)
Lemma evaluateCondition_holds (c : Condition) (v : number) :
  existsb (String.eqb (op c)) operators = true ->
  evaluateCondition c v = holds v c.
Proof.
  destruct c as [o t]. cbn [op]. unfold operators. cbn [existsb]. intros H.
  repeat (apply orb_prop in H as [H|H]); try discriminate H;
    apply String.eqb_eq in H; subst o;
    unfold evaluateCondition, holds, gt_ext, ge_ext, lt_ext, le_ext, eq_ext;
    cbn [op value]; destruct (compare_ext v t) as [[| |]|]; reflexivity.
Qed.

Lemma firstMatching_filter (l : list FormatSection) (v : number) :
  Forall (fun s => typedCondition s = true) l ->
  firstMatching (filter hasCondition l) v = find (conditionHolds v) l.
Proof.
  induction 1 as [|s l Hs _ IH]; [reflexivity|].
  unfold hasCondition, conditionHolds, typedCondition in *.
  cbn [filter find].
  destruct (condition s) as [c|] eqn:Hc; cbn [firstMatching]; rewrite ?Hc.
  - rewrite (evaluateCondition_holds c v Hs).
    destruct (holds v c); auto.
  - exact IH.
Qed.

Lemma head_filter {A : Type} (p : A -> bool) (l : list A) :
  (if (0 <? List.length (filter p l))%nat then nth_error (filter p l) 0
   else None) = find p l.
Proof.
  induction l as [|x l IH]; [reflexivity|].
  cbn [filter find]. destruct (p x); [reflexivity|exact IH].
Qed.

Lemma filter_nonempty {A : Type} (p : A -> bool) (l : list A) :
  (0 <? List.length (filter p l))%nat = existsb p l.
Proof.
  induction l as [|x l IH]; [reflexivity|].
  cbn [filter existsb]. destruct (p x); [reflexivity|exact IH].
Qed.

(** Selection commutes with a change of the sections that keeps their
    conditions. *)
Section Map.

Variable f : FormatSection -> FormatSection.
Hypothesis f_condition : forall s, condition (f s) = condition s.

Lemma hasCondition_map s : hasCondition (f s) = hasCondition s.
Proof. unfold hasCondition. now rewrite f_condition. Qed.

Lemma filter_map_hasCondition l :
  filter hasCondition (map f l) = map f (filter hasCondition l).
Proof.
  induction l as [|s l IH]; [reflexivity|].
  cbn [map filter]. rewrite hasCondition_map.
  destruct (hasCondition s); cbn [map]; now rewrite IH.
Qed.

Lemma filter_map_noCondition l :
  filter (fun s => negb (hasCondition s)) (map f l)
  = map f (filter (fun s => negb (hasCondition s)) l).
Proof.
  induction l as [|s l IH]; [reflexivity|].
  cbn [map filter]. rewrite hasCondition_map.
  destruct (hasCondition s); cbn [map negb]; now rewrite IH.
Qed.

Lemma firstMatching_map l v :
  firstMatching (map f l) v = option_map f (firstMatching l v).
Proof.
  induction l as [|s l IH]; [reflexivity|].
  cbn [map firstMatching]. rewrite f_condition.
  destruct (condition s) as [c|]; [|exact IH].
  destruct (evaluateCondition c v); [reflexivity|exact IH].
Qed.

Lemma selectSection_map ast value :
  selectSection (mkAST (map f (sections ast))) value
  = option_map f (selectSection ast value).
Proof.
  unfold selectSection. cbn [sections].
  rewrite filter_map_hasCondition, filter_map_noCondition, !length_map.
  rewrite !nth_error_map.
  destruct (List.length (sections ast) =? 1)%nat; [reflexivity|].
  destruct (0 <? List.length (filter hasCondition (sections ast)))%nat,
    value as [str|numValue]; rewrite ?firstMatching_map.
  all: repeat match goal with
         | |- context [if ?b then _ else _] => destruct b
         | |- context [match firstMatching ?l ?v with _ => _ end] =>
             destruct (firstMatching l v)
         end; reflexivity.
Qed.

End Map.

End SelectFacts.

(** ** Strings and digits *)

Module StrFacts.

Import Parser Notions.

Lemma append_empty_r (s : string) : s ++ EmptyString = s.
Proof. induction s; simpl; congruence. Qed.

Lemma append_assoc (a b c : string) : (a ++ b) ++ c = a ++ (b ++ c).
Proof. induction a; simpl; congruence. Qed.

Lemma forallb_append (p : ascii -> bool) (a b : string) :
  Str.forallb p (a ++ b) = Str.forallb p a && Str.forallb p b.
Proof.
  induction a as [|c a IH]; simpl; [reflexivity|].
  now rewrite IH, andb_assoc.
Qed.

(** A string without separator is the only piece of its split; with one
    separator, the text before it is the first piece. *)
Lemma split_acc_noChar (sep : ascii) (s : string) :
  forall cur, noChar sep s = true -> Str.split_acc sep cur s = [cur ++ s].
Proof.
  induction s as [|c s IH]; intros cur H; simpl in *.
  - now rewrite append_empty_r.
  - apply andb_prop in H as [Hc Hs].
    destruct (Ascii.eqb c sep); [discriminate|].
    rewrite IH by exact Hs. now rewrite append_assoc.
Qed.

Lemma split_acc_first (sep : ascii) (a b : string) :
  forall cur, noChar sep a = true ->
  Str.split_acc sep cur (a ++ String sep b)
  = (cur ++ a) :: Str.split_acc sep EmptyString b.
Proof.
  induction a as [|c a IH]; intros cur H; simpl in *.
  - now rewrite Ascii.eqb_refl, append_empty_r.
  - apply andb_prop in H as [Hc Hs].
    destruct (Ascii.eqb c sep); [discriminate|].
    rewrite IH by exact Hs. now rewrite append_assoc.
Qed.

Lemma split_noChar (sep : ascii) (s : string) :
  noChar sep s = true -> Str.split sep s = [s].
Proof. intros H. unfold Str.split. now rewrite split_acc_noChar. Qed.

(** The digits of a number are digits. *)
Lemma string_of_uint_digits (d : Decimal.uint) :
  Str.forallb Str.isDigit (NilEmpty.string_of_uint d) = true.
Proof. induction d; simpl; auto. Qed.

Lemma digits_isDigit (n : N) : Str.forallb Str.isDigit (digits n) = true.
Proof.
  unfold digits, NilZero.string_of_uint.
  destruct (N.to_uint n); try reflexivity;
    apply (string_of_uint_digits (_ _)).
Qed.

Lemma forallb_impl (p q : ascii -> bool) (s : string) :
  (forall c, p c = true -> q c = true) ->
  Str.forallb p s = true -> Str.forallb q s = true.
Proof.
  intros Hpq. induction s as [|c s IH]; simpl; [easy|].
  intros H. apply andb_prop in H as [Hc Hs].
  now rewrite (Hpq _ Hc), IH.
Qed.

Lemma isDigit_not_dot (c : ascii) :
  Str.isDigit c = true -> negb (Ascii.eqb c ".") = true.
Proof.
  destruct (Ascii.eqb c ".") eqn:E; [|easy].
  apply Ascii.eqb_eq in E; subst c. discriminate.
Qed.

Lemma digits_noDot (n : N) : noChar "." (digits n) = true.
Proof.
  apply forallb_impl with (p := Str.isDigit);
    [exact isDigit_not_dot|apply digits_isDigit].
Qed.

(** Characters of a string, and their concatenation. *)
Lemma join_chars (s : string) : Str.join (chars s) = s.
Proof.
  unfold Str.join.
  induction s as [|c s IH]; [reflexivity|].
  cbn [chars]. destruct s as [|c' s'].
  - reflexivity.
  - cbn [chars] in *. cbn [String.concat] in *. rewrite IH. reflexivity.
Qed.

Lemma length_chars (s : string) : List.length (chars s) = String.length s.
Proof. induction s; simpl; congruence. Qed.

Lemma get_chars (s : string) :
  forall n, option_map Str.chr (String.get n s) = nth_error (chars s) n.
Proof.
  induction s as [|c s IH]; intros [|n]; simpl; auto.
Qed.

(** Reading a string from its right end: [s[s.length - 1 - j]] is the
    character number [j] of the reversed string. *)
Lemma charAt_from_right (s : string) (j : nat) :
  Str.charAt s (Z.of_nat (String.length s) - 1 - Z.of_nat j)
  = nth_error (List.rev (chars s)) j.
Proof.
  unfold Str.charAt. rewrite nth_error_rev, length_chars.
  destruct (Nat.ltb_spec j (String.length s)) as [Hlt|Hge].
  - destruct (Z.ltb_spec (Z.of_nat (String.length s) - 1 - Z.of_nat j) 0);
      [lia|].
    rewrite get_chars. f_equal. lia.
  - destruct (Z.ltb_spec (Z.of_nat (String.length s) - 1 - Z.of_nat j) 0);
      [reflexivity|lia].
Qed.

Lemma firstn_succ {A : Type} (l : list A) (i : nat) :
  firstn (S i) l
  = (firstn i l ++ match nth_error l i with Some d => [d] | None => [] end)%list.
Proof.
  revert i; induction l as [|x l IH]; intros [|i]; simpl; auto.
  now rewrite <- IH.
Qed.

End StrFacts.

(** ** The integer side *)

Module IntegerFacts.

Import Parser Renderer Notions StrFacts.

Section Loop.

Variable integerStr : string.
Variable section : FormatSection.
Hypothesis no_grouping : truthy (thousandSeparator section) = false.

Let R : list string := List.rev (chars integerStr).

Lemma pushDigit_result (c : string) (st : IntState) :
  result (pushDigit section c st) = (result st ++ [c])%list
  /\ digitIndex (pushDigit section c st) = digitIndex st.
Proof. unfold pushDigit. rewrite no_grouping. now split. Qed.

Lemma length_R : List.length R = String.length integerStr.
Proof. unfold R. now rewrite length_rev, length_chars. Qed.

(** A [#] reads the next digit, or emits nothing when none is left. *)
Lemma digit_step (lastDigitIndex index : Z) (j : nat) (st : IntState) :
  readFromRight integerStr j st ->
  index <> lastDigitIndex ->
  readFromRight integerStr (S j)
    (formatIntegerPart_step integerStr section lastDigitIndex index
       digitPart st).
Proof.
  intros [Hi Hr] Hneq. unfold formatIntegerPart_step, nextInt.
  cbn [isPlaceholder kindIs digitPart kind FormatPartKind_eqb orb].
  destruct (Z.eqb_spec index lastDigitIndex) as [|_]; [contradiction|].
  rewrite Hi, charAt_from_right.
  unfold readFromRight. rewrite firstn_succ.
  destruct (nth_error (List.rev (chars integerStr)) j) as [d|].
  - match goal with
    | |- context [pushDigit section d ?s] =>
        destruct (pushDigit_result d s) as [-> ->]
    end.
    cbn [result digitIndex]. rewrite Hr. split; [lia|easy].
  - cbn [result digitIndex]. rewrite Hr, app_nil_r. split; [lia|easy].
Qed.

(** The flush reads every digit that is left. *)
Lemma flushInt_all (n : nat) :
  forall (j : nat) (st : IntState),
    readFromRight integerStr j st ->
    n = Z.to_nat (digitIndex st + 1) ->
    result (flushInt n integerStr section st) = R.
Proof.
  induction n as [|n IH]; intros j st [Hi Hr] Hn; cbn [flushInt].
  - rewrite Hr. apply firstn_all2. fold R. rewrite length_R. lia.
  - unfold hasMoreInt, nextInt.
    destruct (Z.leb_spec 0 (digitIndex st)) as [_|]; [|lia].
    assert (Hj : j < List.length R) by (rewrite length_R; lia).
    rewrite Hi, charAt_from_right. fold R.
    destruct (nth_error R j) as [d|] eqn:Hd;
      [|apply nth_error_None in Hd; lia].
    match goal with
    | |- context [pushDigit section d ?s] =>
        destruct (pushDigit_result d s) as [E1 E2]
    end.
    apply (IH (S j)).
    + unfold readFromRight. rewrite E1, E2. cbn [result digitIndex].
      fold R. rewrite firstn_succ, Hd, Hr. split; [lia|easy].
    + rewrite E2. cbn [digitIndex]. lia.
Qed.

(** At the last placeholder the digit is read and the rest is flushed. *)
Lemma digit_last_step (index : Z) (j : nat) (st : IntState) :
  readFromRight integerStr j st ->
  result (formatIntegerPart_step integerStr section index index digitPart st)
  = R.
Proof.
  intros Hst.
  pose proof (digit_step (index + 1) index j st Hst ltac:(lia)) as Hnext.
  unfold formatIntegerPart_step in *.
  cbn [isPlaceholder kindIs digitPart kind FormatPartKind_eqb orb] in *.
  destruct (nextInt integerStr st) as [digit st1].
  destruct (Z.eqb_spec index (index + 1)) as [|_]; [lia|].
  rewrite Z.eqb_refl.
  eapply flushInt_all; [exact Hnext|reflexivity].
Qed.

(** A run of [k] parts [#], the last of which is the last placeholder. *)
Lemma digits_loop (k : nat) :
  forall (index : Z) (j : nat) (st : IntState),
    readFromRight integerStr j st ->
    result (formatIntegerPart_loop integerStr section
              (index + Z.of_nat k)%Z index (List.repeat digitPart (S k)) st)
    = R.
Proof.
  induction k as [|k IH]; intros index j st Hst.
  - cbn [List.repeat formatIntegerPart_loop]. rewrite Z.add_0_r.
    now apply digit_last_step with (j := j).
  - change (List.repeat digitPart (S (S k)))
      with (digitPart :: List.repeat digitPart (S k)).
    cbn [formatIntegerPart_loop].
    replace (index + Z.of_nat (S k))%Z with (index + 1 + Z.of_nat k)%Z by lia.
    apply (IH _ (S j)). apply digit_step; [exact Hst|lia].
Qed.

(** A format of [#] only prints the integer digits as they are. *)
Lemma formatIntegerPart_digits (k : nat) :
  formatIntegerPart integerStr section (List.repeat digitPart (S k))
  = integerStr.
Proof.
  unfold formatIntegerPart. rewrite rev_repeat, repeat_length.
  change (findIndex isPlaceholder (List.repeat digitPart (S k))) with 0%Z.
  cbn [Z.ltb Z.compare].
  replace (Z.of_nat (S k) - 0 - 1)%Z with (0 + Z.of_nat k)%Z by lia.
  rewrite (digits_loop k 0%Z 0).
  - unfold R. rewrite rev_involutive. apply join_chars.
  - split; cbn [digitIndex result]; [lia|reflexivity].
Qed.

End Loop.

(** The integer side does not read the [scale] of the section. *)
Lemma pushDigit_scale s x c st :
  pushDigit (set_scale s x) c st = pushDigit s c st.
Proof. reflexivity. Qed.

Lemma flushInt_scale s x integerStr n :
  forall st, flushInt n integerStr (set_scale s x) st
             = flushInt n integerStr s st.
Proof.
  induction n as [|n IH]; intros st; cbn [flushInt]; [reflexivity|].
  destruct (hasMoreInt st); [|reflexivity].
  destruct (nextInt integerStr st) as [d st1].
  now rewrite IH.
Qed.

Lemma formatIntegerPart_loop_scale s x integerStr last l :
  forall index st,
    formatIntegerPart_loop integerStr (set_scale s x) last index l st
    = formatIntegerPart_loop integerStr s last index l st.
Proof.
  induction l as [|part l IH]; intros index st; cbn [formatIntegerPart_loop];
    [reflexivity|].
  rewrite IH. f_equal.
  unfold formatIntegerPart_step.
  destruct (isPlaceholder part); [|reflexivity].
  destruct (nextInt integerStr st) as [d st1].
  rewrite flushInt_scale. reflexivity.
Qed.

Lemma formatIntegerPart_scale s x integerStr ps :
  formatIntegerPart integerStr (set_scale s x) ps
  = formatIntegerPart integerStr s ps.
Proof.
  unfold formatIntegerPart. now rewrite formatIntegerPart_loop_scale.
Qed.

End IntegerFacts.

(** ** Numbers as strings *)

Module NumberFacts.

Import Notions StrFacts.

Lemma pow10_0 : pow10 0 = 1%Z.
Proof. reflexivity. Qed.

Lemma pow10_pos (n : nat) : (0 < pow10 n)%Z.
Proof. unfold pow10. apply Z.pow_pos_nonneg; lia. Qed.

(** In positional notation the text before the point is the integer
    part, written in digits. *)
Lemma toString_plain_integerStr (m : Z) (sc : nat) :
  nth 0 (Str.split "." (toString_plain m sc)) EmptyString
  = digits (Z.to_N (m / pow10 sc)).
Proof.
  unfold toString_plain.
  set (ip := digits (Z.to_N (m / pow10 sc))).
  assert (Hip : noChar "." ip = true) by apply digits_noDot.
  destruct (strip_trailing_zeros _) as [|c fr].
  - now rewrite split_noChar.
  - change (ip ++ "." ++ String c fr) with (ip ++ String "." (String c fr)).
    unfold Str.split. now rewrite split_acc_first.
Qed.

Lemma integerStrOf_positional (x : number) :
  positional x = true ->
  integerStrOf (Finite x) = digits (Z.to_N (truncate x)).
Proof.
  unfold integerStrOf, positional, truncate, toString_ext, toString.
  intros Hp.
  destruct (mant x) as [|p|p] eqn:E;
    [reflexivity| |cbn [Z.eqb orb] in Hp;
                   change (0 <? Z.neg p)%Z with false in Hp; discriminate Hp].
  cbn [Z.eqb orb] in Hp. unfold toString_pos. rewrite <- E in *.
  apply andb_prop in Hp as [Hp H3]. apply andb_prop in Hp as [_ H2].
  rewrite H2, H3. cbn [andb]. apply toString_plain_integerStr.
Qed.

(** [String(z)] for an integer below [10^21]. *)
Lemma toString_pos_integer (z : Z) :
  (0 < z < 10 ^ 21)%Z -> toString_pos z 0 = digits (Z.to_N z).
Proof.
  intros Hz. unfold toString_pos. rewrite pow10_0.
  destruct (Z.ltb_spec z (10 ^ 21 * 1)); [|lia].
  destruct (Z.leb_spec 1 (z * 10 ^ 6)); [|lia].
  cbn [andb]. unfold toString_plain. rewrite pow10_0, Z.mod_1_r, Z.div_1_r.
  reflexivity.
Qed.

Lemma toString_integer (z : Z) :
  (Z.abs z < 10 ^ 21)%Z -> toString (of_Z z) = decimalString z.
Proof.
  intros Hz. unfold toString, decimalString, of_Z. cbn [mant decimals].
  destruct z as [|p|p].
  - reflexivity.
  - rewrite toString_pos_integer by lia. reflexivity.
  - rewrite toString_pos_integer by lia. reflexivity.
Qed.

Lemma ltb_of_Z_zero (z : Z) : ltb (of_Z z) zero = (z <? 0)%Z.
Proof.
  unfold ltb, JsNumber.compare, zero, of_Z. cbn [mant decimals].
  rewrite pow10_0, !Z.mul_1_r. unfold Z.ltb. reflexivity.
Qed.

End NumberFacts.

(** ** Formats of [#] only *)

Module HashFormat.

Import Parser Renderer Notions StrFacts.

Lemma length_repeat (c : ascii) (n : nat) : String.length (Str.repeat c n) = n.
Proof. induction n; simpl; congruence. Qed.

Lemma tokenize_loop_hashes (n : nat) :
  forall fuel, n <= fuel ->
  Tokenizer.tokenize_loop fuel (Str.repeat "#" n)
  = Some (List.repeat (Tokenizer.Placeholder "#") n).
Proof.
  induction n as [|n IH]; intros fuel Hle.
  - destruct fuel; reflexivity.
  - destruct fuel as [|fuel]; [lia|].
    cbn [Str.repeat Tokenizer.tokenize_loop].
    change (Tokenizer.tokenize_step "#" (Str.repeat "#" n))
      with (Tokenizer.Placeholder "#", Str.repeat "#" n).
    cbv beta iota. rewrite IH by lia. reflexivity.
Qed.

Lemma tokenize_hashes (n : nat) :
  Tokenizer.tokenize (Str.repeat "#" n)
  = List.repeat (Tokenizer.Placeholder "#") n.
Proof.
  unfold Tokenizer.tokenize.
  now rewrite tokenize_loop_hashes by (rewrite length_repeat; lia).
Qed.

Lemma push_parts_push_parts s ps qs :
  push_parts (push_parts s ps) qs = push_parts s (ps ++ qs).
Proof. unfold push_parts; cbn. now rewrite app_assoc. Qed.

Lemma parse_loop_hashes (n : nat) :
  forall prevTk sections section,
    parse_loop prevTk (List.repeat (Tokenizer.Placeholder "#") n)
               (sections, section)
    = (sections, push_parts section (List.repeat digitPart n)).
Proof.
  induction n as [|n IH]; intros prevTk sections section.
  - cbn. unfold push_parts. rewrite app_nil_r. now destruct section.
  - cbn [List.repeat parse_loop].
    change (parse_token prevTk (Tokenizer.Placeholder "#")
              (List.repeat (Tokenizer.Placeholder "#") n) (sections, section))
      with (sections, push_parts section [digitPart]).
    cbv beta iota. rewrite IH, push_parts_push_parts. reflexivity.
Qed.

(** The AST of a format of [k + 1] characters [#]: one section, whose
    parts are [k + 1] digit placeholders. *)
Lemma parse_hashes (k : nat) :
  parse (Tokenizer.tokenize (Str.repeat "#" (S k)))
  = mkAST [sectionOf (List.repeat digitPart (S k))].
Proof.
  rewrite tokenize_hashes. unfold parse. rewrite parse_loop_hashes.
  reflexivity.
Qed.

Lemma noDot_digits (n : nat) :
  noDot (sectionOf (List.repeat digitPart n)) = true.
Proof. unfold noDot; cbn [sectionOf parts]. induction n; cbn; auto. Qed.

End HashFormat.

(** ** Rendering *)

Module RenderFacts.

Import Parser Renderer Notions StrFacts.

Lemma findIndex_from_none {A : Type} (p : A -> bool) (l : list A) :
  forall i, forallb (fun x => negb (p x)) l = true ->
            findIndex_from p l i = (-1)%Z.
Proof.
  induction l as [|x l IH]; intros i H; cbn in *; [reflexivity|].
  apply andb_prop in H as [Hx Hl].
  destruct (p x); [discriminate|]. now apply IH.
Qed.

(** Without a [Dot] part only the integer side is rendered, from the
    integer digits of the scaled magnitude. *)
Lemma renderNumber_noDot (section : FormatSection) (v : number) :
  noDot section = true ->
  renderNumber section v
  = (if ltb v zero then "-" else EmptyString)
      ++ formatIntegerPart (integerStrOf (scaledMagnitude section v))
           section (parts section).
Proof.
  intros H. unfold renderNumber.
  unfold findIndex. rewrite (findIndex_from_none _ _ 0%Z H).
  cbn [Z.ltb Z.eqb Z.compare].
  fold (scaledMagnitude section v).
  fold (integerStrOf (scaledMagnitude section v)).
  destruct (ltb v zero); reflexivity.
Qed.

Lemma findIndex_from_skip {A : Type} (p : A -> bool) (l1 l2 : list A) :
  forall i,
    forallb (fun x => negb (p x)) l1 = true ->
    findIndex_from p (l1 ++ l2) i
    = findIndex_from p l2 (i + Z.of_nat (List.length l1))%Z.
Proof.
  induction l1 as [|x l1 IH]; intros i H.
  - cbn. now rewrite Z.add_0_r.
  - cbn [forallb] in H. apply andb_prop in H as [Hx H].
    apply negb_true_iff in Hx.
    cbn [app findIndex_from List.length]. rewrite Hx, IH by exact H.
    f_equal. lia.
Qed.




(** The renderer does not read the [scale] of a section. *)
Lemma renderSection_scale (s : FormatSection) (x : option Z) (value : Value) :
  renderSection (set_scale s x) value = renderSection s value.
Proof.
  destruct value as [str|n]; [reflexivity|].
  cbn [renderSection]. unfold renderNumber.
  change (percentCount (set_scale s x)) with (percentCount s).
  change (parts (set_scale s x)) with (parts s).
  rewrite !IntegerFacts.formatIntegerPart_scale. reflexivity.
Qed.

Lemma renderAST_scale (g : FormatSection -> option Z) (ast : FormatAST)
    (value : Value) :
  renderAST (mkAST (map (fun s => set_scale s (g s)) (sections ast))) value
  = renderAST ast value.
Proof.
  unfold renderAST.
  rewrite (SelectFacts.selectSection_map (fun s => set_scale s (g s)))
    by reflexivity.
  destruct (selectSection ast value) as [section|]; [|reflexivity].
  cbn [option_map]. rewrite renderSection_scale. reflexivity.
Qed.

Lemma sameExceptScale_erase (s1 s2 : FormatSection) :
  sameExceptScale s1 s2 -> set_scale s1 None = set_scale s2 None.
Proof.
  destruct s1, s2. unfold sameExceptScale, set_scale. cbn.
  intros (-> & -> & -> & -> & -> & ->). reflexivity.
Qed.

Lemma Forall2_sameExceptScale_erase (l1 l2 : list FormatSection) :
  Forall2 sameExceptScale l1 l2 ->
  map (fun s => set_scale s None) l1 = map (fun s => set_scale s None) l2.
Proof.
  induction 1 as [|s1 s2 l1 l2 H _ IH]; [reflexivity|].
  cbn [map]. now rewrite IH, (sameExceptScale_erase s1 s2 H).
Qed.

End RenderFacts.

(** ** The decimal side *)

Module DecimalFacts.

Import Parser Renderer Notions StrFacts.

Lemma join_cons (x : string) (l : list string) :
  Str.join (x :: l) = x ++ Str.join l.
Proof.
  unfold Str.join. destruct l as [|y l]; cbn [String.concat].
  - now rewrite append_empty_r.
  - reflexivity.
Qed.

Lemma findLastIndex_from_repeat {A : Type} (p : A -> bool) (x : A) (n : nat) :
  p x = true ->
  forall i, (0 <= i)%Z ->
            findLastIndex_from p (List.repeat x (S n)) i = (i + Z.of_nat n)%Z.
Proof.
  intros Hp. induction n as [|n IH]; intros i Hi.
  - cbn. rewrite Hp. lia.
  - change (List.repeat x (S (S n))) with (x :: List.repeat x (S n)).
    cbn [findLastIndex_from]. rewrite IH by lia.
    destruct (Z.leb_spec 0 (i + 1 + Z.of_nat n)); lia.
Qed.

Section Zeros.

Variable decimalStr : string.
Variable k : nat.

Lemma zero_step_before_last (j : nat) (st : DecState) :
  atDigit j st -> j < k ->
  let st' := formatDecimalPart_step decimalStr (Z.of_nat k) zeroPart st in
  atDigit (S j) st' /\ dresult st' = dresult st ++ fractionDigit decimalStr j.
Proof.
  intros [Hi Hd] Hlt. unfold formatDecimalPart_step, nextDigit, pushDecDigit.
  cbn [kindIs zeroPart kind FormatPartKind_eqb ddigits dresult ddigitIndex].
  rewrite Hd, Hi.
  destruct (Z.eqb_spec (Z.of_nat j) (Z.of_nat k)) as [|_]; [lia|].
  unfold atDigit. cbn [ddigits dresult ddigitIndex]. repeat split. lia.
Qed.

Lemma zero_step_last (st : DecState) :
  atDigit k st ->
  dresult (formatDecimalPart_step decimalStr (Z.of_nat k) zeroPart st)
  = dresult st ++ roundedDigit decimalStr k.
Proof.
  intros [Hi Hd]. unfold formatDecimalPart_step, nextDigit, pushDecDigit.
  cbn [kindIs zeroPart kind FormatPartKind_eqb ddigits dresult ddigitIndex].
  rewrite Hd, Hi, Z.eqb_refl. reflexivity.
Qed.

Lemma zeros_loop (n : nat) :
  forall (j : nat) (st : DecState),
    atDigit j st -> j + n = k ->
    dresult
      (fold_left
         (fun st part =>
            formatDecimalPart_step decimalStr (Z.of_nat k) part st)
         (List.repeat zeroPart (S n)) st)
    = dresult st
        ++ Str.join (map (fractionDigit decimalStr) (seq j n))
        ++ roundedDigit decimalStr k.
Proof.
  induction n as [|n IH]; intros j st Hst Hj.
  - cbn [List.repeat fold_left seq map]. rewrite Nat.add_0_r in Hj. subst j.
    now rewrite zero_step_last.
  - change (List.repeat zeroPart (S (S n)))
      with (zeroPart :: List.repeat zeroPart (S n)).
    cbn [fold_left seq map].
    destruct (zero_step_before_last j st Hst ltac:(lia)) as [Hst' Hres].
    rewrite (IH (S j) _ Hst' ltac:(lia)), Hres, join_cons.
    now rewrite !append_assoc.
Qed.

(** On [k + 1] placeholders [0] the decimal side writes the first [k]
    fraction digits as they are and rounds the last one on the digit that
    follows it. *)
Lemma formatDecimalPart_zeros (section : FormatSection) :
  formatDecimalPart decimalStr section (List.repeat zeroPart (S k))
  = zeroPadded decimalStr k ++ roundedDigit decimalStr k.
Proof.
  unfold formatDecimalPart, findLastIndex.
  rewrite (findLastIndex_from_repeat isPlaceholder zeroPart k eq_refl 0%Z)
    by lia.
  rewrite Z.add_0_l.
  rewrite (zeros_loop k 0); [reflexivity|now split|reflexivity].
Qed.

(** In particular the last digit is incremented, and no other digit
    changes, when the digit after it is one of 5 to 9. *)
Lemma formatDecimalPart_zeros_rounds (section : FormatSection) (next : string) :
  Str.charAt decimalStr (Z.of_nat k + 1)%Z = Some next ->
  isFiveToNine next = true ->
  formatDecimalPart decimalStr section (List.repeat zeroPart (S k))
  = zeroPadded decimalStr k ++ increment (fractionDigit decimalStr k).
Proof.
  intros Hnext H59. rewrite formatDecimalPart_zeros.
  unfold roundedDigit. now rewrite Hnext, H59.
Qed.

End Zeros.

(** *** Placeholders of any kind *)






Section Placeholders.

Variable decimalStr : string.
Variable last : Z.

Local Notation "'step'" := (formatDecimalPart_step decimalStr last).





End Placeholders.


End DecimalFacts.

(** * The claims *)

Import Parser Renderer Notions.

(** ** Decimal point *)

(** C1.  For the number 123.456 and the format ["0.00"] the test suite
    and the documentation give the text ["123.46"].  [render] returns the
    text ["123"] with no color: the tokenizer emits a token of type
    ["DecimalPoint"], the parser waits for the type ["Dot"], so the
    section has no [Dot] part and the fraction is dropped. *)
Theorem render_123_456_two_decimals :
  render (VNumber n123_456) "0.00" = mkResult "123" None.
Proof. vm_compute. reflexivity. Qed.

(** C2.  Whatever the tokens, no section built by [parse] contains a
    [Dot] part: a decimal-point token (type ["DecimalPoint"]) falls
    through the [switch] of the parser, whose case is ["Dot"], and
    appends nothing. *)
Theorem parse_appends_no_Dot (tokens : list Tokenizer.Token) :
  forallb noDot (sections (parse tokens)) = true.
Proof.
  unfold parse.
  destruct (ParserFacts.parse_loop_noDot tokens None [] emptySection
              eq_refl eq_refl) as [Hs Hc].
  destruct (parse_loop None tokens ([], emptySection)) as [ss s].
  cbn [fst snd] in *. destruct (parts s) eqn:E; cbn [sections]; [exact Hs|].
  rewrite forallb_app, Hs. cbn [forallb]. now rewrite Hc.
Qed.

(** The tokens of ["0.00"] and the section built from them. *)
Example parse_0_00 :
  Tokenizer.tokenize "0.00"
  = [Tokenizer.Placeholder "0"; Tokenizer.DecimalPoint;
     Tokenizer.Placeholder "0"; Tokenizer.Placeholder "0"]
  /\ parse (Tokenizer.tokenize "0.00")
     = mkAST [sectionOf [placeholderPart ZeroDigit; placeholderPart ZeroDigit;
                         placeholderPart ZeroDigit]].
Proof. split; reflexivity. Qed.

(** ** Section selection *)

(** C3.  For a numeric value and an AST of several sections, one of
    which at least has a condition, [selectSection] returns the first
    section, in the order of the AST, whose condition holds; when none
    holds, the first section without condition; and no section when
    there is none either.  The conditions are those of the type
    [Condition], with one of the six operators, and a condition holds
    when the value compares with its threshold as the operator says
    ([holds]): [evaluateCondition] is shown to compute just that. *)
Theorem selectSection_conditional (ast : FormatAST) (v : number) :
  1 < List.length (sections ast) ->
  existsb hasCondition (sections ast) = true ->
  Forall (fun s => typedCondition s = true) (sections ast) ->
  selectSection ast (VNumber v)
  = match find (conditionHolds v) (sections ast) with
    | Some section => Some section
    | None => find noCondition (sections ast)
    end.
Proof.
  intros Hlen Hcond Htyped. unfold selectSection.
  destruct (Nat.eqb_spec (List.length (sections ast)) 1) as [|_]; [lia|].
  rewrite SelectFacts.filter_nonempty, Hcond.
  rewrite SelectFacts.firstMatching_filter by exact Htyped.
  destruct (find (conditionHolds v) (sections ast)); [reflexivity|].
  apply (SelectFacts.head_filter (fun s => negb (hasCondition s))).
Qed.

(** -5 through ["[>100][Red]0;[<0][Blue]0;0"]: the condition of the
    first section fails, the one of the second section holds and that
    section is selected. *)
Lemma selectSection_conditional_witness :
  selectSection ast_three_conditional (VNumber (of_Z (-5)))
  = nth_error (sections ast_three_conditional) 1.
Proof.
  rewrite selectSection_conditional.
  - vm_compute. reflexivity.
  - vm_compute. repeat constructor.
  - vm_compute. reflexivity.
  - vm_compute. repeat constructor.
Defined.

(** 50 through the same format: no condition holds and the third
    section, the first without condition, is selected; 150 selects the
    first section. *)
Example selectSection_conditional_others :
  selectSection ast_three_conditional (VNumber (of_Z 50))
  = nth_error (sections ast_three_conditional) 2
  /\ selectSection ast_three_conditional (VNumber (of_Z 150))
     = nth_error (sections ast_three_conditional) 0.
Proof. split; vm_compute; reflexivity. Qed.

(** C4.  For an AST none of whose sections has a condition: with two
    sections a negative number selects [S[1]] and any other number
    [S[0]]; with three or four sections a positive number selects
    [S[0]], a negative one [S[1]] and zero [S[2]]; a text selects
    [S[3]] when there are four sections and [S[0]] otherwise; with one
    section every value selects [S[0]]. *)
Theorem selectSection_unconditional (ast : FormatAST) :
  existsb hasCondition (sections ast) = false ->
  let S := sections ast in
  let n := List.length S in
  (n = 2 -> forall v,
      selectSection ast (VNumber v)
      = if ltb v zero then nth_error S 1 else nth_error S 0)
  /\ (n = 3 \/ n = 4 -> forall v,
        selectSection ast (VNumber v)
        = if gtb v zero then nth_error S 0
          else if ltb v zero then nth_error S 1
          else nth_error S 2)
  /\ (forall str,
        selectSection ast (VString str)
        = if (n =? 4)%nat then nth_error S 3 else nth_error S 0)
  /\ (n = 1 -> forall value, selectSection ast value = nth_error S 0).
Proof.
  intros Hcond S n. subst S n. unfold selectSection.
  rewrite SelectFacts.filter_nonempty, Hcond.
  repeat split.
  - intros Hn v. rewrite Hn. reflexivity.
  - intros [Hn | Hn] v; rewrite Hn; reflexivity.
  - intros str.
    destruct (Nat.eqb_spec (List.length (sections ast)) 1) as [Hn|_];
      [rewrite Hn|]; reflexivity.
  - intros Hn value. rewrite Hn. reflexivity.
Qed.

(** The four sections of ["0;00;000;txt"]: -5 selects the second and a
    text the fourth. *)
Lemma selectSection_unconditional_witness :
  selectSection ast_four_plain (VNumber (of_Z (-5)))
  = nth_error (sections ast_four_plain) 1
  /\ selectSection ast_four_plain (VString "abc")
     = nth_error (sections ast_four_plain) 3.
Proof.
  destruct (selectSection_unconditional ast_four_plain eq_refl)
    as (_ & H34 & Htext & _).
  split.
  - rewrite (H34 (or_intror eq_refl)). reflexivity.
  - rewrite Htext. reflexivity.
Defined.

(** ** Fallback *)

(** C5.  When [selectSection] finds no section, or when the section it
    finds has a condition that the value does not satisfy -- no text
    satisfies a condition -- [render] returns [String(value)] and no
    color.  [render] is a total function: nothing is raised. *)
Theorem render_fallback (value : Value) (format : string) :
  let ast := parse (Tokenizer.tokenize format) in
  (selectSection ast value = None
   \/ exists section c,
        selectSection ast value = Some section
        /\ condition section = Some c
        /\ match value with
           | VNumber n => evaluateCondition c n = false
           | VString _ => True
           end) ->
  render value format = mkResult (String_ value) None.
Proof.
  intros ast [Hnone | (section & c & Hsel & Hc & Hfail)];
    unfold render, renderAST; fold ast.
  - now rewrite Hnone.
  - rewrite Hsel, Hc. destruct value as [str|n]; [reflexivity|].
    now rewrite Hfail.
Qed.

(** 99 through ["[>100][Red]0"]: the condition fails and the text is
    ["99"], without the color. *)
Lemma render_fallback_witness :
  render (VNumber (of_Z 99)) "[>100][Red]0"
  = mkResult (String_ (VNumber (of_Z 99))) None.
Proof.
  apply render_fallback. right.
  exists (mkSection (Some (mkCondition ">" (Finite (of_Z 100)))) (Some "Red")
            [placeholderPart ZeroDigit] None None None None).
  exists (mkCondition ">" (Finite (of_Z 100))).
  repeat split; vm_compute; reflexivity.
Defined.

(** ** The decimal side *)




(** Without the literal the digits of 1.456 are rounded, as in the tests
    of the repository; a 9 is rounded to ["10"]. *)
Example formatDecimalPart_two_placeholders :
  renderSection
    (sectionOf [placeholderPart ZeroDigit; dotPart; placeholderPart ZeroDigit;
                placeholderPart ZeroDigit])
    (VNumber n1_456)
  = "1.46"
  /\ renderSection
       (sectionOf [placeholderPart ZeroDigit; dotPart;
                   placeholderPart ZeroDigit; placeholderPart ZeroDigit])
       (VNumber (mkNumber 1496 3))
     = "1.410".
Proof. split; vm_compute; reflexivity. Qed.

(** ** No decimal point *)

(** C7, as stated, fails for the numbers that [String] writes with an
    exponent: 1.5e-7 is printed ["1.5e-7"], the text before its point is
    ["1"], and the format ["0"] shows ["1"] where the integer part is 0;
    likewise 1.5e21 is shown as ["1"]. *)
Lemma renderSection_noDot_counterexample :
  let s := sectionOf [placeholderPart ZeroDigit] in
  noDot s = true
  /\ scaledMagnitude s n1_5e_7 = Finite n1_5e_7
  /\ renderSection s (VNumber n1_5e_7) = "1"
  /\ formatIntegerPart (JsNumber.digits (Z.to_N (truncate n1_5e_7)))
       s (parts s) = "0"
  /\ scaledMagnitude s n1_5e21 = Finite n1_5e21
  /\ renderSection s (VNumber n1_5e21) = "1"
  /\ formatIntegerPart (JsNumber.digits (Z.to_N (truncate n1_5e21)))
       s (parts s) = "1500000000000000000000".
Proof. repeat split; vm_compute; reflexivity. Qed.

(** C7, amended.  Through a section without [Dot] part, a number whose
    magnitude, scaled by the percent signs as the code scales it (the
    binary64 product by [100^percentCount]), is a number [x] written
    without exponent -- zero, or from [10^-6] up to [10^21] -- is
    rendered from the digits of the integer part of [x] alone: the
    sign, then [formatIntegerPart] on those digits.  The fraction digits
    are not read and the integer part is truncated, not rounded. *)
Theorem renderSection_noDot_truncates (section : FormatSection)
    (v x : number) :
  noDot section = true ->
  scaledMagnitude section v = Finite x ->
  positional x = true ->
  renderSection section (VNumber v)
  = (if ltb v zero then "-" else EmptyString)
      ++ formatIntegerPart (JsNumber.digits (Z.to_N (truncate x)))
           section (parts section).
Proof.
  intros H Hx Hpos. cbn [renderSection].
  rewrite RenderFacts.renderNumber_noDot by exact H.
  now rewrite Hx, NumberFacts.integerStrOf_positional by exact Hpos.
Qed.

(** 0.29 through the section of ["0%"]: the product by 100 is
    28.999999999999996 and the text is ["28%"]. *)
Lemma renderSection_noDot_truncates_witness :
  renderSection section_percent (VNumber n0_29) = "28%".
Proof.
  rewrite (renderSection_noDot_truncates section_percent n0_29
             (mkNumber 28999999999999996 15)).
  - vm_compute. reflexivity.
  - reflexivity.
  - vm_compute. reflexivity.
  - reflexivity.
Defined.

(** 123.999 through the format ["0"]: the text is ["123"]; and the
    section of ["0%"] is the one that [parse] builds. *)
Example renderSection_noDot_samples :
  renderSection (sectionOf [placeholderPart ZeroDigit]) (VNumber n123_999)
  = "123"
  /\ parse (Tokenizer.tokenize "0%") = mkAST [section_percent]
  /\ render (VNumber n0_29) "0%" = mkResult "28%" None.
Proof. repeat split; vm_compute; reflexivity. Qed.

(** ** Number of sections *)

(** C8, as stated, fails: the empty format has no section at all, and a
    format of five sections keeps the five of them. *)
Lemma section_count_counterexample :
  ~ (1 <= List.length (sections (parse (Tokenizer.tokenize EmptyString))) <= 4)
  /\ ~ (1 <= List.length (sections (parse (Tokenizer.tokenize "0;0;0;0;0")))
        <= 4).
Proof. split; vm_compute; lia. Qed.

(** C8, amended.  The AST of a format has [k] sections, and one more
    when a token after the last section separator adds a part, where
    [k] is the number of section separators among its tokens: a section
    is pushed at each separator, and the last one only when it has
    parts.  The tokens that add a part are the placeholders, the
    literals, the percent signs, the quoted texts that are not empty and
    a comma that follows a literal. *)
Theorem section_count (format : string) :
  let tokens := Tokenizer.tokenize format in
  List.length (sections (parse tokens))
  = separators tokens + (if anyPart false (lastSegment tokens) then 1 else 0).
Proof.
  intros tokens. unfold parse, lastSegment.
  pose proof (ParserFacts.parse_loop_length tokens None [] emptySection) as H.
  pose proof (ParserFacts.parse_loop_last tokens None [] emptySection []
                eq_refl eq_refl) as Hlast.
  destruct (parse_loop None tokens ([], emptySection)) as [ss s].
  cbn [fst snd List.length] in H, Hlast. rewrite <- Hlast.
  destruct (parts s); cbn [sections nonempty];
    rewrite ?length_app; cbn [List.length]; lia.
Qed.

(** The numbers of sections of a few formats: one for ["0"], none for
    ["[Red]"], one for ["0;"], two for [";0"] and three for ["0;;0"]. *)
Example section_count_samples :
  map (fun format =>
         List.length (sections (parse (Tokenizer.tokenize format))))
      ["0"; "[Red]"; "0;"; ";0"; "0;;0"]
  = [1; 0; 1; 2; 3].
Proof. vm_compute. reflexivity. Qed.

(** ** Formats of [#] only *)

(** C9, as stated, fails: 1.5e21 is an integer, [String] writes it
    ["1.5e+21"], and [render] cuts that text at its point. *)
Lemma render_hash_counterexample :
  text (render (VNumber n1_5e21) "#") = "1"
  /\ String_ (VNumber n1_5e21) = "1.5e+21"
  /\ text (render (VNumber n1_5e21) "#") <> decimalString (15 * 10 ^ 20).
Proof. repeat split; vm_compute; congruence. Qed.

(** C9, amended.  For an integer [v] of magnitude below [10^21] and a
    format of one or more [#], the text rendered is [String(v)], the
    plain decimal string of [v]: no digit is lost, whatever the number
    of placeholders. *)
Theorem render_hash_format (v : Z) (k : nat) :
  0 < k ->
  (Z.abs v < 10 ^ 21)%Z ->
  text (render (VNumber (of_Z v)) (Str.repeat "#" k))
  = String_ (VNumber (of_Z v))
  /\ String_ (VNumber (of_Z v)) = decimalString v.
Proof.
  intros Hk Hv. destruct k as [|k]; [lia|].
  cbn [String_]. rewrite NumberFacts.toString_integer by exact Hv.
  split; [|reflexivity].
  unfold render. rewrite HashFormat.parse_hashes.
  unfold renderAST, selectSection.
  cbn [sections List.length Nat.eqb nth_error sectionOf condition
       renderSection text].
  rewrite RenderFacts.renderNumber_noDot by apply HashFormat.noDot_digits.
  unfold scaledMagnitude, integerStrOf.
  cbn [percentCount sectionOf parts toString_ext].
  change (JsNumber.abs (of_Z v)) with (of_Z (Z.abs v)).
  rewrite NumberFacts.toString_integer by (rewrite Z.abs_idemp; exact Hv).
  unfold decimalString.
  destruct (Z.ltb_spec (Z.abs v) 0) as [|_]; [lia|].
  rewrite Z.abs_idemp. cbn [append].
  rewrite StrFacts.split_noChar by apply StrFacts.digits_noDot.
  cbn [nth].
  rewrite IntegerFacts.formatIntegerPart_digits by reflexivity.
  rewrite NumberFacts.ltb_of_Z_zero. reflexivity.
Qed.

(** -123 through ["#####"]. *)
Lemma render_hash_format_witness :
  text (render (VNumber (of_Z (-123))) (Str.repeat "#" 5))
  = String_ (VNumber (of_Z (-123)))
  /\ String_ (VNumber (of_Z (-123))) = decimalString (-123).
Proof.
  apply render_hash_format.
  - repeat constructor.
  - reflexivity.
Defined.

(** ** Scale *)

(** C10.  Two ASTs whose sections agree on every field but [scale]
    render every value to the same text and the same color: the renderer
    does not read [scale]. *)
Theorem render_ignores_scale (ast1 ast2 : FormatAST) (value : Value) :
  Forall2 sameExceptScale (sections ast1) (sections ast2) ->
  renderAST ast1 value = renderAST ast2 value.
Proof.
  intros H.
  rewrite <- (RenderFacts.renderAST_scale (fun _ => None) ast1 value).
  rewrite <- (RenderFacts.renderAST_scale (fun _ => None) ast2 value).
  now rewrite (RenderFacts.Forall2_sameExceptScale_erase _ _ H).
Qed.

(** The ASTs of ["0,"] and ["0"] differ in [scale] only. *)
Lemma render_ignores_scale_witness :
  renderAST (parse (Tokenizer.tokenize "0,")) (VNumber (of_Z 1234567))
  = renderAST (parse (Tokenizer.tokenize "0")) (VNumber (of_Z 1234567)).
Proof.
  apply render_ignores_scale.
  repeat constructor.
Defined.

(** The two formats differ in [scale] only, and both print the number
    in full. *)
Example scale_of_trailing_comma :
  map scale (sections (parse (Tokenizer.tokenize "0,"))) = [Some 1000%Z]
  /\ map scale (sections (parse (Tokenizer.tokenize "0"))) = [None]
  /\ render (VNumber (of_Z 1234567)) "0," = mkResult "1234567" None.
Proof. repeat split; vm_compute; reflexivity. Qed.

(** * Further properties of the code *)

(** ** The tokenizer *)

Module TokenizeMore.

Import Tokenizer Notions MoreNotions TokenizerFacts.

(** More turns than needed change nothing. *)
Lemma tokenize_loop_more (fuel : nat) :
  forall rest tokens fuel',
    tokenize_loop fuel rest = Some tokens -> fuel <= fuel' ->
    tokenize_loop fuel' rest = Some tokens.
Proof.
  induction fuel as [|fuel IH]; intros [|ch r] tokens fuel' H Hle.
  - destruct fuel'; exact H.
  - discriminate.
  - destruct fuel'; exact H.
  - destruct fuel' as [|fuel']; [lia|]. cbn [tokenize_loop] in *.
    destruct (tokenize_step ch r) as [tk rest'].
    destruct (tokenize_loop fuel rest') as [tks|] eqn:E; [|discriminate].
    rewrite (IH rest' tks fuel' E) by lia. exact H.
Qed.

Lemma tokenize_loop_enough (fuel : nat) (rest : string) :
  String.length rest <= fuel -> tokenize_loop fuel rest = Some (tokenize rest).
Proof.
  intros H. apply tokenize_loop_more with (fuel := String.length rest);
    [apply tokenize_spec|exact H].
Qed.

(** The equation of the loop: the first token, then the tokens of what
    is left. *)
Lemma tokenize_cons (ch : ascii) (r : string) :
  tokenize (String ch r)
  = fst (tokenize_step ch r) :: tokenize (snd (tokenize_step ch r)).
Proof.
  pose proof (tokenize_spec (String ch r)) as H.
  cbn [String.length tokenize_loop] in H.
  pose proof (tokenize_step_length ch r) as Hlen.
  destruct (tokenize_step ch r) as [tk rest']; cbn [fst snd] in *.
  rewrite (tokenize_loop_enough _ rest' Hlen) in H.
  cbn [option_map] in H. now inversion H.
Qed.

Lemma tokenize_empty : tokenize EmptyString = [].
Proof. reflexivity. Qed.

Lemma tokenize_length_le (rest : string) :
  List.length (tokenize rest) <= String.length rest.
Proof.
  remember (String.length rest) as n eqn:Hn. revert rest Hn.
  induction n as [n IH] using lt_wf_ind; intros [|ch r] Hn.
  - cbn. lia.
  - rewrite tokenize_cons. cbn [List.length String.length] in *.
    pose proof (tokenize_step_length ch r) as Hlen.
    specialize (IH (String.length (snd (tokenize_step ch r))) ltac:(lia)
                  _ eq_refl).
    lia.
Qed.

Lemma condMatch_op (ops : list string) (content o num : string) :
  condMatch ops content = Some (o, num) ->
  existsb (String.eqb o) ops = true.
Proof.
  induction ops as [|a ops IH]; cbn [condMatch existsb]; [discriminate|].
  destruct (String.prefix a content
            && matchNumber (Str.drop (String.length a) content)).
  - intros [= <- _]. now rewrite String.eqb_refl.
  - intros H. rewrite (IH H). apply orb_true_r.
Qed.

Lemma tryDateToken_loop_pattern (ps : list string) (rest : string) tk r :
  tryDateToken_loop ps rest = Some (tk, r) ->
  exists p, tk = DateToken p /\ existsb (String.eqb p) ps = true.
Proof.
  induction ps as [|a ps IH]; cbn [tryDateToken_loop existsb]; [discriminate|].
  destruct (String.prefix a rest).
  - intros [= <- _]. exists a. now rewrite String.eqb_refl.
  - intros H. destruct (IH H) as (p & -> & Hp). exists p.
    rewrite Hp. split; [reflexivity|apply orb_true_r].
Qed.

Lemma tryDateToken_loop_none (ps : list string) (rest : string) :
  tryDateToken_loop ps rest = None ->
  forallb (fun p => negb (String.prefix p rest)) ps = true.
Proof.
  induction ps as [|a ps IH]; cbn [tryDateToken_loop forallb]; [easy|].
  destruct (String.prefix a rest); [discriminate|]. exact IH.
Qed.

Lemma prefix_single (a ch : ascii) (r : string) :
  String.prefix (Str.chr a) (String ch r) = Ascii.eqb ch a.
Proof.
  cbn. destruct (ascii_dec a ch) as [->|Hne].
  - rewrite Ascii.eqb_refl. now destruct r.
  - symmetry. apply Ascii.eqb_neq. congruence.
Qed.

(** When no date pattern starts the input, its first character is none
    of [y m d h s]. *)
Lemma tryDateToken_none_letters (ch : ascii) (r : string) :
  tryDateToken (String ch r) = None ->
  Ascii.eqb ch "y" = false /\ Ascii.eqb ch "m" = false
  /\ Ascii.eqb ch "d" = false /\ Ascii.eqb ch "h" = false
  /\ Ascii.eqb ch "s" = false.
Proof.
  intros H. apply tryDateToken_loop_none in H.
  unfold patterns in H. cbn [forallb] in H.
  repeat match type of H with
         | (_ && _)%bool = true => apply andb_prop in H; destruct H as [? H]
         end.
  repeat match goal with
         | H : negb (String.prefix (String ?a EmptyString) (String ch r)) = true
           |- _ => change (String a EmptyString) with (Str.chr a) in H;
                   rewrite prefix_single in H; apply negb_true_iff in H
         end.
  auto.
Qed.

Lemma tokenize_step_wellFormed (ch : ascii) (r : string) :
  wellFormedToken (fst (tokenize_step ch r)) = true.
Proof.
  unfold tokenize_step.
  destruct (Ascii.eqb ch ";") eqn:E1; [reflexivity|].
  destruct (Ascii.eqb ch Str.dquote) eqn:E2.
  { unfold readQuoted. now destruct (readQuoted_loop _ _). }
  destruct (Ascii.eqb ch Str.backslash) eqn:E3.
  { unfold readEscape. now destruct (nextOrEmpty _). }
  destruct (Ascii.eqb ch "*") eqn:E4.
  { unfold readFill. now destruct (nextOrEmpty _). }
  destruct (Ascii.eqb ch "_") eqn:E5.
  { unfold readSpace. now destruct (nextOrEmpty _). }
  destruct (Ascii.eqb ch "[") eqn:E6.
  { unfold readBracket. destruct (readBracket_loop _ _) as [content r0].
    destruct (condMatch condOps content) as [[o num]|] eqn:Ec.
    - cbn [fst wellFormedToken]. exact (condMatch_op _ _ _ _ Ec).
    - destruct (existsb (String.eqb content) colors) eqn:Ek;
        [exact Ek|reflexivity]. }
  destruct (Ascii.eqb ch "0") eqn:E7.
  { cbn. now rewrite E7. }
  destruct (Ascii.eqb ch "#") eqn:E8.
  { cbn. rewrite E8. cbn. apply orb_true_r. }
  destruct (Ascii.eqb ch "?") eqn:E9.
  { cbn. rewrite E9. cbn. now rewrite !orb_true_r. }
  cbn [orb].
  destruct (Ascii.eqb ch ".") eqn:E10; [reflexivity|].
  destruct (Ascii.eqb ch ",") eqn:E11; [reflexivity|].
  destruct (Ascii.eqb ch "%") eqn:E12; [reflexivity|].
  assert (Htail :
    wellFormedToken
      (fst (if Ascii.eqb ch "@" then (TextPlaceholder, r)
            else match tryDateToken (String ch r) with
                 | Some res => res
                 | None => (Literal (Str.chr ch), r)
                 end)) = true).
  { destruct (Ascii.eqb ch "@") eqn:E13; [reflexivity|].
    destruct (tryDateToken (String ch r)) as [[tk r']|] eqn:Ed.
    - apply tryDateToken_loop_pattern in Ed as (p & -> & Hp). exact Hp.
    - apply tryDateToken_none_letters in Ed as (Ey & Em & Edd & Eh & Es).
      cbn [fst wellFormedToken Str.chr reservedChars existsb].
      now rewrite E1, E2, E3, E4, E5, E6, E7, E8, E9, E10, E11, E12, E13,
        Ey, Em, Edd, Eh, Es. }
  destruct (Ascii.eqb ch "E" || Ascii.eqb ch "e")%bool; [|exact Htail].
  unfold tryScientific. destruct r as [|sg r0]; [exact Htail|].
  destruct (Ascii.eqb ch "E" || Ascii.eqb ch "e")%bool; [|exact Htail].
  cbn [andb].
  destruct (Ascii.eqb sg "+") eqn:Ep.
  { cbn. now rewrite Ep. }
  destruct (Ascii.eqb sg "-") eqn:Em; [|exact Htail].
  cbn. rewrite Em. cbn. apply orb_true_r.
Qed.

Lemma tokenize_wellFormed (rest : string) :
  forallb wellFormedToken (tokenize rest) = true.
Proof.
  remember (String.length rest) as n eqn:Hn. revert rest Hn.
  induction n as [n IH] using lt_wf_ind; intros [|ch r] Hn.
  - reflexivity.
  - rewrite tokenize_cons. cbn [forallb].
    rewrite tokenize_step_wellFormed.
    pose proof (tokenize_step_length ch r) as Hlen. cbn [String.length] in Hn.
    now rewrite (IH (String.length (snd (tokenize_step ch r))) ltac:(lia)
                   _ eq_refl).
Qed.

(** *** Quoted text *)

Lemma readQuoted_loop_closed (t : string) :
  forall acc rest,
    noQuoteAhead rest = true ->
    readQuoted_loop (doubleQuotes t ++ String Str.dquote rest) acc
    = (acc ++ t, rest).
Proof.
  induction t as [|c t IH]; intros acc rest Hrest.
  - cbn [doubleQuotes append readQuoted_loop]. rewrite Ascii.eqb_refl.
    rewrite StrFacts.append_empty_r.
    destruct rest as [|c2 r2]; [reflexivity|].
    cbn [noQuoteAhead] in Hrest. apply negb_true_iff in Hrest.
    now rewrite Hrest.
  - cbn [doubleQuotes]. destruct (Ascii.eqb c Str.dquote) eqn:E.
    + apply Ascii.eqb_eq in E. subst c.
      cbn [append readQuoted_loop]. rewrite !Ascii.eqb_refl.
      rewrite IH by exact Hrest. now rewrite StrFacts.append_assoc.
    + cbn [append readQuoted_loop]. rewrite E.
      rewrite IH by exact Hrest. now rewrite StrFacts.append_assoc.
Qed.

Lemma readQuoted_loop_open (t : string) :
  forall acc, readQuoted_loop (doubleQuotes t) acc = (acc ++ t, EmptyString).
Proof.
  induction t as [|c t IH]; intros acc.
  - cbn. now rewrite StrFacts.append_empty_r.
  - cbn [doubleQuotes]. destruct (Ascii.eqb c Str.dquote) eqn:E.
    + apply Ascii.eqb_eq in E. subst c.
      cbn [readQuoted_loop]. rewrite !Ascii.eqb_refl.
      rewrite IH. now rewrite StrFacts.append_assoc.
    + cbn [readQuoted_loop]. rewrite E.
      rewrite IH. now rewrite StrFacts.append_assoc.
Qed.

Lemma tokenize_step_dquote (r : string) :
  tokenize_step Str.dquote r = readQuoted (String Str.dquote r).
Proof. reflexivity. Qed.

Lemma tokenize_quoted_then (t rest : string) :
  noQuoteAhead rest = true ->
  tokenize (quoted t ++ rest) = Quoted t :: tokenize rest.
Proof.
  intros H. unfold quoted. cbn [append].
  rewrite tokenize_cons, tokenize_step_dquote.
  unfold readQuoted. cbn [Str.drop].
  rewrite StrFacts.append_assoc. cbn [Str.chr append].
  rewrite readQuoted_loop_closed by exact H. reflexivity.
Qed.

(** *** Date patterns *)

Lemma prefix_cons (a b : ascii) (p s : string) :
  String.prefix (String a p) (String b s)
  = Ascii.eqb b a && String.prefix p s.
Proof.
  cbn. destruct (ascii_dec a b) as [->|Hne].
  - now rewrite Ascii.eqb_refl.
  - assert (Ascii.eqb b a = false) as -> by (apply Ascii.eqb_neq; congruence).
    reflexivity.
Qed.

(** Of two prefixes of one string the shorter is a prefix of the longer. *)
Lemma prefix_of_prefixes (p : string) :
  forall q s,
    String.prefix p s = true -> String.prefix q s = true ->
    String.length p <= String.length q ->
    String.prefix p q = true.
Proof.
  induction p as [|a p IH]; intros q s Hp Hq Hlen; [now destruct q|].
  destruct q as [|b q]; [cbn in Hlen; lia|].
  destruct s as [|c s]; [discriminate|].
  rewrite prefix_cons in *.
  apply andb_prop in Hp as [Hp1 Hp2]. apply andb_prop in Hq as [Hq1 Hq2].
  apply Ascii.eqb_eq in Hp1, Hq1. subst a b. rewrite Ascii.eqb_refl.
  cbn [andb]. apply (IH q s); auto. cbn in Hlen. lia.
Qed.

Lemma tryDateToken_loop_longest (ps : list string) (rest : string) tk r :
  longestFirst ps = true ->
  tryDateToken_loop ps rest = Some (tk, r) ->
  exists p,
    tk = DateToken p /\ String.prefix p rest = true
    /\ r = Str.drop (String.length p) rest
    /\ forall q, In q ps -> String.prefix q rest = true ->
                 String.length q <= String.length p.
Proof.
  induction ps as [|a ps IH]; cbn [longestFirst tryDateToken_loop];
    [discriminate|].
  intros Hord. apply andb_prop in Hord as [Ha Hord].
  destruct (String.prefix a rest) eqn:Epre.
  - intros [= <- <-]. exists a. repeat split; auto.
    intros q [<-|Hin] Hq; [lia|].
    rewrite forallb_forall in Ha. specialize (Ha q Hin).
    apply orb_prop in Ha as [Ha|Ha]; [now apply Nat.leb_le|].
    apply negb_true_iff in Ha.
    destruct (Nat.le_gt_cases (String.length q) (String.length a)); [easy|].
    rewrite (prefix_of_prefixes a q rest Epre Hq) in Ha by lia. discriminate.
  - intros H. destruct (IH Hord H) as (p & -> & Hp & -> & Hmax).
    exists p. repeat split; auto.
    intros q [<-|Hin] Hq; [congruence|now apply Hmax].
Qed.

End TokenizeMore.

(** ** Binary64 numbers of integers *)

Module Binary64Facts.

Local Open Scope Z_scope.

Lemma log10_from_spec (fuel : nat) :
  forall w, 1 <= w < 10 ^ Z.of_nat fuel ->
    0 <= log10_from fuel w
    /\ 10 ^ log10_from fuel w <= w < 10 ^ (log10_from fuel w + 1).
Proof.
  induction fuel as [|fuel IH]; intros w Hw.
  - change (10 ^ Z.of_nat 0) with 1 in Hw. lia.
  - cbn [log10_from]. destruct (Z.ltb_spec w 10) as [Hlt|Hge].
    + change (10 ^ 0) with 1. change (10 ^ (0 + 1)) with 10. lia.
    + assert (Hq : 1 <= w / 10 < 10 ^ Z.of_nat fuel).
      { split.
        - apply Z.div_le_lower_bound; lia.
        - apply Z.div_lt_upper_bound; [lia|].
          replace (Z.of_nat (S fuel)) with (Z.of_nat fuel + 1) in Hw by lia.
          rewrite Z.pow_add_r in Hw by lia. lia. }
      destruct (IH _ Hq) as (H0 & Hlo & Hhi).
      pose proof (Z.div_mod w 10 ltac:(lia)) as Hdm.
      pose proof (Z.mod_pos_bound w 10 ltac:(lia)) as Hm.
      split; [lia|].
      replace (1 + log10_from fuel (w / 10) + 1)
        with (log10_from fuel (w / 10) + 1 + 1) by lia.
      replace (1 + log10_from fuel (w / 10))
        with (log10_from fuel (w / 10) + 1) by lia.
      rewrite (Z.pow_add_r 10 (log10_from fuel (w / 10) + 1) 1) by lia.
      rewrite (Z.pow_add_r 10 (log10_from fuel (w / 10)) 1) in * by lia.
      change (10 ^ 1) with 10 in *. lia.
Qed.

Lemma same64_true_iff (a b : Z * Z) : same64 a b = true <-> a = b.
Proof.
  destruct a as [a1 a2], b as [b1 b2]. unfold same64. cbn [fst snd].
  rewrite andb_true_iff, !Z.eqb_eq. split; [intros [-> ->]; reflexivity|].
  intros H. injection H as -> ->. auto.
Qed.

Lemma roundHalfEven_exact (a : Z) : roundHalfEven a 1 = a.
Proof.
  unfold roundHalfEven. rewrite Z.mod_1_r, Z.div_1_r. reflexivity.
Qed.

Lemma floorLog2_integer (M : Z) : 0 < M -> floorLog2 M 1 = Z.log2 M.
Proof.
  intros HM. unfold floorLog2. change (Z.log2 1) with 0.
  rewrite Z.sub_0_r.
  pose proof (Z.log2_nonneg M) as Hl.
  rewrite (Z.max_r 0 (Z.log2 M)) by lia.
  rewrite (Z.max_l 0 (- Z.log2 M)) by lia.
  change (2 ^ 0) with 1.
  destruct (Z.log2_spec M HM) as [Hlo _].
  destruct (Z.leb_spec (1 * 2 ^ Z.log2 M) (M * 1)); [reflexivity|lia].
Qed.

(** The binary64 number of an integer below [2^53] is the integer. *)
Lemma round64_integer (M : Z) :
  1 <= M < 2 ^ 53 ->
  round64 M 1 = (M * 2 ^ (52 - Z.log2 M), Z.log2 M - 52).
Proof.
  intros [H1 H53]. unfold round64.
  destruct (Z.eqb_spec M 0) as [|_]; [lia|].
  rewrite floorLog2_integer by lia.
  pose proof (Z.log2_nonneg M) as Hl.
  assert (Hl52 : Z.log2 M < 53) by (apply Z.log2_lt_pow2; lia).
  rewrite (Z.max_r (-1074) (Z.log2 M - 52)) by lia.
  rewrite (Z.max_r 0 (- (Z.log2 M - 52))) by lia.
  rewrite (Z.max_l 0 (Z.log2 M - 52)) by lia.
  change (1 * 2 ^ 0) with 1. rewrite roundHalfEven_exact.
  replace (- (Z.log2 M - 52)) with (52 - Z.log2 M) by lia.
  destruct (Z.log2_spec M ltac:(lia)) as [_ Hhi].
  assert (Hlt : M * 2 ^ (52 - Z.log2 M) < 2 ^ 53).
  { replace 53 with (Z.succ (Z.log2 M) + (52 - Z.log2 M)) at 1 by lia.
    rewrite Z.pow_add_r by lia.
    apply Z.mul_lt_mono_pos_r; [apply Z.pow_pos_nonneg; lia|exact Hhi]. }
  destruct (Z.eqb_spec (M * 2 ^ (52 - Z.log2 M)) (2 ^ 53)) as [E|_]; [lia|].
  reflexivity.
Qed.

Lemma compare_scale (x y c : Z) : 0 < c -> (x * c ?= y * c) = (x ?= y).
Proof.
  intros Hc. destruct (Z.compare_spec x y) as [->|H|H].
  - apply Z.compare_refl.
  - apply Z.compare_lt_iff. nia.
  - apply Z.compare_gt_iff. nia.
Qed.

Lemma roundHalfEven_scale (a b c : Z) :
  0 < b -> 0 < c -> roundHalfEven (a * c) (b * c) = roundHalfEven a b.
Proof.
  intros Hb Hc. unfold roundHalfEven.
  rewrite Z.div_mul_cancel_r by lia.
  rewrite Z.mul_mod_distr_r by lia.
  replace (2 * (a mod b * c)) with (2 * (a mod b) * c) by ring.
  now rewrite compare_scale by lia.
Qed.

Lemma round64_pow2_scale (n d j : Z) :
  0 < n -> 0 < d -> 0 <= j ->
  round64 (n * 2 ^ j) (d * 2 ^ j) = round64 n d.
Proof.
  intros Hn Hd Hj.
  assert (Hp : 0 < 2 ^ j) by (apply Z.pow_pos_nonneg; lia).
  assert (Hfl : floorLog2 (n * 2 ^ j) (d * 2 ^ j) = floorLog2 n d).
  { unfold floorLog2. rewrite !Z.log2_mul_pow2 by lia.
    replace (j + Z.log2 n - (j + Z.log2 d)) with (Z.log2 n - Z.log2 d) by lia.
    set (t := Z.log2 n - Z.log2 d).
    replace (d * 2 ^ j * 2 ^ Z.max 0 t) with (d * 2 ^ Z.max 0 t * 2 ^ j) by ring.
    replace (n * 2 ^ j * 2 ^ Z.max 0 (- t))
      with (n * 2 ^ Z.max 0 (- t) * 2 ^ j) by ring.
    destruct (Z.leb_spec (d * 2 ^ Z.max 0 t) (n * 2 ^ Z.max 0 (- t))) as [H|H];
      destruct (Z.leb_spec (d * 2 ^ Z.max 0 t * 2 ^ j)
                           (n * 2 ^ Z.max 0 (- t) * 2 ^ j)) as [H'|H'];
      try reflexivity; nia. }
  unfold round64. rewrite Hfl.
  destruct (Z.eqb_spec (n * 2 ^ j) 0) as [|_]; [nia|].
  destruct (Z.eqb_spec n 0) as [|_]; [lia|].
  set (e := Z.max (-1074) (floorLog2 n d - 52)).
  replace (n * 2 ^ j * 2 ^ Z.max 0 (- e))
    with (n * 2 ^ Z.max 0 (- e) * 2 ^ j) by ring.
  replace (d * 2 ^ j * 2 ^ Z.max 0 e) with (d * 2 ^ Z.max 0 e * 2 ^ j) by ring.
  rewrite roundHalfEven_scale; [reflexivity| |exact Hp].
  apply Z.mul_pos_pos; [exact Hd|apply Z.pow_pos_nonneg; lia].
Qed.

(** From [2^53] on the exponent is positive. *)
Lemma round64_large (c : Z) : 2 ^ 53 <= c -> 1 <= snd (round64 c 1).
Proof.
  intros Hc. unfold round64.
  assert (H0 : 0 < c) by (assert (0 < 2 ^ 53) by reflexivity; lia).
  destruct (Z.eqb_spec c 0) as [|_]; [lia|].
  rewrite floorLog2_integer by exact H0.
  assert (Hl : 53 <= Z.log2 c) by (apply Z.log2_le_pow2; [exact H0|exact Hc]).
  rewrite (Z.max_r (-1074) (Z.log2 c - 52)) by lia.
  match goal with
  | |- context [if ?b then _ else _] => destruct b
  end; cbn [snd]; lia.
Qed.

(** Below [2^53] no other integer has the same binary64 number. *)
Lemma round64_integer_inj (c M : Z) :
  0 <= c -> 1 <= M < 2 ^ 53 -> round64 c 1 = round64 M 1 -> c = M.
Proof.
  intros Hc HM E.
  pose proof (Z.log2_nonneg M) as HlM.
  assert (HlM' : Z.log2 M < 53) by (apply Z.log2_lt_pow2; lia).
  destruct (Z.eq_dec c 0) as [->|Hc0].
  - rewrite (round64_integer M HM) in E.
    change (round64 0 1) with (0, -1074) in E. pose proof (f_equal fst E) as E1. pose proof (f_equal snd E) as E2.
      cbn [fst snd] in E1, E2. lia.
  - destruct (Z.lt_ge_cases c (2 ^ 53)) as [Hlt|Hge].
    + rewrite (round64_integer M HM), (round64_integer c) in E by lia.
      pose proof (f_equal fst E) as E1. pose proof (f_equal snd E) as E2.
      cbn [fst snd] in E1, E2.
      assert (El : Z.log2 c = Z.log2 M) by lia.
      rewrite El in E1.
      apply Z.mul_reg_r in E1; [exact E1|].
      apply Z.pow_nonzero; lia.
    + pose proof (round64_large c Hge) as Hs. rewrite E in Hs.
      rewrite (round64_integer M HM) in Hs. cbn [snd] in Hs. lia.
Qed.

Lemma Zdiv_lt_next (a b : Z) : 0 < b -> a < (a / b + 1) * b.
Proof.
  intros Hb. pose proof (Z.div_mod a b ltac:(lia)).
  pose proof (Z.mod_pos_bound a b Hb). lia.
Qed.

(** Around an integer [M] below [2^53], on a grid of integers: [M]
    itself when it is on the grid, nothing otherwise. *)
Lemma tryDigits_integer (M D e10 : Z) :
  1 <= M < 2 ^ 53 -> 0 < D -> 0 <= e10 ->
  tryDigits (round64 M 1) (M * D) D e10
  = if M mod 10 ^ e10 =? 0 then Some (of_Z M) else None.
Proof.
  intros HM HD He. unfold tryDigits, pow10Q, roundsTo, pow10Q.
  destruct (Z.leb_spec 0 e10) as [_|]; [|lia].
  set (u := 10 ^ e10).
  assert (Hu : 0 < u) by (apply Z.pow_pos_nonneg; lia).
  rewrite Z.mul_1_r.
  replace (M * D / (D * u)) with (M / u)
    by (rewrite (Z.mul_comm M D); now rewrite Z.div_mul_cancel_l by lia).
  set (s := M / u).
  assert (Hs : 0 <= s) by (apply Z.div_pos; lia).
  assert (Hup : same64 (round64 ((s + 1) * u) 1) (round64 M 1) = false).
  { destruct (same64 _ _) eqn:E; [|reflexivity].
    apply same64_true_iff in E. apply round64_integer_inj in E; [|nia|exact HM].
    pose proof (Zdiv_lt_next M u Hu). fold s in H. lia. }
  rewrite Hup.
  pose proof (Z.div_mod M u ltac:(lia)) as Hdm. fold s in Hdm.
  destruct (Z.eqb_spec (M mod u) 0) as [E0|E0].
  - assert (Es : s * u = M) by lia.
    rewrite Es. 
    assert (Hsame : same64 (round64 M 1) (round64 M 1) = true)
      by now apply same64_true_iff.
    rewrite Hsame. unfold decimal.
    destruct (Z.ltb_spec e10 0) as [|_]; [lia|]. cbn [andb].
    destruct (Z.leb_spec 0 e10) as [_|]; [|lia].
    fold u. now rewrite Es.
  - destruct (same64 (round64 (s * u) 1) (round64 M 1)) eqn:E; [|reflexivity].
    apply same64_true_iff in E. apply round64_integer_inj in E; [|nia|exact HM].
    lia.
Qed.

Lemma shortest_from_integer (M D k : Z) (fuel : nat) :
  1 <= M < 2 ^ 53 -> 0 < D ->
  forall n, 1 <= n <= k -> k <= n + Z.of_nat fuel ->
    shortest_from fuel n (round64 M 1) (M * D) D k = of_Z M.
Proof.
  intros HM HD. induction fuel as [|fuel IH]; intros n Hn Hk.
  - cbn [shortest_from]. rewrite tryDigits_integer by lia.
    replace (k - n) with 0 by lia. change (10 ^ 0) with 1.
    now rewrite Z.mod_1_r.
  - cbn [shortest_from]. rewrite tryDigits_integer by lia.
    destruct (Z.eqb_spec (M mod 10 ^ (k - n)) 0) as [_|Hne]; [reflexivity|].
    apply IH; [|lia].
    destruct (Z.eq_dec n k) as [->|]; [|lia].
    rewrite Z.sub_diag in Hne. change (10 ^ 0) with 1 in Hne.
    now rewrite Z.mod_1_r in Hne.
Qed.

Lemma decimalExponent_integer (M D : Z) :
  1 <= M < 10 ^ 16 -> 0 < D -> 1 <= decimalExponent (M * D) D <= 16.
Proof.
  intros HM HD. unfold decimalExponent.
  set (p := Z.max 0 (Z.log2 D - Z.log2 (M * D) + 1)).
  assert (Hp : 0 <= p) by (unfold p; lia).
  replace (M * D * 10 ^ p / D) with (M * 10 ^ p)
    by (replace (M * D * 10 ^ p) with (M * 10 ^ p * D) by ring;
        now rewrite Z.div_mul by lia).
  assert (H10 : 0 < 10 ^ p) by (apply Z.pow_pos_nonneg; lia).
  assert (Hw : 1 <= M * 10 ^ p < 10 ^ Z.of_nat 800).
  { split; [nia|].
    assert (Hp' : p <= 600).
    { unfold p. pose proof (Z.log2_nonneg (M * D)).
      assert (Z.log2 D <= Z.log2 (M * D)) by (apply Z.log2_le_mono; nia).
      lia. }
    apply Z.lt_le_trans with (10 ^ 16 * 10 ^ p); [nia|].
    rewrite <- Z.pow_add_r by lia. apply Z.pow_le_mono_r; lia. }
  destruct (log10_from_spec 800 _ Hw) as (H0 & Hlo & Hhi).
  set (l := log10_from 800 (M * 10 ^ p)) in *.
  assert (p < l + 1).
  { apply (Z.pow_lt_mono_r_iff 10); [lia|lia|]. nia. }
  assert (l < p + 16).
  { apply (Z.pow_lt_mono_r_iff 10); [lia|lia|].
    rewrite Z.pow_add_r by lia. nia. }
  lia.
Qed.

(** The shortest decimal of an integer below [2^53] is the integer. *)
Lemma ofBinary64_integer (M : Z) :
  1 <= M < 2 ^ 53 -> ofBinary64 (round64 M 1) = Finite (of_Z M).
Proof.
  intros HM. pose proof (round64_integer M HM) as E.
  pose proof (Z.log2_nonneg M) as Hl.
  assert (Hl' : Z.log2 M < 53) by (apply Z.log2_lt_pow2; lia).
  unfold ofBinary64. rewrite E at 1.
  assert (Hpos : 0 < 2 ^ (52 - Z.log2 M)) by (apply Z.pow_pos_nonneg; lia).
  destruct (Z.eqb_spec (M * 2 ^ (52 - Z.log2 M)) 0) as [|_]; [nia|].
  destruct (Z.ltb_spec 971 (Z.log2 M - 52)) as [|_]; [lia|].
  rewrite (Z.max_l 0 (Z.log2 M - 52)) by lia.
  rewrite (Z.max_r 0 (- (Z.log2 M - 52))) by lia.
  replace (- (Z.log2 M - 52)) with (52 - Z.log2 M) by lia.
  change (2 ^ 0) with 1. rewrite Z.mul_1_r.
  f_equal. apply shortest_from_integer; [exact HM|exact Hpos| |].
  - assert (H16 : 2 ^ 53 < 10 ^ 16) by reflexivity.
    pose proof (decimalExponent_integer M (2 ^ (52 - Z.log2 M))
                  ltac:(lia) Hpos). lia.
  - assert (H16 : 2 ^ 53 < 10 ^ 16) by reflexivity.
    pose proof (decimalExponent_integer M (2 ^ (52 - Z.log2 M))
                  ltac:(lia) Hpos). cbn [Z.of_nat]. lia.
Qed.

(** [Number] of an integer of magnitude [2^53] at most is the
    integer. *)
Lemma toNumber_integer (z : Z) :
  Z.abs z <= 2 ^ 53 -> toNumber (of_Z z) = Finite (of_Z z).
Proof.
  intros Hz. unfold toNumber, toBinary64. cbn [of_Z mant decimals].
  change (pow10 0) with 1.
  assert (Habs : ofBinary64 (round64 (Z.abs z) 1) = Finite (of_Z (Z.abs z))).
  { destruct (Z.eq_dec (Z.abs z) 0) as [->|H0]; [reflexivity|].
    destruct (Z.eq_dec (Z.abs z) (2 ^ 53)) as [->|H53];
      [vm_compute; reflexivity|].
    apply ofBinary64_integer. lia. }
  rewrite Habs. destruct (Z.ltb_spec z 0) as [Hneg|Hpos].
  - cbn [opposite of_Z mant decimals]. unfold of_Z. do 2 f_equal. lia.
  - unfold of_Z. do 2 f_equal. lia.
Qed.

(** The product by 100 of an integer is exact as long as it is
    [2^53] at most. *)
Lemma mul_pow100_integer (N : Z) :
  0 <= N -> 100 * N <= 2 ^ 53 ->
  mul_pow100 (of_Z N) 1 = Finite (of_Z (100 * N)).
Proof.
  intros H0 H53. destruct (Z.eq_dec N 0) as [->|Hne]; [reflexivity|].
  assert (HN : 1 <= N < 2 ^ 53) by lia.
  assert (H100 : 1 <= 100 * N < 2 ^ 53).
  { split; [lia|]. destruct (Z.eq_dec (100 * N) (2 ^ 53)) as [E|]; [|lia].
    exfalso. assert (Hm : (100 * N) mod 100 = 0)
      by (rewrite Z.mul_comm; apply Z.mod_mul; lia).
    rewrite E in Hm. vm_compute in Hm. discriminate. }
  unfold mul_pow100, toBinary64. cbn [of_Z mant decimals].
  change (round64 (100 ^ Z.of_nat 1) 1) with (100 * 2 ^ 46, -46).
  change (pow10 0) with 1. rewrite Z.abs_eq by lia.
  rewrite (round64_integer N HN).
  pose proof (Z.log2_nonneg N) as Hl.
  assert (Hl' : Z.log2 N < 53) by (apply Z.log2_lt_pow2; lia).
  assert (Hpos : 0 < 2 ^ (52 - Z.log2 N)) by (apply Z.pow_pos_nonneg; lia).
  destruct (Z.ltb_spec N 0) as [|_]; [lia|].
  destruct (Z.eqb_spec (N * 2 ^ (52 - Z.log2 N)) 0) as [|_]; [nia|].
  destruct (Z.ltb_spec 971 (-46)) as [|_]; [lia|].
  destruct (Z.ltb_spec 971 (Z.log2 N - 52)) as [|_]; [lia|].
  cbn [orb].
  rewrite (Z.max_l 0 (Z.log2 N - 52 + -46)) by lia.
  rewrite (Z.max_r 0 (- (Z.log2 N - 52 + -46))) by lia.
  change (2 ^ 0) with 1. rewrite Z.mul_1_r.
  replace (N * 2 ^ (52 - Z.log2 N) * (100 * 2 ^ 46))
    with (100 * N * 2 ^ (- (Z.log2 N - 52 + -46))).
  2:{ replace (- (Z.log2 N - 52 + -46)) with (52 - Z.log2 N + 46) by lia.
      rewrite Z.pow_add_r by lia. ring. }
  rewrite <- (Z.mul_1_l (2 ^ (- (Z.log2 N - 52 + -46)))) at 2.
  rewrite round64_pow2_scale by lia.
  now rewrite ofBinary64_integer by exact H100.
Qed.

End Binary64Facts.

(** ** Numbers written in brackets *)

Module ConditionFacts.

Import Tokenizer Notions MoreNotions StrFacts.

(** Evaluates the code of a digit character in the goal. *)
Ltac digit_code :=
  match goal with
  | |- context [Z.of_nat (nat_of_ascii ?c)] =>
      let v := eval vm_compute in (Z.of_nat (nat_of_ascii c)) in
      change (Z.of_nat (nat_of_ascii c)) with v
  end.

Lemma digits_value_acc (d : Decimal.uint) :
  forall acc : positive,
    digits_value (Z.pos acc) (NilEmpty.string_of_uint d)
    = Z.pos (Pos.of_uint_acc d acc).
Proof.
  induction d; intros acc;
    cbn [NilEmpty.string_of_uint digits_value Pos.of_uint_acc];
    [reflexivity|rewrite <- IHd; f_equal; digit_code; lia ..].
Qed.

Lemma digits_value_uint (d : Decimal.uint) :
  digits_value 0 (NilEmpty.string_of_uint d) = Z.of_N (Pos.of_uint d).
Proof.
  induction d; cbn [NilEmpty.string_of_uint digits_value Pos.of_uint];
    [reflexivity|exact IHd|apply (digits_value_acc d) ..].
Qed.

(** Reading back the digits of a number gives the number. *)
Lemma digits_value_digits (n : N) : digits_value 0 (JsNumber.digits n) = Z.of_N n.
Proof.
  unfold JsNumber.digits.
  rewrite <- (DecimalN.Unsigned.of_to n) at 2. unfold N.of_uint.
  destruct (N.to_uint n); try apply (digits_value_uint (_ _)).
  reflexivity.
Qed.

Lemma digits_head (n : N) :
  exists c s', JsNumber.digits n = String c s' /\ Str.isDigit c = true
               /\ Str.forallb Str.isDigit s' = true.
Proof.
  pose proof (digits_isDigit n) as H.
  assert (Hne : JsNumber.digits n <> EmptyString)
    by (unfold JsNumber.digits; now destruct (N.to_uint n)).
  destruct (JsNumber.digits n) as [|c s']; [contradiction|].
  cbn in H. apply andb_prop in H as [Hc Hs]. now exists c, s'.
Qed.

Lemma skipDigits_all (s : string) :
  Str.forallb Str.isDigit s = true -> skipDigits s = EmptyString.
Proof.
  induction s as [|c s IH]; [reflexivity|]. cbn.
  intros H. apply andb_prop in H as [-> Hs]. auto.
Qed.

(** A string that starts with a digit is not taken for a negative
    number. *)
Lemma matchNumber_digit (c : ascii) (s : string) :
  Str.isDigit c = true ->
  matchNumber (String c s)
  = match skipDigits s with
    | EmptyString => true
    | String "." r =>
        match digits1 r with Some EmptyString => true | _ => false end
    | _ => false
    end.
Proof.
  intros H. unfold matchNumber, digits1.
  destruct c as [[] [] [] [] [] [] [] []];
    try (cbn in H; discriminate H); reflexivity.
Qed.

Lemma written_digit (c : ascii) (s : string) :
  Str.isDigit c = true ->
  written (String c s)
  = mkNumber
      (digits_value 0
         (nth 0 (Str.split "." (String c s)) EmptyString
          ++ nth 1 (Str.split "." (String c s)) EmptyString))
      (String.length (nth 1 (Str.split "." (String c s)) EmptyString)).
Proof.
  intros H. unfold written.
  destruct c as [[] [] [] [] [] [] [] []];
    try (cbn in H; discriminate H); reflexivity.
Qed.

Lemma matchNumber_decimalString (z : Z) : matchNumber (decimalString z) = true.
Proof.
  unfold decimalString.
  destruct (digits_head (Z.to_N (Z.abs z))) as (c & s' & -> & Hc & Hs).
  destruct (z <? 0)%Z.
  - cbn [append].
    change (matchNumber (String "-" (String c s')))
      with (match digits1 (String c s') with
            | Some EmptyString => true
            | Some (String "." r) =>
                match digits1 r with Some EmptyString => true | _ => false end
            | _ => false
            end).
    cbn [digits1]. now rewrite Hc, skipDigits_all.
  - cbn [append]. rewrite matchNumber_digit by exact Hc.
    now rewrite skipDigits_all.
Qed.

Lemma written_digits (n : N) : written (JsNumber.digits n) = of_Z (Z.of_N n).
Proof.
  pose proof (digits_value_digits n) as Hv.
  pose proof (digits_noDot n) as Hd.
  destruct (digits_head n) as (c & s' & E & Hc & _). rewrite E in *.
  rewrite written_digit by exact Hc.
  rewrite split_noChar by exact Hd. cbn [nth String.length].
  now rewrite append_empty_r, Hv.
Qed.

(** The plain decimal string of an integer writes the integer. *)
Lemma written_decimalString (z : Z) : written (decimalString z) = of_Z z.
Proof.
  unfold decimalString. destruct (Z.ltb_spec z 0) as [Hneg|Hpos].
  - pose proof (written_digits (Z.to_N (Z.abs z))) as H.
    pose proof (digits_noDot (Z.to_N (Z.abs z))) as Hd.
    pose proof (digits_value_digits (Z.to_N (Z.abs z))) as Hv.
    unfold written. cbn [append].
    rewrite split_noChar by exact Hd. cbn [nth String.length].
    rewrite append_empty_r, Hv. unfold of_Z. f_equal. lia.
  - cbn [append]. rewrite written_digits. f_equal. lia.
Qed.

(** [Number] reads back the integer that was written, up to [2^53]. *)
Lemma ofString_decimalString (z : Z) :
  (Z.abs z <= 2 ^ 53)%Z -> ofString (decimalString z) = Finite (of_Z z).
Proof.
  intros Hz. unfold ofString. rewrite written_decimalString.
  now apply Binary64Facts.toNumber_integer.
Qed.

(** *** Brackets *)

Lemma readBracket_loop_closed (content : string) :
  noChar "]" content = true ->
  forall acc r,
    readBracket_loop (content ++ String "]" r) acc
    = (acc ++ content, String "]" r).
Proof.
  induction content as [|c content IH]; intros H acc r.
  - cbn. now rewrite append_empty_r.
  - cbn in H. apply andb_prop in H as [Hc H]. apply negb_true_iff in Hc.
    cbn [append readBracket_loop]. rewrite Hc, IH by exact H.
    now rewrite append_assoc.
Qed.

Lemma readBracket_loop_open (content : string) :
  noChar "]" content = true ->
  forall acc, readBracket_loop content acc = (acc ++ content, EmptyString).
Proof.
  induction content as [|c content IH]; intros H acc.
  - cbn. now rewrite append_empty_r.
  - cbn in H. apply andb_prop in H as [Hc H]. apply negb_true_iff in Hc.
    cbn [readBracket_loop]. rewrite Hc, IH by exact H.
    now rewrite append_assoc.
Qed.

(** A number does not start with [=] or [>]. *)
Lemma matchNumber_head (c : ascii) (s : string) :
  matchNumber (String c s) = true ->
  Ascii.eqb c "=" = false /\ Ascii.eqb c ">" = false.
Proof.
  intros H. split.
  - destruct (Ascii.eqb c "=") eqn:E; [|reflexivity].
    apply Ascii.eqb_eq in E. subst c. discriminate H.
  - destruct (Ascii.eqb c ">") eqn:E; [|reflexivity].
    apply Ascii.eqb_eq in E. subst c. discriminate H.
Qed.

(** Each of the six operators, followed by a number, is matched as that
    operator and that number. *)
Lemma condMatch_condOps (o num : string) :
  In o condOps -> matchNumber num = true ->
  condMatch condOps (o ++ num) = Some (o, num).
Proof.
  intros Hin Hnum. destruct num as [|c n']; [discriminate Hnum|].
  destruct (matchNumber_head c n' Hnum) as [E1 E2].
  unfold condOps in *. cbn [In] in Hin.
  destruct Hin as [<-|[<-|[<-|[<-|[<-|[<-|[]]]]]]];
    cbn [condMatch append String.length Str.drop];
    rewrite !TokenizeMore.prefix_cons, ?E1, ?E2;
    cbn -[matchNumber]; now rewrite Hnum.
Qed.

End ConditionFacts.

(** ** The parser *)

Module ParseMore.

Import Parser Renderer Notions MoreNotions.

(** A turn of the loop leaves the sections as they are, or pushes the
    current one and starts an empty one. *)
Lemma parse_token_sections prevTk tk after secs sec :
  fst (parse_token prevTk tk after (secs, sec)) = secs
  \/ (fst (parse_token prevTk tk after (secs, sec)) = (secs ++ [sec])%list
      /\ snd (parse_token prevTk tk after (secs, sec)) = emptySection).
Proof.
  destruct tk; cbn; auto.
  destruct (hasType prevTk "Placeholder").
  - destruct (hasType (hd_error after) "Placeholder"); cbn; auto.
    destruct (existsb _ after); cbn; auto.
  - destruct (hasType prevTk "Literal"); cbn; auto.
Qed.

(** A property of sections that holds of the empty section and that
    every turn of the loop keeps, for tokens that satisfy [Q], holds of
    every section of the AST. *)
Section Invariant.

Variable P : FormatSection -> Prop.
Variable Q : Tokenizer.Token -> Prop.
Hypothesis P_empty : P emptySection.
Hypothesis P_step :
  forall prevTk tk after secs sec,
    Q tk -> P sec -> P (snd (parse_token prevTk tk after (secs, sec))).

Lemma parse_loop_Forall (tokens : list Tokenizer.Token) :
  forall prevTk secs sec,
    Forall Q tokens -> Forall P secs -> P sec ->
    Forall P (fst (parse_loop prevTk tokens (secs, sec)))
    /\ P (snd (parse_loop prevTk tokens (secs, sec))).
Proof.
  induction tokens as [|tk after IH]; intros prevTk secs sec HQ Hs Hc.
  - now split.
  - cbn [parse_loop]. inversion HQ as [|? ? Htk Hafter]; subst.
    pose proof (P_step prevTk tk after secs sec Htk Hc) as Hstep.
    destruct (parse_token_sections prevTk tk after secs sec) as [E|[E E']].
    + destruct (parse_token prevTk tk after (secs, sec)) as [ss s].
      cbn [fst snd] in *. subst ss. now apply IH.
    + destruct (parse_token prevTk tk after (secs, sec)) as [ss s].
      cbn [fst snd] in *. subst ss s. apply IH; auto.
      apply Forall_app. split; auto.
Qed.

Lemma parse_Forall (tokens : list Tokenizer.Token) :
  Forall Q tokens -> Forall P (sections (parse tokens)).
Proof.
  intros HQ. unfold parse.
  destruct (parse_loop_Forall tokens None [] emptySection HQ
              (Forall_nil _) P_empty) as [Hs Hc].
  destruct (parse_loop None tokens ([], emptySection)) as [ss s].
  cbn [fst snd] in *. destruct (parts s); cbn [sections]; [exact Hs|].
  apply Forall_app. split; auto.
Qed.

End Invariant.

Lemma Forall_True {A : Type} (l : list A) : Forall (fun _ => True) l.
Proof. induction l; constructor; auto. Qed.

(** *** Percent signs *)

Lemma countKind_app k ps qs :
  countKind k (ps ++ qs) = countKind k ps + countKind k qs.
Proof. unfold countKind. now rewrite filter_app, length_app. Qed.

Lemma countKind_literals k cs :
  k <> Literal ->
  countKind k (map (fun c => mkPart (Some Literal) (Some c)) cs) = 0.
Proof.
  intros Hk. induction cs as [|c cs IH]; [reflexivity|].
  unfold countKind in *. cbn [map filter].
  destruct k; try contradiction; cbn; exact IH.
Qed.

Lemma countKind_placeholder c :
  countKind Percent [mkPart (placeholderKind c) None] = 0.
Proof.
  destruct c as [c|]; [|reflexivity]. unfold placeholderKind.
  repeat match goal with
         | |- context [String.eqb ?a ?b] => destruct (String.eqb a b)
         end; reflexivity.
Qed.

Lemma percentCounted_push s ps :
  percentCounted s -> countKind Percent ps = 0 ->
  percentCounted (push_parts s ps).
Proof.
  unfold percentCounted. cbn [push_parts percentCount parts].
  intros H H0. now rewrite countKind_app, H0, Nat.add_0_r.
Qed.

Lemma percentCounted_step prevTk tk after secs sec :
  percentCounted sec ->
  percentCounted (snd (parse_token prevTk tk after (secs, sec))).
Proof.
  intros H.
  destruct tk; cbn -[percentCounted push_parts placeholderKind]; auto.
  - (* SectionSeparator *)
    reflexivity.
  - (* ThousandSep *)
    destruct (hasType prevTk "Placeholder").
    + destruct (hasType (hd_error after) "Placeholder"); cbn -[percentCounted];
        auto.
      destruct (existsb _ after); cbn -[percentCounted]; auto.
    + destruct (hasType prevTk "Literal"); cbn -[percentCounted push_parts];
        auto.
      now apply percentCounted_push.
  - (* Percent *)
    unfold percentCounted in *. cbn [push_parts set_percentCount percentCount
                                      parts].
    rewrite countKind_app, H. cbn [countKind filter kindIs kind
                                    FormatPartKind_eqb List.length].
    rewrite (Nat.add_1_r (countKind Percent (parts sec))).
    destruct (countKind Percent (parts sec)); f_equal; lia.
  - (* Placeholder *)
    apply percentCounted_push; auto. apply countKind_placeholder.
  - (* Literal *)
    now apply percentCounted_push.
  - (* Quoted *)
    apply percentCounted_push; auto. now apply countKind_literals.
Qed.

(** *** Parts, colors and operators of tokenized formats *)

Lemma wellFormedParts_push s ps :
  wellFormedParts s = true -> forallb wellFormedPart ps = true ->
  wellFormedParts (push_parts s ps) = true.
Proof.
  unfold wellFormedParts. cbn [push_parts parts]. intros H1 H2.
  now rewrite forallb_app, H1, H2.
Qed.

Lemma wellFormedPart_chars (t : string) :
  forallb wellFormedPart
    (map (fun c => mkPart (Some Literal) (Some c)) (chars t)) = true.
Proof. induction t as [|c t IH]; [reflexivity|exact IH]. Qed.

Lemma wellFormedParts_step prevTk tk after secs sec :
  wellFormedToken tk = true ->
  wellFormedParts sec = true ->
  wellFormedParts (snd (parse_token prevTk tk after (secs, sec))) = true.
Proof.
  intros Htk H.
  destruct tk; cbn -[wellFormedParts push_parts placeholderKind]; auto.
  - (* ThousandSep *)
    destruct (hasType prevTk "Placeholder").
    + destruct (hasType (hd_error after) "Placeholder");
        cbn -[wellFormedParts]; auto.
      destruct (existsb _ after); cbn -[wellFormedParts]; auto.
    + destruct (hasType prevTk "Literal");
        cbn -[wellFormedParts push_parts]; auto.
      now apply wellFormedParts_push.
  - (* Percent *)
    now apply wellFormedParts_push.
  - (* Placeholder *)
    apply wellFormedParts_push; auto.
    cbn [wellFormedToken existsb] in Htk. unfold placeholderKind.
    destruct (String.eqb char0 "0"); [reflexivity|].
    destruct (String.eqb char0 "#"); [reflexivity|].
    destruct (String.eqb char0 "?"); [reflexivity|discriminate Htk].
  - (* Literal *)
    apply wellFormedParts_push; auto.
    cbn [wellFormedToken] in Htk.
    destruct char0 as [|a [|b rest]]; try discriminate Htk. reflexivity.
  - (* Quoted *)
    apply wellFormedParts_push; auto. apply wellFormedPart_chars.
Qed.

Lemma knownColor_step prevTk tk after secs sec :
  wellFormedToken tk = true ->
  knownColor (Parser.color sec) = true ->
  knownColor (Parser.color (snd (parse_token prevTk tk after (secs, sec))))
  = true.
Proof.
  intros Htk H. destruct tk; cbn -[knownColor]; auto.
  destruct (hasType prevTk "Placeholder").
  - destruct (hasType (hd_error after) "Placeholder"); cbn -[knownColor]; auto.
    destruct (existsb _ after); cbn -[knownColor]; auto.
  - destruct (hasType prevTk "Literal"); cbn -[knownColor]; auto.
Qed.

Lemma knownOperator_step prevTk tk after secs sec :
  wellFormedToken tk = true ->
  knownOperator sec = true ->
  knownOperator (snd (parse_token prevTk tk after (secs, sec))) = true.
Proof.
  intros Htk H. destruct tk; cbn -[knownOperator]; auto.
  destruct (hasType prevTk "Placeholder").
  - destruct (hasType (hd_error after) "Placeholder");
      cbn -[knownOperator]; auto.
    destruct (existsb _ after); cbn -[knownOperator]; auto.
  - destruct (hasType prevTk "Literal"); cbn -[knownOperator]; auto.
Qed.

Lemma tokenize_Forall_wellFormed (format : string) :
  Forall (fun tk => wellFormedToken tk = true) (Tokenizer.tokenize format).
Proof.
  apply Forall_forall. intros tk Hin.
  pose proof (TokenizeMore.tokenize_wellFormed format) as H.
  rewrite forallb_forall in H. now apply H.
Qed.

(** *** Tokens that add no part *)

Lemma parse_token_partless prevTk tk after sec :
  partless tk = true -> partlessBefore prevTk = true ->
  fst (parse_token prevTk tk after ([], sec)) = []
  /\ parts (snd (parse_token prevTk tk after ([], sec))) = parts sec.
Proof.
  intros Htk Hprev.
  assert (Hph : hasType prevTk "Placeholder" = false)
    by (destruct prevTk as [[]|]; try reflexivity; discriminate Hprev).
  assert (Hlit : hasType prevTk "Literal" = false)
    by (destruct prevTk as [[]|]; try reflexivity; discriminate Hprev).
  destruct tk; try discriminate Htk; cbn; auto.
  now rewrite Hph, Hlit.
Qed.

Lemma parse_loop_partless (tokens : list Tokenizer.Token) :
  forall prevTk sec,
    forallb partless tokens = true -> partlessBefore prevTk = true ->
    parts sec = [] ->
    fst (parse_loop prevTk tokens ([], sec)) = []
    /\ parts (snd (parse_loop prevTk tokens ([], sec))) = [].
Proof.
  induction tokens as [|tk after IH]; intros prevTk sec Hall Hprev Hparts.
  - now split.
  - cbn [forallb] in Hall. apply andb_prop in Hall as [Htk Hall].
    cbn [parse_loop].
    destruct (parse_token_partless prevTk tk after sec Htk Hprev) as [E1 E2].
    destruct (parse_token prevTk tk after ([], sec)) as [ss s].
    cbn [fst snd] in *. subst ss. apply IH; auto. congruence.
Qed.

(** *** A separator at the end *)

Lemma parse_token_before_separator prevTk tk after st :
  parse_token prevTk tk (after ++ [Tokenizer.SectionSeparator]) st
  = parse_token prevTk tk after st.
Proof.
  destruct st as [secs sec]. unfold parse_token.
  rewrite existsb_app. cbn [existsb Tokenizer.type String.eqb Ascii.eqb
                             Bool.eqb orb].
  rewrite orb_false_r.
  destruct after; reflexivity.
Qed.

Lemma parse_loop_separator_last (tokens : list Tokenizer.Token) :
  forall prevTk st,
    parse_loop prevTk (tokens ++ [Tokenizer.SectionSeparator]) st
    = ((fst (parse_loop prevTk tokens st)
        ++ [snd (parse_loop prevTk tokens st)])%list,
       emptySection).
Proof.
  induction tokens as [|tk after IH]; intros prevTk [secs sec].
  - reflexivity.
  - cbn [app parse_loop]. rewrite parse_token_before_separator. apply IH.
Qed.

Lemma separators_snoc (tokens : list Tokenizer.Token) :
  separators (tokens ++ [Tokenizer.SectionSeparator])
  = separators tokens + 1.
Proof. unfold separators. now rewrite filter_app, length_app. Qed.

(** *** The section selected *)

Lemma firstMatching_In (l : list FormatSection) (v : number) s :
  firstMatching l v = Some s -> In s l.
Proof.
  induction l as [|x l IH]; cbn [firstMatching]; [discriminate|].
  destruct (condition x) as [c|].
  - destruct (evaluateCondition c v).
    + intros [= <-]. now left.
    + intros H. right. auto.
  - intros H. right. auto.
Qed.

Lemma selectSection_In (ast : FormatAST) (value : Value) s :
  selectSection ast value = Some s -> In s (sections ast).
Proof.
  unfold selectSection.
  assert (Hnth : forall i, nth_error (sections ast) i = Some s ->
                           In s (sections ast))
    by (intros i; apply nth_error_In).
  destruct (List.length (sections ast) =? 1)%nat; [apply Hnth|].
  destruct (0 <? List.length (filter hasCondition (sections ast)))%nat,
    value as [str|numValue].
  all: repeat match goal with
         | |- context [if ?b then _ else _] => destruct b
         end; try (apply Hnth); try discriminate.
  - destruct (firstMatching _ numValue) as [x|] eqn:E.
    + intros [= <-]. apply firstMatching_In in E.
      now apply filter_In in E.
    + intros H. apply nth_error_In in H. now apply filter_In in H.
  - destruct (firstMatching _ numValue) as [x|] eqn:E; [|discriminate].
    intros [= <-]. apply firstMatching_In in E. now apply filter_In in E.
Qed.

End ParseMore.

(** ** The integer side, with padding and grouping *)

Module IntegerMore.

Import Parser Renderer Notions MoreNotions StrFacts.

Lemma grouped_app (g : bool) (l1 l2 : list string) :
  forall j, grouped g j (l1 ++ l2)
            = (grouped g j l1 ++ grouped g (j + List.length l1) l2)%list.
Proof.
  induction l1 as [|c l1 IH]; intros j; cbn [app grouped List.length].
  - now rewrite Nat.add_0_r.
  - rewrite IH, <- app_assoc. do 3 f_equal. lia.
Qed.

Lemma grouped_off (l : list string) : forall j, grouped false j l = l.
Proof. induction l as [|c l IH]; intros j; cbn; [|rewrite IH]; reflexivity. Qed.

Section Loop.

Variable integerStr : string.
Variable section : FormatSection.
Variable pad : nat.

Let g : bool := truthy (thousandSeparator section).
Local Notation "'L'" := (String.length integerStr).
Let R' : list string := paddedFromRight integerStr pad.

Lemma pushDigit_emit (c : string) (st : IntState) :
  pushDigit section c st
  = mkIntState (digitIndex st) (result st ++ emit g (digits st) c)
               (S (digits st)).
Proof.
  unfold pushDigit, emit, push. fold g.
  destruct (g && (0 <? digits st)%nat && (digits st mod 3 =? 0)%nat);
    cbn [digitIndex result digits]; [now rewrite <- app_assoc|reflexivity].
Qed.

Lemma nth_error_padded (j : nat) :
  j < L + pad ->
  nth_error R' j
  = Some (match nth_error (List.rev (chars integerStr)) j with
          | Some d => d
          | None => "0"
          end).
Proof.
  intros Hj. unfold R', paddedFromRight.
  assert (HL : List.length (List.rev (chars integerStr)) = L)
    by (now rewrite length_rev, length_chars).
  destruct (Nat.lt_ge_cases j L) as [Hlt|Hge].
  - rewrite nth_error_app1 by lia.
    destruct (nth_error (List.rev (chars integerStr)) j) eqn:E; [reflexivity|].
    apply nth_error_None in E. lia.
  - rewrite nth_error_app2 by lia.
    assert (nth_error (List.rev (chars integerStr)) j = None) as ->
      by (apply nth_error_None; lia).
    rewrite nth_error_repeat by lia. reflexivity.
Qed.

(** Writing the digit number [j] moves the state forward. *)
Lemma afterDigits_push (j : nat) (st : IntState) (c : string) :
  afterDigits integerStr g pad j st ->
  nth_error R' j = Some c ->
  afterDigits integerStr g pad (S j)
    (pushDigit section c
       (mkIntState (digitIndex st - 1) (result st) (digits st))).
Proof.
  intros (Hi & Hd & Hr) Hc. rewrite pushDigit_emit.
  unfold afterDigits. cbn [digitIndex result digits]. repeat split.
  - lia.
  - now rewrite Hd.
  - fold R' in Hr |- *. rewrite firstn_succ, Hc, grouped_app, Hr, Hd.
    cbn [grouped]. rewrite app_nil_r.
    rewrite length_firstn, Nat.min_l; [reflexivity|].
    apply Nat.lt_le_incl. apply nth_error_Some. congruence.
Qed.

(** A placeholder that finds a digit writes it; a [0] that finds none
    writes a zero. *)
Lemma placeholder_step (part : FormatPart) (lastDigitIndex index : Z)
    (j : nat) (st : IntState) :
  isPlaceholder part = true ->
  j < L \/ (kindIs part ZeroDigit = true /\ j < L + pad) ->
  afterDigits integerStr g pad j st ->
  index <> lastDigitIndex ->
  afterDigits integerStr g pad (S j)
    (formatIntegerPart_step integerStr section lastDigitIndex index part st).
Proof.
  intros Hp Hj Hst Hneq. unfold formatIntegerPart_step, nextInt.
  rewrite Hp. destruct (Z.eqb_spec index lastDigitIndex) as [|_];
    [contradiction|].
  destruct Hst as (Hi & Hd & Hr).
  rewrite Hi, charAt_from_right.
  assert (Hst : afterDigits integerStr g pad j st) by (repeat split; auto).
  rewrite <- Hi.
  destruct (nth_error (List.rev (chars integerStr)) j) as [d|] eqn:E.
  - apply afterDigits_push; auto.
    rewrite nth_error_padded, E; [reflexivity|].
    assert (j < List.length (List.rev (chars integerStr)))
      by (apply nth_error_Some; congruence).
    rewrite length_rev, length_chars in H. lia.
  - apply nth_error_None in E. rewrite length_rev, length_chars in E.
    destruct Hj as [Hj|[Hz Hj]]; [lia|]. rewrite Hz.
    apply afterDigits_push; auto.
    rewrite nth_error_padded by exact Hj.
    assert (nth_error (List.rev (chars integerStr)) j = None) as ->
      by (apply nth_error_None; rewrite length_rev, length_chars; exact E).
    reflexivity.
Qed.

(** The flush writes the digits that are left. *)
Lemma flushInt_rest (n : nat) :
  forall (j : nat) (st : IntState),
    afterDigits integerStr g pad j st ->
    n = Z.to_nat (digitIndex st + 1) ->
    exists j',
      afterDigits integerStr g pad j' (flushInt n integerStr section st)
      /\ j <= j' /\ L <= j'.
Proof.
  induction n as [|n IH]; intros j st Hst Hn; cbn [flushInt].
  - exists j. destruct Hst as (Hi & Hd & Hr). repeat split; auto. lia.
  - assert (Hi := proj1 Hst).
    unfold hasMoreInt, nextInt.
    destruct (Z.leb_spec 0 (digitIndex st)) as [_|]; [|lia].
    rewrite Hi, charAt_from_right, <- Hi.
    assert (Hj : j < L) by lia.
    destruct (nth_error (List.rev (chars integerStr)) j) as [d|] eqn:E.
    + destruct (IH (S j)
                  (pushDigit section d
                     (mkIntState (digitIndex st - 1) (result st) (digits st))))
        as (j' & H' & Hle & HL).
      * apply afterDigits_push; auto.
        rewrite nth_error_padded, E by lia. reflexivity.
      * rewrite pushDigit_emit. cbn [digitIndex]. lia.
      * exists j'. split; [exact H'|split; [lia|exact HL]].
    + apply nth_error_None in E. rewrite length_rev, length_chars in E. lia.
Qed.

(** The loop over a run of placeholders, the last of which is the last
    placeholder of the format. *)
Lemma placeholders_loop (l : list FormatPart) :
  forall (index : Z) (j : nat) (st : IntState),
    l <> [] ->
    Forall (fun part =>
              isPlaceholder part = true
              /\ (pad = 0 \/ kindIs part ZeroDigit = true)) l ->
    (pad = 0 -> j + List.length l <= L) ->
    (pad <> 0 -> j + List.length l = L + pad) ->
    afterDigits integerStr g pad j st ->
    result (formatIntegerPart_loop integerStr section
              (index + Z.of_nat (List.length l) - 1)%Z index l st)
    = grouped g 0 R'.
Proof.
  induction l as [|part l IH]; intros index j st Hne Hall H0 Hpad Hst;
    [contradiction|].
  inversion Hall as [|? ? [Hp Hz] Hall']; subst.
  assert (Hj : j < L \/ (kindIs part ZeroDigit = true /\ j < L + pad)).
  { cbn [List.length] in *. destruct (Nat.eq_dec pad 0) as [E|E].
    - left. specialize (H0 E). lia.
    - destruct Hz as [|Hz]; [contradiction|]. specialize (Hpad E).
      right. split; [exact Hz|lia]. }
  destruct l as [|part' l'].
  - (* the last placeholder: its digit, then the flush *)
    cbn [List.length formatIntegerPart_loop]. clear IH.
    pose proof (placeholder_step part (index + 1) index j st Hp Hj Hst
                  ltac:(lia)) as Hnext.
    replace (index + Z.of_nat 1 - 1)%Z with index by lia.
    unfold formatIntegerPart_step in *. rewrite Hp in *.
    destruct (nextInt integerStr st) as [digit st1].
    destruct (Z.eqb_spec index (index + 1)) as [|_]; [lia|].
    rewrite Z.eqb_refl.
    match goal with
    | |- context [flushInt ?n _ _ ?s] =>
        destruct (flushInt_rest n (S j) s Hnext eq_refl)
          as (j' & (_ & _ & Hr) & Hle & HL)
    end.
    rewrite Hr. f_equal. fold R'. apply firstn_all2.
    unfold R', paddedFromRight.
    rewrite length_app, length_rev, length_chars, repeat_length.
    cbn [List.length] in *. destruct (Nat.eq_dec pad 0) as [E|E]; [lia|].
    specialize (Hpad E). lia.
  - cbn [formatIntegerPart_loop].
    replace (index + Z.of_nat (List.length (part :: part' :: l')) - 1)%Z
      with (index + 1 + Z.of_nat (List.length (part' :: l')) - 1)%Z
      by (cbn [List.length]; lia).
    apply (IH (index + 1)%Z (S j)); auto; try discriminate.
    + intros E. specialize (H0 E). cbn [List.length] in *. lia.
    + intros E. specialize (Hpad E). cbn [List.length] in *. lia.
    + apply placeholder_step; auto. cbn [List.length]. lia.
Qed.

(** Placeholders that all find a digit and are followed by other
    placeholders. *)
Lemma placeholders_before_last (l : list FormatPart) :
  forall (lastDigitIndex index : Z) (j : nat) (st : IntState),
    forallb isPlaceholder l = true ->
    j + List.length l <= L ->
    (index + Z.of_nat (List.length l) <= lastDigitIndex)%Z ->
    afterDigits integerStr g pad j st ->
    afterDigits integerStr g pad (j + List.length l)
      (formatIntegerPart_loop integerStr section lastDigitIndex index l st).
Proof.
  induction l as [|part l IH]; intros last index j st Hall Hlen Hlast Hst.
  - cbn. now rewrite Nat.add_0_r.
  - cbn [forallb] in Hall. apply andb_prop in Hall as [Hp Hall].
    cbn [List.length formatIntegerPart_loop] in *.
    replace (j + S (List.length l)) with (S j + List.length l) by lia.
    apply IH; auto; try lia.
    apply placeholder_step; auto; lia.
Qed.

(** Once the digits are exhausted a [#] writes nothing, last or not. *)
Lemma exhausted_loop (l : list FormatPart) :
  forall (lastDigitIndex index : Z) (st : IntState),
    forallb (fun part => kindIs part Digit) l = true ->
    (digitIndex st < 0)%Z ->
    result (formatIntegerPart_loop integerStr section lastDigitIndex index l st)
    = result st.
Proof.
  induction l as [|part l IH]; intros last index st Hall Hneg; [reflexivity|].
  cbn [forallb] in Hall. apply andb_prop in Hall as [Hp Hall].
  cbn [formatIntegerPart_loop].
  assert (Hstep :
    formatIntegerPart_step integerStr section last index part st
    = mkIntState (digitIndex st - 1) (result st) (digits st)).
  { unfold formatIntegerPart_step, nextInt, isPlaceholder, Str.charAt.
    rewrite Hp. cbn [orb].
    destruct (Z.ltb_spec (digitIndex st) 0) as [_|]; [|lia].
    unfold kindIs in Hp |- *.
    destruct (kind part) as [[]|]; try discriminate Hp.
    cbn [FormatPartKind_eqb digitIndex].
    replace (Z.to_nat (digitIndex st - 1 + 1)) with 0 by lia.
    cbn [flushInt]. now destruct (index =? last)%Z. }
  rewrite Hstep, IH; auto. cbn [digitIndex]. lia.
Qed.

Lemma formatIntegerPart_loop_app (l1 l2 : list FormatPart) :
  forall (lastDigitIndex index : Z) (st : IntState),
    formatIntegerPart_loop integerStr section lastDigitIndex index (l1 ++ l2) st
    = formatIntegerPart_loop integerStr section lastDigitIndex
        (index + Z.of_nat (List.length l1))%Z l2
        (formatIntegerPart_loop integerStr section lastDigitIndex index l1 st).
Proof.
  induction l1 as [|part l1 IH]; intros last index st.
  - cbn. now rewrite Z.add_0_r.
  - cbn [app formatIntegerPart_loop List.length]. rewrite IH. f_equal. lia.
Qed.

End Loop.

Lemma join_app (l1 l2 : list string) :
  Str.join (l1 ++ l2) = Str.join l1 ++ Str.join l2.
Proof.
  induction l1 as [|x l1 IH]; [reflexivity|].
  cbn [app]. now rewrite !DecimalFacts.join_cons, IH, append_assoc.
Qed.

Lemma join_repeat (c : ascii) (n : nat) :
  Str.join (List.repeat (Str.chr c) n) = Str.repeat c n.
Proof.
  induction n as [|n IH]; [reflexivity|].
  cbn [List.repeat Str.repeat]. now rewrite DecimalFacts.join_cons, IH.
Qed.

Lemma findIndex_head {A : Type} (p : A -> bool) (x : A) (l : list A) :
  p x = true -> findIndex p (x :: l) = 0%Z.
Proof. intros H. unfold findIndex. cbn. now rewrite H. Qed.

Lemma forallb_rev {A : Type} (p : A -> bool) (l : list A) :
  forallb p (List.rev l) = forallb p l.
Proof.
  induction l as [|x l IH]; [reflexivity|].
  cbn [List.rev forallb]. rewrite forallb_app, IH. cbn [forallb].
  rewrite andb_true_r. apply andb_comm.
Qed.

(** The initial state of [formatIntegerPart]. *)
Lemma afterDigits_init (integerStr : string) (g : bool) (pad : nat) :
  afterDigits integerStr g pad 0
    (mkIntState (Z.of_nat (String.length integerStr) - 1) [] 0).
Proof. repeat split. cbn [digitIndex]. lia. Qed.

End IntegerMore.

Module IntegerSide.

Import Parser Renderer Notions MoreNotions StrFacts IntegerMore.

Lemma lastDigitIndex_of_length (n : nat) :
  (if (-1 <? 0)%Z then (Z.of_nat n - 0 - 1)%Z else (-1)%Z)
  = (0 + Z.of_nat n - 1)%Z.
Proof. cbn [Z.ltb Z.compare]. lia. Qed.

Lemma forallb_Forall_placeholder (pad : nat) (l : list FormatPart) :
  forallb isPlaceholder l = true ->
  pad = 0 \/ forallb (fun part => kindIs part ZeroDigit) l = true ->
  Forall (fun part =>
            isPlaceholder part = true
            /\ (pad = 0 \/ kindIs part ZeroDigit = true)) l.
Proof.
  intros H1 H2. apply Forall_forall. intros part Hin.
  rewrite forallb_forall in H1. split; [now apply H1|].
  destruct H2 as [H2|H2]; [now left|right].
  rewrite forallb_forall in H2. now apply H2.
Qed.

(** Placeholders only, none of which has to pad. *)
Lemma placeholders_grouped (integerStr : string) (section : FormatSection)
    (parts : list FormatPart) :
  parts <> [] ->
  forallb isPlaceholder parts = true ->
  forallb (fun part => kindIs part Digit)
          (firstn (List.length parts - String.length integerStr) parts) = true ->
  formatIntegerPart integerStr section parts
  = Str.join
      (List.rev
         (grouped (truthy (thousandSeparator section)) 0
                  (List.rev (chars integerStr)))).
Proof.
  intros Hne Hall Hdig. unfold formatIntegerPart.
  destruct parts as [|p ps] eqn:Eparts; [contradiction|]. rewrite <- Eparts in *.
  assert (Hhead : findIndex isPlaceholder parts = 0%Z).
  { rewrite Eparts in *. cbn [forallb] in Hall.
    apply andb_prop in Hall as [Hp _]. now apply findIndex_head. }
  rewrite Hhead, lastDigitIndex_of_length. do 2 f_equal.
  set (n := List.length parts) in *.
  set (L := String.length integerStr) in *.
  destruct (Nat.le_gt_cases n L) as [Hle|Hgt].
  - (* every placeholder finds a digit *)
    rewrite <- (length_rev parts : List.length (List.rev parts) = n).
    rewrite (placeholders_loop integerStr section 0 (List.rev parts) 0%Z 0).
    + unfold paddedFromRight. now rewrite app_nil_r.
    + intros E. apply (f_equal (@List.rev _)) in E.
      rewrite rev_involutive in E. now subst parts.
    + apply forallb_Forall_placeholder; [now rewrite forallb_rev|now left].
    + intros _. rewrite length_rev. fold n. fold L. lia.
    + intros E. now contradiction E.
    + apply afterDigits_init.
  - (* the leftmost ones are [#] and find none *)
    rewrite <- (firstn_skipn (n - L) parts) at 1.
    rewrite rev_app_distr, formatIntegerPart_loop_app.
    assert (Hlen1 : List.length (List.rev (skipn (n - L) parts)) = L)
      by (rewrite length_rev, length_skipn; fold n; lia).
    pose proof (placeholders_before_last integerStr section 0
                  (List.rev (skipn (n - L) parts)) (0 + Z.of_nat n - 1) 0 0
                  (mkIntState (Z.of_nat L - 1) [] 0)) as H1.
    rewrite Hlen1 in *.
    destruct H1 as (Hi & Hd & Hr).
    + rewrite forallb_rev.
      rewrite <- (firstn_skipn (n - L) parts), forallb_app in Hall.
      now apply andb_prop in Hall.
    + lia.
    + lia.
    + apply afterDigits_init.
    + rewrite exhausted_loop.
      * rewrite Hr. cbn [Nat.add]. f_equal. unfold paddedFromRight.
        rewrite app_nil_r. apply firstn_all2.
        rewrite length_rev, length_chars. fold L. lia.
      * now rewrite forallb_rev.
      * rewrite Hi. fold L. cbn [Nat.add]. lia.
Qed.

(** A run of [0] placeholders. *)
Lemma zeros_grouped (integerStr : string) (section : FormatSection)
    (k : nat) :
  formatIntegerPart integerStr section (List.repeat zeroPart (S k))
  = Str.join
      (List.rev
         (grouped (truthy (thousandSeparator section)) 0
            (paddedFromRight integerStr (S k - String.length integerStr)))).
Proof.
  unfold formatIntegerPart. rewrite rev_repeat, repeat_length.
  assert (findIndex isPlaceholder (List.repeat zeroPart (S k)) = 0%Z) as ->
    by reflexivity.
  rewrite lastDigitIndex_of_length. do 2 f_equal.
  rewrite <- (repeat_length zeroPart (S k)) at 1.
  apply (placeholders_loop integerStr section
           (S k - String.length integerStr) (List.repeat zeroPart (S k))
           0%Z 0).
  - discriminate.
  - apply Forall_forall. intros part Hin. apply repeat_spec in Hin.
    subst part. split; [reflexivity|now right].
  - rewrite repeat_length. lia.
  - rewrite repeat_length. lia.
  - apply afterDigits_init.
Qed.

Lemma join_rev_padded (integerStr : string) (pad : nat) :
  Str.join (List.rev (paddedFromRight integerStr pad))
  = Str.repeat "0" pad ++ integerStr.
Proof.
  unfold paddedFromRight.
  rewrite rev_app_distr, rev_involutive, rev_repeat, join_app.
  change "0" with (Str.chr "0") at 1. now rewrite join_repeat, join_chars.
Qed.

End IntegerSide.

(** ** Literals, text and sign *)

Module RenderMore.

Import Parser Renderer Notions MoreNotions StrFacts.

Lemma literal_loop (integerStr : string) (section : FormatSection)
    (l : list FormatPart) :
  forall (index : Z) (st : IntState),
    noPlaceholder l = true ->
    result (formatIntegerPart_loop integerStr section (-1) index l st)
    = (result st ++ flat_map partText l)%list.
Proof.
  induction l as [|part l IH]; intros index st H.
  - cbn. now rewrite app_nil_r.
  - cbn [noPlaceholder forallb] in H. apply andb_prop in H as [Hp H].
    apply negb_true_iff in Hp.
    cbn [formatIntegerPart_loop flat_map]. rewrite IH by exact H.
    unfold formatIntegerPart_step, partText. rewrite Hp.
    destruct (kindIs part Literal); [cbn; now rewrite <- app_assoc|].
    destruct (kindIs part Percent); [cbn; now rewrite <- app_assoc|].
    reflexivity.
Qed.

Lemma partText_short (part : FormatPart) :
  List.rev (partText part) = partText part.
Proof.
  unfold partText. destruct (kindIs part Literal); [reflexivity|].
  now destruct (kindIs part Percent).
Qed.

Lemma rev_flat_map_partText (l : list FormatPart) :
  List.rev (flat_map partText (List.rev l)) = flat_map partText l.
Proof.
  induction l as [|part l IH]; [reflexivity|].
  cbn [List.rev flat_map]. rewrite flat_map_app, rev_app_distr.
  cbn [flat_map]. rewrite app_nil_r, partText_short, IH. reflexivity.
Qed.

(** Without placeholder the integer side is the text of the parts; the
    digits are not written. *)
Lemma formatIntegerPart_noPlaceholder (integerStr : string)
    (section : FormatSection) (parts : list FormatPart) :
  noPlaceholder parts = true ->
  formatIntegerPart integerStr section parts
  = Str.join (flat_map partText parts).
Proof.
  intros H. unfold formatIntegerPart.
  unfold findIndex. rewrite (RenderFacts.findIndex_from_none _ _ 0%Z H).
  cbn [Z.ltb Z.compare].
  rewrite literal_loop.
  - cbn [result app]. now rewrite rev_flat_map_partText.
  - unfold noPlaceholder. now rewrite IntegerMore.forallb_rev.
Qed.

Lemma formatTextSection_fold (l : list FormatPart) :
  forall acc,
    fold_left
      (fun result part =>
         if kindIs part Literal
         then result ++ match Parser.char part with
                        | Some c => c
                        | None => "undefined"
                        end
         else result) l acc
    = acc ++ Str.join (map literalText l).
Proof.
  induction l as [|part l IH]; intros acc.
  - cbn. now rewrite append_empty_r.
  - cbn [fold_left map]. rewrite IH, DecimalFacts.join_cons.
    unfold literalText. destruct (kindIs part Literal).
    + now rewrite append_assoc.
    + reflexivity.
Qed.

Lemma literal_parts_texts (t : string) :
  flat_map partText (map (fun c => mkPart (Some Literal) (Some c)) (chars t))
  = chars t
  /\ map literalText (map (fun c => mkPart (Some Literal) (Some c)) (chars t))
     = chars t.
Proof.
  induction t as [|c t [IH1 IH2]]; [now split|].
  cbn [chars map flat_map]. split.
  - cbn. f_equal. exact IH1.
  - cbn. f_equal. exact IH2.
Qed.

Lemma noPlaceholder_literals (t : string) :
  noPlaceholder (map (fun c => mkPart (Some Literal) (Some c)) (chars t))
  = true.
Proof. induction t as [|c t IH]; [reflexivity|exact IH]. Qed.

Lemma noDot_literals (t : string) :
  forallb (fun p => negb (kindIs p Dot))
          (map (fun c => mkPart (Some Literal) (Some c)) (chars t)) = true.
Proof. induction t as [|c t IH]; [reflexivity|exact IH]. Qed.

(** *** Sign *)

Lemma abs_negate (v : number) : JsNumber.abs (negate v) = JsNumber.abs v.
Proof. unfold JsNumber.abs, negate. cbn [mant decimals]. now rewrite Z.abs_opp. Qed.

Lemma ltb_zero_mant (v : number) : ltb v zero = (mant v <? 0)%Z.
Proof.
  unfold ltb, JsNumber.compare, zero, of_Z. cbn [mant decimals].
  rewrite NumberFacts.pow10_0, Z.mul_1_r, Z.mul_0_l. reflexivity.
Qed.

Lemma renderNumber_negate (section : FormatSection) (v : number) :
  (0 < mant v)%Z ->
  renderNumber section (negate v) = "-" ++ renderNumber section v.
Proof.
  intros Hpos. unfold renderNumber.
  rewrite abs_negate, !ltb_zero_mant. cbn [negate mant].
  destruct (Z.ltb_spec (- mant v) 0); [|lia].
  destruct (Z.ltb_spec (mant v) 0); [lia|].
  destruct (findIndex (fun p => kindIs p Dot) (parts section) =? -1)%Z;
    reflexivity.
Qed.

End RenderMore.

(** ** Literals around the placeholders *)

Module Affixes.

Import Parser Renderer Notions MoreNotions StrFacts.

Section Loop.

Variable integerStr : string.
Variable section : FormatSection.

Lemma pushDigit_prepend before c st :
  pushDigit section c (prepend before st)
  = prepend before (pushDigit section c st).
Proof.
  unfold pushDigit, prepend, push. cbn [digits digitIndex result].
  destruct (truthy (thousandSeparator section) && (0 <? digits st)%nat
            && (digits st mod 3 =? 0)%nat);
    cbn [digits digitIndex result]; now rewrite <- ?app_assoc.
Qed.

Lemma flushInt_prepend before n :
  forall st,
    flushInt n integerStr section (prepend before st)
    = prepend before (flushInt n integerStr section st).
Proof.
  induction n as [|n IH]; intros st; [reflexivity|].
  cbn [flushInt]. unfold hasMoreInt, nextInt.
  cbn [prepend digitIndex result digits].
  destruct (0 <=? digitIndex st)%Z; [|reflexivity].
  rewrite <- IH. f_equal. now rewrite <- pushDigit_prepend.
Qed.

(** A turn of the loop does not read what is already written, and
    depends on its position only through its distance to the last
    placeholder. *)
Lemma step_prepend before d lastDigitIndex index part st :
  formatIntegerPart_step integerStr section (lastDigitIndex + d)%Z
    (index + d)%Z part (prepend before st)
  = prepend before
      (formatIntegerPart_step integerStr section lastDigitIndex index part st).
Proof.
  unfold formatIntegerPart_step, nextInt.
  replace (index + d =? lastDigitIndex + d)%Z with (index =? lastDigitIndex)%Z
    by (destruct (Z.eqb_spec index lastDigitIndex),
                 (Z.eqb_spec (index + d) (lastDigitIndex + d)); lia).
  cbn [prepend digitIndex result digits].
  destruct (isPlaceholder part).
  - assert (Hflush : forall st2,
      (if (index =? lastDigitIndex)%Z
       then flushInt (Z.to_nat (digitIndex (prepend before st2) + 1))
              integerStr section (prepend before st2)
       else prepend before st2)
      = prepend before
          (if (index =? lastDigitIndex)%Z
           then flushInt (Z.to_nat (digitIndex st2 + 1)) integerStr section st2
           else st2)).
    { intros st2. destruct (index =? lastDigitIndex)%Z; [|reflexivity].
      apply flushInt_prepend. }
    destruct (Str.charAt integerStr (digitIndex st)) as [dg|].
    + rewrite <- Hflush. now rewrite <- pushDigit_prepend.
    + destruct (kindIs part ZeroDigit).
      * rewrite <- Hflush. now rewrite <- pushDigit_prepend.
      * destruct (kindIs part SpaceDigit).
        -- rewrite <- Hflush. unfold push, prepend.
           cbn [digitIndex result digits]. now rewrite <- app_assoc.
        -- now rewrite <- Hflush.
  - destruct (kindIs part Literal);
      [unfold push, prepend; cbn [digitIndex result digits];
       now rewrite <- app_assoc|].
    destruct (kindIs part Percent);
      [unfold push, prepend; cbn [digitIndex result digits];
       now rewrite <- app_assoc|].
    reflexivity.
Qed.

Lemma loop_prepend before d (l : list FormatPart) :
  forall lastDigitIndex index st,
    formatIntegerPart_loop integerStr section (lastDigitIndex + d)%Z
      (index + d)%Z l (prepend before st)
    = prepend before
        (formatIntegerPart_loop integerStr section lastDigitIndex index l st).
Proof.
  induction l as [|part l IH]; intros last index st; [reflexivity|].
  cbn [formatIntegerPart_loop]. rewrite step_prepend.
  replace (index + d + 1)%Z with (index + 1 + d)%Z by lia. apply IH.
Qed.

(** Parts that are not placeholders add their text and nothing else. *)
Lemma texts_loop (l : list FormatPart) :
  forall lastDigitIndex index st,
    noPlaceholder l = true ->
    formatIntegerPart_loop integerStr section lastDigitIndex index l st
    = mkIntState (digitIndex st) (result st ++ flat_map partText l)
                 (digits st).
Proof.
  induction l as [|part l IH]; intros last index st H.
  - cbn. rewrite app_nil_r. now destruct st.
  - cbn [noPlaceholder forallb] in H. apply andb_prop in H as [Hp H].
    apply negb_true_iff in Hp.
    cbn [formatIntegerPart_loop flat_map]. rewrite IH by exact H.
    unfold formatIntegerPart_step, partText. rewrite Hp.
    destruct (kindIs part Literal);
      [cbn [push digitIndex result digits]; now rewrite <- app_assoc|].
    destruct (kindIs part Percent);
      [cbn [push digitIndex result digits]; now rewrite <- app_assoc|].
    reflexivity.
Qed.

End Loop.

(** Literals before the first placeholder and after the last one stand
    around the digits, which are written as without them. *)
Lemma literals_around (integerStr : string)
    (section : FormatSection) (pre mid post : list FormatPart)
    (first : FormatPart) :
  noPlaceholder pre = true -> noPlaceholder post = true ->
  isPlaceholder first = true ->
  formatIntegerPart integerStr section (pre ++ (first :: mid) ++ post)
  = Str.join (flat_map partText pre)
    ++ formatIntegerPart integerStr section (first :: mid)
    ++ Str.join (flat_map partText post).
Proof.
  intros Hpre Hpost Hfirst. unfold formatIntegerPart.
  assert (Hfi : findIndex isPlaceholder (pre ++ (first :: mid) ++ post)
                = Z.of_nat (List.length pre)).
  { unfold findIndex. rewrite (RenderFacts.findIndex_from_skip _ pre _ 0%Z Hpre).
    cbn [app findIndex_from]. now rewrite Hfirst. }
  rewrite Hfi, (IntegerMore.findIndex_head isPlaceholder first mid Hfirst).
  remember (first :: mid) as m eqn:Em. clear Em Hfi.
  assert (Hlt : (-1 <? Z.of_nat (List.length pre))%Z = true)
    by (apply Z.ltb_lt; lia).
  rewrite Hlt. cbn [Z.ltb Z.compare].
  rewrite !rev_app_distr, !length_app, <- app_assoc.
  rewrite !IntegerMore.formatIntegerPart_loop_app.
  rewrite (texts_loop integerStr section (List.rev post)) by
    (unfold noPlaceholder; now rewrite IntegerMore.forallb_rev).
  cbn [digitIndex result digits app].
  assert (E : mkIntState (Z.of_nat (String.length integerStr) - 1)
                 (flat_map partText (List.rev post)) 0
               = prepend (flat_map partText (List.rev post))
                   (mkIntState (Z.of_nat (String.length integerStr) - 1)
                               [] 0))
    by (unfold prepend; cbn [digitIndex result digits];
        now rewrite app_nil_r).
  rewrite E. clear E.
  replace (Z.of_nat (List.length pre + (List.length m + List.length post))
           - Z.of_nat (List.length pre) - 1)%Z
    with (Z.of_nat (List.length m) - 0 - 1
          + Z.of_nat (List.length (List.rev post)))%Z
    by (rewrite length_rev; lia).
  rewrite (loop_prepend integerStr section
             (flat_map partText (List.rev post))
             (Z.of_nat (List.length (List.rev post))) (List.rev m)).
  rewrite (texts_loop integerStr section (List.rev pre)) by
    (unfold noPlaceholder; now rewrite IntegerMore.forallb_rev).
  cbn [prepend digitIndex result digits].
  rewrite !rev_app_distr, !IntegerMore.join_app.
  rewrite !RenderMore.rev_flat_map_partText.
  reflexivity.
Qed.

End Affixes.

(** ** Formats of [0] only and the format [#,##0] *)

Module SimpleFormats.

Import Parser Renderer Notions MoreNotions StrFacts.

Lemma tokenize_zeros (n : nat) :
  Tokenizer.tokenize (Str.repeat "0" n)
  = List.repeat (Tokenizer.Placeholder "0") n.
Proof.
  induction n as [|n IH]; [reflexivity|].
  cbn [Str.repeat List.repeat]. rewrite TokenizeMore.tokenize_cons.
  change (Tokenizer.tokenize_step "0" (Str.repeat "0" n))
    with (Tokenizer.Placeholder "0", Str.repeat "0" n).
  cbn [fst snd]. now rewrite IH.
Qed.

Lemma parse_loop_zeros (n : nat) :
  forall prevTk sections section,
    parse_loop prevTk (List.repeat (Tokenizer.Placeholder "0") n)
               (sections, section)
    = (sections, push_parts section (List.repeat zeroPart n)).
Proof.
  induction n as [|n IH]; intros prevTk sections section.
  - cbn. unfold push_parts. rewrite app_nil_r. now destruct section.
  - cbn [List.repeat parse_loop].
    change (parse_token prevTk (Tokenizer.Placeholder "0")
              (List.repeat (Tokenizer.Placeholder "0") n) (sections, section))
      with (sections, push_parts section [zeroPart]).
    cbv beta iota. rewrite IH, HashFormat.push_parts_push_parts. reflexivity.
Qed.

Lemma parse_zeros (k : nat) :
  parse (Tokenizer.tokenize (Str.repeat "0" (S k)))
  = mkAST [sectionOf (List.repeat zeroPart (S k))].
Proof.
  rewrite tokenize_zeros. unfold parse. rewrite parse_loop_zeros. reflexivity.
Qed.

Lemma noDot_zeros (n : nat) :
  noDot (sectionOf (List.repeat zeroPart n)) = true.
Proof. unfold noDot; cbn [sectionOf parts]. induction n; cbn; auto. Qed.

(** The section of the format [#,##0]. *)
Lemma parse_thousands :
  parse (Tokenizer.tokenize "#,##0")
  = mkAST [mkSection None None [digitPart; digitPart; digitPart; zeroPart]
                     None None (Some true) None].
Proof. reflexivity. Qed.

(** The integer digits handed to [formatIntegerPart] for an integer
    below [10^21] and a section without percent sign. *)
Lemma integerStrOf_integer (section : FormatSection) (v : Z) :
  percentCount section = None ->
  (Z.abs v < 10 ^ 21)%Z ->
  integerStrOf (scaledMagnitude section (of_Z v))
  = JsNumber.digits (Z.to_N (Z.abs v)).
Proof.
  intros Hpc Hv. unfold scaledMagnitude, integerStrOf. rewrite Hpc.
  cbn [toString_ext].
  change (JsNumber.abs (of_Z v)) with (of_Z (Z.abs v)).
  rewrite NumberFacts.toString_integer by (rewrite Z.abs_idemp; exact Hv).
  unfold decimalString.
  destruct (Z.ltb_spec (Z.abs v) 0) as [|_]; [lia|].
  rewrite Z.abs_idemp. cbn [append].
  rewrite split_noChar by apply digits_noDot. reflexivity.
Qed.

(** The section of the format [0%]. *)
Lemma parse_percent :
  parse (Tokenizer.tokenize "0%")
  = mkAST [mkSection None None [zeroPart; mkPart (Some Percent) None]
                     None (Some 1) None None].
Proof. reflexivity. Qed.

(** The integer digits handed to [formatIntegerPart] for an integer and
    a section with one percent sign, when the product by 100 is [2^53] at
    most. *)
Lemma integerStrOf_percent (section : FormatSection) (v : Z) :
  percentCount section = Some 1 ->
  (100 * Z.abs v <= 2 ^ 53)%Z ->
  integerStrOf (scaledMagnitude section (of_Z v))
  = JsNumber.digits (Z.to_N (100 * Z.abs v)).
Proof.
  intros Hpc Hv. unfold scaledMagnitude, integerStrOf. rewrite Hpc.
  cbn [Nat.ltb Nat.leb].
  change (JsNumber.abs (of_Z v)) with (of_Z (Z.abs v)).
  rewrite Binary64Facts.mul_pow100_integer by (exact Hv || lia).
  cbn [toString_ext].
  assert (H53 : (2 ^ 53 < 10 ^ 21)%Z) by reflexivity.
  rewrite NumberFacts.toString_integer by lia.
  unfold decimalString.
  destruct (Z.ltb_spec (100 * Z.abs v) 0) as [|_]; [lia|].
  replace (Z.abs (100 * Z.abs v)) with (100 * Z.abs v)%Z by lia.
  cbn [append].
  rewrite split_noChar by apply digits_noDot. reflexivity.
Qed.

End SimpleFormats.

(** * Further theorems *)

Import MoreNotions.

(** ** Tokenizer *)

(** X1.  The loop of [tokenize] ends within [format.length] turns, and
    a format gives at most one token per character. *)
Theorem tokenize_bounded (format : string) :
  Tokenizer.tokenize_loop (String.length format) format
  = Some (Tokenizer.tokenize format)
  /\ List.length (Tokenizer.tokenize format) <= String.length format.
Proof.
  split;
    [apply TokenizerFacts.tokenize_spec|apply TokenizeMore.tokenize_length_le].
Qed.

(** X2.  Every token of a format is well formed: a placeholder carries
    one of [0 # ?], a literal one character that is none of the reserved
    ones (the quote, the backslash, the opening bracket and
    [; * _ 0 # ? . , % @ y m d h s]), a color one of the eight names, a
    condition one of the six operators, a scientific marker a sign and a
    date token one of the patterns. *)
Theorem tokenize_well_formed (format : string) :
  forallb wellFormedToken (Tokenizer.tokenize format) = true.
Proof. apply TokenizeMore.tokenize_wellFormed. Qed.

(** X3.  A text between quotes, its own quotes doubled, is read back as
    one [Quoted] token that carries the text, and the tokens of what
    follows come after it; what follows must not start with a quote,
    which would be read as a doubled one. *)
Theorem tokenize_quoted (t rest : string) :
  noQuoteAhead rest = true ->
  Tokenizer.tokenize (quoted t ++ rest)
  = Tokenizer.Quoted t :: Tokenizer.tokenize rest.
Proof. apply TokenizeMore.tokenize_quoted_then. Qed.

Lemma tokenize_quoted_witness :
  Tokenizer.tokenize (quoted ("a" ++ Str.chr Str.dquote ++ "b") ++ "0")
  = [Tokenizer.Quoted ("a" ++ Str.chr Str.dquote ++ "b");
     Tokenizer.Placeholder "0"].
Proof.
  rewrite (tokenize_quoted ("a" ++ Str.chr Str.dquote ++ "b") "0" eq_refl).
  reflexivity.
Defined.

(** X4.  A quote that is never closed takes the rest of the format: the
    text read so far is the token, and nothing is raised. *)
Theorem tokenize_unterminated_quote (t : string) :
  Tokenizer.tokenize (String Str.dquote (doubleQuotes t))
  = [Tokenizer.Quoted t].
Proof.
  rewrite TokenizeMore.tokenize_cons, TokenizeMore.tokenize_step_dquote.
  unfold Tokenizer.readQuoted. cbn [Str.drop].
  rewrite TokenizeMore.readQuoted_loop_open. reflexivity.
Qed.

(** X5.  A bracket that holds one of the six operators and an integer
    that a number holds exactly (of magnitude [2^53] at most) is read as
    the condition with that operator and that integer as its threshold,
    whether the bracket is closed or the format ends first. *)
Theorem tokenize_condition (o : string) (z : Z) :
  In o Tokenizer.condOps ->
  (Z.abs z <= 2 ^ 53)%Z ->
  Tokenizer.tokenize ("[" ++ o ++ decimalString z ++ "]")
  = [Tokenizer.Condition o (Finite (of_Z z))]
  /\ Tokenizer.tokenize ("[" ++ o ++ decimalString z)
     = [Tokenizer.Condition o (Finite (of_Z z))].
Proof.
  intros Hin Hz.
  assert (Hno : noChar "]" (o ++ decimalString z) = true).
  { unfold noChar. rewrite StrFacts.forallb_append. apply andb_true_intro.
    split.
    - unfold Tokenizer.condOps in Hin. cbn [In] in Hin.
      destruct Hin as [<-|[<-|[<-|[<-|[<-|[<-|[]]]]]]]; reflexivity.
    - unfold decimalString. rewrite StrFacts.forallb_append.
      apply andb_true_intro. split; [now destruct (z <? 0)%Z|].
      apply StrFacts.forallb_impl with (p := Str.isDigit);
        [|apply StrFacts.digits_isDigit].
      intros c Hc. destruct (Ascii.eqb c "]") eqn:E; [|reflexivity].
      apply Ascii.eqb_eq in E. subst c. discriminate Hc. }
  pose proof (ConditionFacts.condMatch_condOps o (decimalString z) Hin
                (ConditionFacts.matchNumber_decimalString z)) as Hm.
  split.
  - cbn [append]. rewrite TokenizeMore.tokenize_cons.
    change (Tokenizer.tokenize_step "[" ?r)
      with (Tokenizer.readBracket (String "[" r)).
    unfold Tokenizer.readBracket. cbn [Str.drop].
    rewrite <- StrFacts.append_assoc.
    rewrite (ConditionFacts.readBracket_loop_closed _ Hno).
    cbn [append]. rewrite Hm, ConditionFacts.ofString_decimalString by exact Hz.
    reflexivity.
  - cbn [append]. rewrite TokenizeMore.tokenize_cons.
    change (Tokenizer.tokenize_step "[" ?r)
      with (Tokenizer.readBracket (String "[" r)).
    unfold Tokenizer.readBracket. cbn [Str.drop].
    rewrite (ConditionFacts.readBracket_loop_open _ Hno).
    cbn [append]. rewrite Hm, ConditionFacts.ofString_decimalString by exact Hz.
    reflexivity.
Qed.

Lemma tokenize_condition_witness :
  Tokenizer.tokenize "[<=-100]"
  = [Tokenizer.Condition "<=" (Finite (of_Z (-100)))]
  /\ Tokenizer.tokenize "[<=-100"
     = [Tokenizer.Condition "<=" (Finite (of_Z (-100)))].
Proof.
  apply (tokenize_condition "<=" (-100)); [left; reflexivity|].
  vm_compute. discriminate.
Defined.

(** X6.  When a date pattern starts the input, the token is the longest
    pattern of the list that does, and the input goes on after it. *)
Theorem tryDateToken_longest (rest : string) (tk : Tokenizer.Token)
    (r : string) :
  Tokenizer.tryDateToken rest = Some (tk, r) ->
  exists p,
    tk = Tokenizer.DateToken p
    /\ String.prefix p rest = true
    /\ r = Str.drop (String.length p) rest
    /\ forall q, In q Tokenizer.patterns -> String.prefix q rest = true ->
                 String.length q <= String.length p.
Proof.
  apply TokenizeMore.tryDateToken_loop_longest. reflexivity.
Qed.

Lemma tryDateToken_longest_witness :
  exists p,
    Tokenizer.DateToken "yyyy" = Tokenizer.DateToken p
    /\ String.prefix p "yyyy-mm" = true
    /\ "-mm" = Str.drop (String.length p) "yyyy-mm"
    /\ forall q, In q Tokenizer.patterns -> String.prefix q "yyyy-mm" = true ->
                 String.length q <= String.length p.
Proof.
  apply (tryDateToken_longest "yyyy-mm" (Tokenizer.DateToken "yyyy") "-mm").
  reflexivity.
Defined.

(** ** Parser *)

(** X7.  In every section that [parse] builds, [percentCount] is the
    number of [Percent] parts of the section, and is absent when the
    section has none. *)
Theorem parse_percentCount (tokens : list Tokenizer.Token) :
  Forall percentCounted (sections (parse tokens)).
Proof.
  apply (ParseMore.parse_Forall percentCounted (fun _ => True)).
  - reflexivity.
  - intros prevTk tk after secs sec _. apply ParseMore.percentCounted_step.
  - apply ParseMore.Forall_True.
Qed.

(** X8.  In the AST of a format string every part has a kind, every
    literal part carries exactly one character and no other part carries
    any. *)
Theorem parseFormat_parts (format : string) :
  Forall (fun s => wellFormedParts s = true) (sections (parseFormat format)).
Proof.
  unfold parseFormat.
  apply (ParseMore.parse_Forall (fun s => wellFormedParts s = true)
           (fun tk => wellFormedToken tk = true)).
  - reflexivity.
  - intros prevTk tk after secs sec. apply ParseMore.wellFormedParts_step.
  - apply ParseMore.tokenize_Forall_wellFormed.
Qed.

(** X9.  In the AST of a format string the operator of every condition
    is one of [<= >= <> < > =]: [evaluateCondition] never reaches its
    default case through [render]. *)
Theorem parseFormat_operators (format : string) :
  Forall (fun s => knownOperator s = true) (sections (parseFormat format)).
Proof.
  unfold parseFormat.
  apply (ParseMore.parse_Forall (fun s => knownOperator s = true)
           (fun tk => wellFormedToken tk = true)).
  - reflexivity.
  - intros prevTk tk after secs sec. apply ParseMore.knownOperator_step.
  - apply ParseMore.tokenize_Forall_wellFormed.
Qed.

(** X10.  Whatever the value and the format, the color that [render]
    returns is absent or one of the eight color names. *)
Theorem render_color (value : Value) (format : string) :
  knownColor (Renderer.color (render value format)) = true.
Proof.
  unfold render, renderAST.
  destruct (selectSection _ value) as [section|] eqn:Hsel; [|reflexivity].
  match goal with
  | |- context [if ?b then _ else _] => destruct b
  end; [reflexivity|].
  cbn [Renderer.color].
  apply ParseMore.selectSection_In in Hsel.
  pose proof (ParseMore.parse_Forall
                (fun s => knownColor (Parser.color s) = true)
                (fun tk => wellFormedToken tk = true) eq_refl
                ParseMore.knownColor_step (Tokenizer.tokenize format)
                (ParseMore.tokenize_Forall_wellFormed format)) as H.
  rewrite Forall_forall in H. now apply H.
Qed.

(** X11.  A section separator after a last section that has parts
    changes nothing: the AST is the one of the tokens without it. *)
Theorem parse_trailing_separator (tokens : list Tokenizer.Token) :
  List.length (sections (parse tokens)) = separators tokens + 1 ->
  parse (tokens ++ [Tokenizer.SectionSeparator]) = parse tokens.
Proof.
  unfold parse. rewrite ParseMore.parse_loop_separator_last.
  pose proof (ParserFacts.parse_loop_length tokens None [] emptySection) as Hk.
  destruct (parse_loop None tokens ([], emptySection)) as [ss s].
  cbn [fst snd emptySection parts List.length] in *.
  destruct (parts s) eqn:E; cbn [sections]; [lia|reflexivity].
Qed.

Lemma parse_trailing_separator_witness :
  parse (Tokenizer.tokenize "0;0" ++ [Tokenizer.SectionSeparator])
  = parse (Tokenizer.tokenize "0;0").
Proof. apply parse_trailing_separator. reflexivity. Defined.

(** ** Integer side *)

(** X12.  When the parts are placeholders only and the ones that find no
    digit -- those to the left of the last [integerStr.length] parts --
    are all [#], the integer side is the digits of the number as they
    are, with a comma before every third digit from the right when the
    section groups thousands. *)
Theorem formatIntegerPart_placeholders (integerStr : string)
    (section : FormatSection) (parts : list FormatPart) :
  parts <> [] ->
  forallb isPlaceholder parts = true ->
  forallb (fun part => kindIs part Digit)
          (firstn (List.length parts - String.length integerStr) parts) = true ->
  formatIntegerPart integerStr section parts
  = Str.join
      (List.rev
         (grouped (truthy (thousandSeparator section)) 0
                  (List.rev (chars integerStr)))).
Proof. apply IntegerSide.placeholders_grouped. Qed.

Lemma formatIntegerPart_placeholders_witness :
  formatIntegerPart "1234567"
    (mkSection None None [] None None (Some true) None)
    [digitPart; digitPart; placeholderPart SpaceDigit; zeroPart]
  = "1,234,567".
Proof.
  rewrite formatIntegerPart_placeholders;
    [reflexivity|discriminate|reflexivity|reflexivity].
Defined.

(** X13.  On [k + 1] placeholders [0] the integer side is the digits of
    the number, preceded by as many zeros as it takes to reach [k + 1]
    digits, the whole grouped by three from the right when the section
    groups thousands: the zeros of the padding are grouped too. *)
Theorem formatIntegerPart_zeros (integerStr : string)
    (section : FormatSection) (k : nat) :
  formatIntegerPart integerStr section (List.repeat zeroPart (S k))
  = Str.join
      (List.rev
         (grouped (truthy (thousandSeparator section)) 0
            (paddedFromRight integerStr (S k - String.length integerStr)))).
Proof. apply IntegerSide.zeros_grouped. Qed.

(** X14.  Without grouping, [k + 1] placeholders [0] pad the digits with
    zeros on the left to the width [k + 1], and leave a longer number as
    it is. *)
Theorem formatIntegerPart_zeros_pad (integerStr : string)
    (section : FormatSection) (k : nat) :
  truthy (thousandSeparator section) = false ->
  formatIntegerPart integerStr section (List.repeat zeroPart (S k))
  = pad_left (S k) integerStr.
Proof.
  intros Hg. rewrite IntegerSide.zeros_grouped, Hg, IntegerMore.grouped_off.
  apply IntegerSide.join_rev_padded.
Qed.

Lemma formatIntegerPart_zeros_pad_witness :
  formatIntegerPart "42" (sectionOf []) (List.repeat zeroPart 5) = "00042".
Proof.
  rewrite (formatIntegerPart_zeros_pad "42" (sectionOf []) 4 eq_refl).
  reflexivity.
Defined.

(** X15.  For an integer [v] of magnitude below [10^21] and a format of
    [k + 1] characters [0], [render] gives the sign, then the digits of
    [v] padded with zeros on the left to [k + 1] digits, and no color. *)
Theorem render_zero_format (v : Z) (k : nat) :
  (Z.abs v < 10 ^ 21)%Z ->
  render (VNumber (of_Z v)) (Str.repeat "0" (S k))
  = mkResult
      ((if (v <? 0)%Z then "-" else EmptyString)
       ++ pad_left (S k) (JsNumber.digits (Z.to_N (Z.abs v))))
      None.
Proof.
  intros Hv. unfold render. rewrite SimpleFormats.parse_zeros.
  unfold renderAST, selectSection.
  cbn [sections List.length Nat.eqb nth_error sectionOf condition
       renderSection Parser.color].
  rewrite RenderFacts.renderNumber_noDot by apply SimpleFormats.noDot_zeros.
  rewrite SimpleFormats.integerStrOf_integer by (reflexivity || exact Hv).
  cbn [parts sectionOf]. rewrite IntegerSide.zeros_grouped.
  cbn [thousandSeparator truthy].
  rewrite IntegerMore.grouped_off, IntegerSide.join_rev_padded.
  rewrite NumberFacts.ltb_of_Z_zero. reflexivity.
Qed.

Lemma render_zero_format_witness :
  render (VNumber (of_Z (-123))) (Str.repeat "0" 4) = mkResult "-0123" None.
Proof. rewrite (render_zero_format (-123) 3 eq_refl). reflexivity. Defined.

(** X16.  For an integer [v] of magnitude below [10^21] the format
    [#,##0] gives the sign, then the digits of [v] with a comma before
    every third digit from the right, and no color. *)
Theorem render_thousands_format (v : Z) :
  (Z.abs v < 10 ^ 21)%Z ->
  render (VNumber (of_Z v)) "#,##0"
  = mkResult
      ((if (v <? 0)%Z then "-" else EmptyString)
       ++ Str.join
            (List.rev
               (grouped true 0
                  (List.rev (chars (JsNumber.digits (Z.to_N (Z.abs v))))))))
      None.
Proof.
  intros Hv. unfold render. rewrite SimpleFormats.parse_thousands.
  unfold renderAST, selectSection.
  cbn [sections List.length Nat.eqb nth_error condition renderSection
       Parser.color].
  rewrite RenderFacts.renderNumber_noDot by reflexivity.
  rewrite SimpleFormats.integerStrOf_integer by (reflexivity || exact Hv).
  cbn [parts].
  destruct (ConditionFacts.digits_head (Z.to_N (Z.abs v)))
    as (c & s' & E & _ & _).
  rewrite IntegerSide.placeholders_grouped.
  - rewrite NumberFacts.ltb_of_Z_zero. reflexivity.
  - discriminate.
  - reflexivity.
  - rewrite E. cbn [List.length String.length Nat.sub].
    destruct (String.length s') as [|[|[|n]]]; reflexivity.
Qed.

Lemma render_thousands_format_witness :
  render (VNumber (of_Z (-1234567))) "#,##0" = mkResult "-1,234,567" None.
Proof. rewrite (render_thousands_format (-1234567) eq_refl). reflexivity. Defined.

(** X17.  When no part is a placeholder the integer side is the text of
    the literal and percent parts in their order: the digits of the
    number are not written at all. *)
Theorem formatIntegerPart_no_placeholder (integerStr : string)
    (section : FormatSection) (parts : list FormatPart) :
  noPlaceholder parts = true ->
  formatIntegerPart integerStr section parts
  = Str.join (flat_map partText parts).
Proof. apply RenderMore.formatIntegerPart_noPlaceholder. Qed.

Lemma formatIntegerPart_no_placeholder_witness :
  formatIntegerPart "12345" (sectionOf [])
    [literalPart "n"; literalPart "/"; literalPart "a"]
  = "n/a".
Proof.
  rewrite formatIntegerPart_no_placeholder; reflexivity.
Defined.

(** X18.  Literal and percent parts before the first placeholder and
    after the last one are written around the digits, and the parts from
    the first placeholder to the last one write what they write without
    them: grouping and padding do not depend on what stands around. *)
Theorem formatIntegerPart_affixes (integerStr : string)
    (section : FormatSection) (pre mid post : list FormatPart)
    (first : FormatPart) :
  noPlaceholder pre = true -> noPlaceholder post = true ->
  isPlaceholder first = true ->
  formatIntegerPart integerStr section (pre ++ (first :: mid) ++ post)
  = Str.join (flat_map partText pre)
    ++ formatIntegerPart integerStr section (first :: mid)
    ++ Str.join (flat_map partText post).
Proof. apply Affixes.literals_around. Qed.

Lemma formatIntegerPart_affixes_witness :
  formatIntegerPart "1234" (mkSection None None [] None None (Some true) None)
    ([literalPart "$"] ++ (digitPart :: [literalPart "-"; zeroPart])
     ++ [literalPart "k"; mkPart (Some Percent) None])
  = "$1,23-4k%".
Proof.
  rewrite formatIntegerPart_affixes; reflexivity.
Defined.

(** X19.  For an integer [v] whose product by 100 a number holds exactly
    (at most [2^53]) the format [0%] gives the sign, then the digits of
    [100 * |v|], then the percent sign, and no color. *)
Theorem render_percent_format (v : Z) :
  (100 * Z.abs v <= 2 ^ 53)%Z ->
  render (VNumber (of_Z v)) "0%"
  = mkResult
      ((if (v <? 0)%Z then "-" else EmptyString)
       ++ JsNumber.digits (Z.to_N (100 * Z.abs v)) ++ "%")
      None.
Proof.
  intros Hv. unfold render. rewrite SimpleFormats.parse_percent.
  unfold renderAST, selectSection.
  cbn [sections List.length Nat.eqb nth_error condition renderSection
       Parser.color].
  rewrite RenderFacts.renderNumber_noDot by reflexivity.
  rewrite SimpleFormats.integerStrOf_percent by (reflexivity || exact Hv).
  cbn [parts].
  rewrite (Affixes.literals_around _ _ [] []
             [mkPart (Some Percent) None] zeroPart eq_refl eq_refl eq_refl).
  change [zeroPart] with (List.repeat zeroPart 1).
  rewrite IntegerSide.zeros_grouped. cbn [thousandSeparator truthy].
  rewrite IntegerMore.grouped_off, IntegerSide.join_rev_padded.
  destruct (ConditionFacts.digits_head (Z.to_N (100 * Z.abs v)))
    as (c & s' & E & _ & _).
  rewrite E, NumberFacts.ltb_of_Z_zero. reflexivity.
Qed.

Lemma render_percent_format_witness :
  render (VNumber (of_Z (-12))) "0%" = mkResult "-1200%" None.
Proof.
  rewrite (render_percent_format (-12)); [reflexivity|].
  vm_compute. discriminate.
Defined.

(** ** Literals, text and sign *)

(** X20.  A format that is one quoted text, not empty, renders that text
    for every value: as it is for a text and for a number that is not
    negative, after a minus sign for a negative number; the digits of the
    number are not shown. *)
Theorem render_quoted (t : string) :
  t <> EmptyString ->
  (forall str, render (VString str) (quoted t) = mkResult t None)
  /\ (forall n,
        render (VNumber n) (quoted t)
        = mkResult ((if ltb n zero then "-" else EmptyString) ++ t) None).
Proof.
  intros Ht.
  assert (Hparse :
    parse (Tokenizer.tokenize (quoted t))
    = mkAST [sectionOf (map (fun c => mkPart (Some Literal) (Some c))
                            (chars t))]).
  { rewrite <- (StrFacts.append_empty_r (quoted t)).
    rewrite (TokenizeMore.tokenize_quoted_then t EmptyString eq_refl).
    destruct t as [|c t']; [contradiction|]. reflexivity. }
  destruct (RenderMore.literal_parts_texts t) as [Hint Htext].
  split.
  - intros str. unfold render. rewrite Hparse. unfold renderAST, selectSection.
    cbn [sections List.length Nat.eqb nth_error sectionOf condition
         renderSection Parser.color].
    unfold formatTextSection. cbn [parts sectionOf].
    rewrite RenderMore.formatTextSection_fold, Htext, StrFacts.join_chars.
    reflexivity.
  - intros n. unfold render. rewrite Hparse. unfold renderAST, selectSection.
    cbn [sections List.length Nat.eqb nth_error sectionOf condition
         renderSection Parser.color].
    rewrite RenderFacts.renderNumber_noDot by apply RenderMore.noDot_literals.
    cbn [parts sectionOf].
    rewrite RenderMore.formatIntegerPart_noPlaceholder
      by apply RenderMore.noPlaceholder_literals.
    now rewrite Hint, StrFacts.join_chars.
Qed.

Lemma render_quoted_witness :
  (forall str, render (VString str) (quoted "n/a") = mkResult "n/a" None)
  /\ (forall n,
        render (VNumber n) (quoted "n/a")
        = mkResult ((if ltb n zero then "-" else EmptyString) ++ "n/a") None).
Proof. apply render_quoted. discriminate. Defined.

(** X21.  Through any section, the text of the opposite of a positive
    number is the text of the number after a minus sign: the sign comes
    first, before the literals of the format as well. *)
Theorem renderSection_negate (section : FormatSection) (v : number) :
  (0 < mant v)%Z ->
  renderSection section (VNumber (negate v))
  = "-" ++ renderSection section (VNumber v).
Proof. apply RenderMore.renderNumber_negate. Qed.

Lemma renderSection_negate_witness :
  renderSection (sectionOf [literalPart "$"; zeroPart])
                (VNumber (negate (of_Z 5)))
  = "-$5".
Proof.
  rewrite (renderSection_negate (sectionOf [literalPart "$"; zeroPart])
             (of_Z 5) eq_refl).
  reflexivity.
Defined.

(** X22.  The result for a text never shows the text through a format:
    for two texts and one format, either both results are the fallback
    (each text as it is, without color) or the two results are equal. *)
Theorem render_text_independent (format t1 t2 : string) :
  render (VString t1) format = render (VString t2) format
  \/ (render (VString t1) format = mkResult t1 None
      /\ render (VString t2) format = mkResult t2 None).
Proof.
  unfold render, renderAST.
  change (selectSection (parse (Tokenizer.tokenize format)) (VString t2))
    with (selectSection (parse (Tokenizer.tokenize format)) (VString t1)).
  destruct (selectSection _ (VString t1)) as [section|]; [|now right].
  destruct (condition section); [now right|now left].
Qed.

(** ** Decimal side *)


(** X24.  There is no carry: when the last digit shown is a 9 and the
    digit after it is one of 5 to 9, the decimal side ends with the two
    characters ["10"] after the unchanged first digits. *)
Theorem formatDecimalPart_nine (decimalStr : string)
    (section : FormatSection) (k : nat) (next : string) :
  Str.charAt decimalStr (Z.of_nat k) = Some "9" ->
  Str.charAt decimalStr (Z.of_nat k + 1)%Z = Some next ->
  isFiveToNine next = true ->
  formatDecimalPart decimalStr section (List.repeat zeroPart (S k))
  = zeroPadded decimalStr k ++ "10".
Proof.
  intros H9 Hnext H59. rewrite DecimalFacts.formatDecimalPart_zeros.
  unfold roundedDigit, fractionDigit. now rewrite Hnext, H59, H9.
Qed.

Lemma formatDecimalPart_nine_witness :
  formatDecimalPart "96" (sectionOf []) (List.repeat zeroPart 1) = "10".
Proof.
  rewrite (formatDecimalPart_nine "96" (sectionOf []) 0 "6"
             eq_refl eq_refl eq_refl).
  reflexivity.
Defined.

(** ** Formats without parts *)

(** X25.  A format none of whose tokens is a placeholder, a literal, a
    quoted text, a percent sign or a section separator -- only colors,
    conditions, date patterns, escapes and the like -- has no section at
    all, and [render] returns [String(value)] without color for every
    value. *)
Theorem render_partless_format (value : Value) (format : string) :
  forallb partless (Tokenizer.tokenize format) = true ->
  parseFormat format = mkAST []
  /\ render value format = mkResult (String_ value) None.
Proof.
  intros H.
  assert (Hparse : parse (Tokenizer.tokenize format) = mkAST []).
  { unfold parse.
    destruct (ParseMore.parse_loop_partless (Tokenizer.tokenize format) None
                emptySection H eq_refl eq_refl) as [E1 E2].
    destruct (parse_loop None (Tokenizer.tokenize format) ([], emptySection))
      as [ss s].
    cbn [fst snd] in *. now rewrite E2, E1. }
  split; [exact Hparse|].
  unfold render. rewrite Hparse. now destruct value.
Qed.

Lemma render_partless_format_witness :
  parseFormat "[Red]yyyy@" = mkAST []
  /\ render (VNumber (of_Z 7)) "[Red]yyyy@"
     = mkResult (String_ (VNumber (of_Z 7))) None.
Proof. apply render_partless_format. reflexivity. Defined.
